(** * Legacy IP Suite: the ETL core (transform, validate, migrate)

    A shallow embedding of [etl/transform_utils.py], [etl/validate.py] and
    [etl/migrate.py], and the properties of the normalisers, of the quality
    scorer, of the validation report and of the load procedure.

    Modelling conventions.
    - Python [str] is [string]; the characters are ASCII. Characters above
      127 are kept as they are (neither whitespace nor cased).
    - A cell read by [pd.read_csv] is a [cell]: NaN, a string or an integer
      (float and boolean columns are outside the model).
    - A pandas frame is column oriented, as in pandas: a number of rows and
      an ordered list of named series.
    - A Python exception is [None] in the [option] monad; a function written
      without [option] cannot raise.
    - Python floats holding scores are exact rationals ([Q]); [round(x, 2)]
      is rounding to the nearest hundredth, ties to even.
    - Logging, the time stamps of the report and the writing of the report
      file are not modelled; the store is modelled from the SQL text of
      [migrate.py], the driver's adaptation of values is not. *)

From Stdlib Require Import ZArith QArith Qround Ascii String List Bool Lia Lqa Sorted.
From Stdlib Require Import Numbers.DecimalString.
From Stdlib Require OrderedTypeEx.
From stdpp Require Import base option list strings gmap.

Local Open Scope string_scope.

(** ** Python strings *)

Module PyStr.

Definition code (c : ascii) : N := N_of_ascii c.

Definition between (lo hi : N) (c : ascii) : bool :=
  ((lo <=? code c) && (code c <=? hi))%N.

(** [str.isspace] on one character; also what [\s] matches. *)
Definition is_space (c : ascii) : bool :=
  between 9 13 c || between 28 32 c.

Definition is_upper (c : ascii) : bool := between 65 90 c.
Definition is_lower (c : ascii) : bool := between 97 122 c.
Definition is_alpha (c : ascii) : bool := is_upper c || is_lower c.
Definition is_digit (c : ascii) : bool := between 48 57 c.

Definition to_lower (c : ascii) : ascii :=
  if is_upper c then ascii_of_N (code c + 32) else c.
Definition to_upper (c : ascii) : ascii :=
  if is_lower c then ascii_of_N (code c - 32) else c.

Fixpoint map_chars (f : ascii -> ascii) (s : string) : string :=
  match s with
  | EmptyString => EmptyString
  | String c s' => String (f c) (map_chars f s')
  end.

Fixpoint all_chars (p : ascii -> bool) (s : string) : bool :=
  match s with
  | EmptyString => true
  | String c s' => p c && all_chars p s'
  end.

(** [s.lower()] *)
Definition lower (s : string) : string := map_chars to_lower s.

(** [s.lstrip()], [s.rstrip()], [s.strip()] *)
Fixpoint lstrip (s : string) : string :=
  match s with
  | String c s' => if is_space c then lstrip s' else s
  | EmptyString => EmptyString
  end.

Fixpoint rstrip (s : string) : string :=
  match s with
  | EmptyString => EmptyString
  | String c s' =>
      match rstrip s' with
      | EmptyString => if is_space c then EmptyString else String c EmptyString
      | r => String c r
      end
  end.

Definition strip (s : string) : string := rstrip (lstrip s).

(** [re.sub(r'\s+', ' ', s)]: every maximal run of whitespace becomes one
    space. *)
Fixpoint collapse_aux (in_run : bool) (s : string) : string :=
  match s with
  | EmptyString => EmptyString
  | String c s' =>
      if is_space c
      then (if in_run then collapse_aux true s'
            else String " "%char (collapse_aux true s'))
      else String c (collapse_aux false s')
  end.

Definition collapse_ws (s : string) : string := collapse_aux false s.

(** [p in s] for a prefix test, and [sub in s]. *)
Fixpoint starts_with (p s : string) : bool :=
  match p, s with
  | EmptyString, _ => true
  | String a p', String b s' => Ascii.eqb a b && starts_with p' s'
  | String _ _, EmptyString => false
  end.

Fixpoint contains (sub s : string) : bool :=
  starts_with sub s ||
  match s with
  | EmptyString => false
  | String _ s' => contains sub s'
  end.

Fixpoint has_char (c : ascii) (s : string) : bool :=
  match s with
  | EmptyString => false
  | String a s' => Ascii.eqb a c || has_char c s'
  end.

(** [s.split(sep)] for a one-character separator: never the empty list. *)
Fixpoint split_on (sep : ascii) (s : string) : list string :=
  match s with
  | EmptyString => [EmptyString]
  | String c s' =>
      if Ascii.eqb c sep then EmptyString :: split_on sep s'
      else match split_on sep s' with
           | [] => [String c EmptyString]
           | p :: ps => String c p :: ps
           end
  end.

(** Splitting at runs of separator characters, empty pieces dropped:
    [s.split()] is [fields is_space s]. *)
Fixpoint fields_aux (is_sep : ascii -> bool) (cur : string) (s : string)
  : list string :=
  match s with
  | EmptyString => if String.eqb cur "" then [] else [cur]
  | String c s' =>
      if is_sep c
      then ((if String.eqb cur "" then [] else [cur]) ++ fields_aux is_sep "" s')%list
      else fields_aux is_sep (cur ++ String c "") s'
  end.

Definition fields (is_sep : ascii -> bool) (s : string) : list string :=
  fields_aux is_sep "" s.

Definition split_ws (s : string) : list string := fields is_space s.

(** [sep.join(l)] *)
Fixpoint join (sep : string) (l : list string) : string :=
  match l with
  | [] => ""
  | [x] => x
  | x :: l' => x ++ sep ++ join sep l'
  end.

(** [s.title()]: a cased character is upper-cased when the character
    before it is not cased, and lower-cased otherwise. *)
Fixpoint title_aux (prev_cased : bool) (s : string) : string :=
  match s with
  | EmptyString => EmptyString
  | String c s' =>
      if is_lower c
      then String (if prev_cased then c else to_upper c) (title_aux true s')
      else if is_upper c
      then String (if prev_cased then to_lower c else c) (title_aux true s')
      else String c (title_aux false s')
  end.

Definition title (s : string) : string := title_aux false s.

(** [s.replace(old, new)], all non-overlapping occurrences from the left;
    [old] is not empty. *)
Fixpoint drop_chars (n : nat) (s : string) : string :=
  match n, s with
  | O, _ => s
  | S n', String _ s' => drop_chars n' s'
  | S _, EmptyString => EmptyString
  end.

Fixpoint replace_aux (fuel : nat) (old new s : string) : string :=
  match fuel with
  | O => s
  | S fuel' =>
      match s with
      | EmptyString => EmptyString
      | String c s' =>
          if starts_with old s
          then new ++ replace_aux fuel' old new
                        (drop_chars (String.length old) s)
          else String c (replace_aux fuel' old new s')
      end
  end.

Definition replace (old new s : string) : string :=
  replace_aux (String.length s) old new s.

(** [s.isdigit()] *)
Definition isdigit (s : string) : bool :=
  negb (String.eqb s "") && all_chars is_digit s.

(** [int(s)] for a string of decimal digits. *)
Definition digit_val (c : ascii) : Z := Z.of_N (code c) - 48.

Fixpoint int_of_digits_aux (acc : Z) (s : string) : Z :=
  match s with
  | EmptyString => acc
  | String c s' => int_of_digits_aux (10 * acc + digit_val c) s'
  end.

Definition int_of_digits (s : string) : Z := int_of_digits_aux 0 s.

(** [re.findall(r'\d+', s)]: the maximal runs of digits. *)
Definition digit_runs (s : string) : list string :=
  fields (fun c => negb (is_digit c)) s.

(** [str(n)] for an integer. *)
Definition str_of_Z (z : Z) : string := NilZero.string_of_int (Z.to_int z).

(** Zero-padded decimal of width [w], as [%0wd] for a natural number. *)
Fixpoint zeros (n : nat) : string :=
  match n with O => "" | S n' => String "0"%char (zeros n') end.

Definition zfill (w : nat) (z : Z) : string :=
  let s := str_of_Z z in zeros (w - String.length s) ++ s.

End PyStr.

(** ** Regular expressions (Brzozowski derivatives), for [re.match] with a
    pattern anchored at both ends *)

Module Regex.

Inductive re : Type :=
| Void
| Eps
| Cls (p : ascii -> bool)
| Cat (r1 r2 : re)
| Alt (r1 r2 : re)
| Star (r : re).

Fixpoint nullable (r : re) : bool :=
  match r with
  | Void => false
  | Eps => true
  | Cls _ => false
  | Cat r1 r2 => nullable r1 && nullable r2
  | Alt r1 r2 => nullable r1 || nullable r2
  | Star _ => true
  end.

Fixpoint deriv (c : ascii) (r : re) : re :=
  match r with
  | Void => Void
  | Eps => Void
  | Cls p => if p c then Eps else Void
  | Cat r1 r2 =>
      if nullable r1 then Alt (Cat (deriv c r1) r2) (deriv c r2)
      else Cat (deriv c r1) r2
  | Alt r1 r2 => Alt (deriv c r1) (deriv c r2)
  | Star r1 => Cat (deriv c r1) (Star r1)
  end.

Fixpoint full_match (r : re) (s : string) : bool :=
  match s with
  | EmptyString => nullable r
  | String c s' => full_match (deriv c r) s'
  end.

Definition plus (r : re) : re := Cat r (Star r).
Definition at_least_two (r : re) : re := Cat r (Cat r (Star r)).
Definition chr (c : ascii) : re := Cls (Ascii.eqb c).

End Regex.

(** ** Cells and frames *)

(** A value of a legacy CSV column. *)
Inductive cell : Type :=
| NaN
| Str (s : string)
| Int (z : Z).

#[global] Instance cell_eq_dec : EqDecision cell.
Proof. solve_decision. Defined.

(** [pd.isna(v)] *)
Definition isna (v : cell) : bool :=
  match v with NaN => true | _ => false end.

(** [not v]: NaN is a non-zero float, hence truthy. *)
Definition falsy (v : cell) : bool :=
  match v with
  | NaN => false
  | Str s => String.eqb s ""
  | Int z => Z.eqb z 0
  end.

(** [str(v)] *)
Definition py_str (v : cell) : string :=
  match v with
  | NaN => "nan"
  | Str s => s
  | Int z => PyStr.str_of_Z z
  end.

Definition mem_str (x : string) (l : list string) : bool :=
  existsb (String.eqb x) l.

(** A value of a transformed column: a legacy cell, Python's [None], the
    class list of [parse_classes] or the dictionary of [split_name]. *)
Inductive out_cell : Type :=
| Raw (c : cell)
| PyNone
| Classes (l : list Z)
| NameDict (first_name last_name : string).

Definition of_opt_str (o : option string) : out_cell :=
  match o with Some s => Raw (Str s) | None => PyNone end.

(** A frame: [nrows] is [len(df)], [cols] the named series in column
    order. In a well-formed frame every series has [nrows] entries. *)
Record Frame (A : Type) : Type := mkFrame {
  nrows : nat;
  cols : list (string * list A)
}.
Arguments mkFrame {A} _ _.
Arguments nrows {A} _.
Arguments cols {A} _.

Definition wf_frame {A} (df : Frame A) : Prop :=
  Forall (fun cs => length cs.2 = nrows df) (cols df).

(** [df[c]]: raises [KeyError] when the column is absent. *)
Fixpoint assoc {A} (c : string) (l : list (string * A)) : option A :=
  match l with
  | [] => None
  | (k, v) :: l' => if String.eqb k c then Some v else assoc c l'
  end.

Definition column {A} (df : Frame A) (c : string) : option (list A) :=
  assoc c (cols df).

(** [c in df.columns] *)
Definition has_column {A} (df : Frame A) (c : string) : bool :=
  match column df c with Some _ => true | None => false end.

(** [df.empty] *)
Definition frame_empty {A} (df : Frame A) : bool :=
  Nat.eqb (nrows df) 0 || match cols df with [] => true | _ => false end.

(** [out[c] = series] on a frame built column by column. *)
Definition set_column {A} (df : Frame A) (c : string) (s : list A) : Frame A :=
  mkFrame (if (match cols df with [] => true | _ => false end)
           then length s else nrows df)
          (if has_column df c
           then map (fun kv => if String.eqb kv.1 c then (c, s) else kv) (cols df)
           else cols df ++ [(c, s)]).

(** [df.drop(columns=[c])] *)
Definition drop_column {A} (df : Frame A) (c : string) : Frame A :=
  mkFrame (nrows df) (filter (fun kv => kv.1 ≠ c) (cols df)).

(** One row of a frame, as [iterrows] and [apply(axis=1)] hand it out:
    the column names with the value of row [i]. [row.get(c, d)] is
    [assoc c row] with a default. *)
Definition row_at (df : Frame cell) (i : nat) : list (string * cell) :=
  map (fun kv => (kv.1, nth i kv.2 NaN)) (cols df).

Definition iterrows (df : Frame cell) : list (nat * list (string * cell)) :=
  map (fun i => (i, row_at df i)) (seq 0 (nrows df)).

(** ** [etl/transform_utils.py] *)

Definition COUNTRY_MAP : list (string * string) :=
  [ ("United States", "US"); ("USA", "US"); ("US", "US");
    ("United States of America", "US");
    ("Canada", "CA"); ("CA", "CA");
    ("United Kingdom", "GB"); ("UK", "GB"); ("GB", "GB"); ("Great Britain", "GB");
    ("Germany", "DE"); ("DE", "DE"); ("Deutschland", "DE");
    ("Federal Republic of Germany", "DE");
    ("France", "FR"); ("FR", "FR"); ("République française", "FR");
    ("Japan", "JP"); ("JP", "JP"); ("Nippon", "JP"); ("Nihon", "JP");
    ("China", "CN"); ("CN", "CN"); ("People's Republic of China", "CN");
    ("PRC", "CN");
    ("India", "IN"); ("IN", "IN"); ("Republic of India", "IN");
    ("Australia", "AU"); ("AU", "AU"); ("Commonwealth of Australia", "AU");
    ("Brazil", "BR"); ("BR", "BR"); ("Brasil", "BR");
    ("Federative Republic of Brazil", "BR");
    ("Italy", "IT"); ("IT", "IT"); ("Italia", "IT");
    ("Spain", "ES"); ("ES", "ES"); ("España", "ES");
    ("Netherlands", "NL"); ("NL", "NL"); ("Holland", "NL");
    ("Switzerland", "CH"); ("CH", "CH"); ("Schweiz", "CH"); ("Suisse", "CH");
    ("Sweden", "SE"); ("SE", "SE"); ("Sverige", "SE");
    ("South Korea", "KR"); ("KR", "KR"); ("Korea", "KR");
    ("Republic of Korea", "KR") ].

Definition STATUS_MAPPINGS : list (string * list (string * list string)) :=
  [ ("patent",
      [ ("pending", ["pending"; "filed"; "under examination"; "prosecution";
                     "in prosecution"]);
        ("granted", ["granted"; "issued"; "patented"; "allowed"]);
        ("abandoned", ["abandoned"; "withdrawn"; "dismissed"]);
        ("rejected", ["rejected"; "refused"; "denied"]);
        ("expired", ["expired"; "lapsed"; "terminated"]) ]);
    ("trademark",
      [ ("pending", ["pending"; "filed"; "under examination"; "published";
                     "application"]);
        ("registered", ["registered"; "registration"; "issued"; "granted"]);
        ("opposed", ["opposed"; "opposition"; "contested"]);
        ("cancelled", ["cancelled"; "canceled"; "revoked"]);
        ("abandoned", ["abandoned"; "withdrawn"; "dismissed"]);
        ("expired", ["expired"; "lapsed"; "terminated"]) ]);
    ("copyright",
      [ ("pending", ["pending"; "filed"; "under examination"; "application"]);
        ("registered", ["registered"; "registration"; "issued"; "granted"]);
        ("rejected", ["rejected"; "refused"; "denied"]);
        ("abandoned", ["abandoned"; "withdrawn"; "dismissed"]) ]) ].

(** The legacy spellings of "no value" that [clean_string] blanks. *)
Definition legacy_blanks : list string :=
  ["n/a"; "na"; "null"; "none"; "unknown"; "tbd"; "pending"].

Definition clean_string (value : cell) : string :=
  if isna value then ""
  else
    let cleaned := PyStr.strip (py_str value) in
    let cleaned := PyStr.collapse_ws cleaned in
    if mem_str (PyStr.lower cleaned) legacy_blanks then "" else cleaned.

Definition iso2 (country_raw : cell) : option string :=
  if falsy country_raw then None
  else
    let country_clean := PyStr.strip (clean_string country_raw) in
    if String.eqb country_clean "" then None
    else
      match assoc country_clean COUNTRY_MAP with
      | Some result => Some result
      | None =>
          match find (fun kv => String.eqb (PyStr.lower kv.1)
                                           (PyStr.lower country_clean))
                     COUNTRY_MAP with
          | Some kv => Some kv.2
          | None =>
              let country_lower := PyStr.lower country_clean in
              if PyStr.contains "united states" country_lower
                 || PyStr.contains "america" country_lower then Some "US"
              else if PyStr.contains "united kingdom" country_lower
                      || PyStr.contains "britain" country_lower then Some "GB"
              else if PyStr.contains "germany" country_lower
                      || PyStr.contains "deutschland" country_lower then Some "DE"
              else None
          end
      end.

(** *** Dates *)

(** The date part of a [datetime.datetime]. *)
Record datetime : Type := mkDate { year : Z; month : Z; day : Z }.

(** What every [datetime] object satisfies by construction. *)
Definition valid_date (d : datetime) : Prop :=
  (1 <= year d <= 9999)%Z /\ (1 <= month d <= 12)%Z /\ (1 <= day d <= 31)%Z.

Definition valid_dateb (d : datetime) : bool :=
  ((1 <=? year d) && (year d <=? 9999) && (1 <=? month d) && (month d <=? 12)
   && (1 <=? day d) && (day d <=? 31))%Z.

(** [d.date().isoformat()], that is ["%04d-%02d-%02d"]. *)
Definition isoformat (d : datetime) : string :=
  PyStr.zfill 4 (year d) ++ "-" ++ PyStr.zfill 2 (month d) ++ "-"
  ++ PyStr.zfill 2 (day d).

(** A numeric date written [M/D/YYYY] or [M-D-YYYY], one or two digits for
    each of the first two numbers and four for the last: the three numbers
    in the order they are written. *)
Definition numeric_triple_with (sep : ascii) (s : string) : option (Z * Z * Z) :=
  match PyStr.split_on sep s with
  | [a; b; c] =>
      if PyStr.isdigit a && (String.length a <=? 2)%nat
         && PyStr.isdigit b && (String.length b <=? 2)%nat
         && PyStr.isdigit c && (String.length c =? 4)%nat
      then Some (PyStr.int_of_digits a, PyStr.int_of_digits b,
                 PyStr.int_of_digits c)
      else None
  | _ => None
  end.

Definition numeric_triple (s : string) : option (Z * Z * Z) :=
  match numeric_triple_with "/"%char s with
  | Some t => Some t
  | None => numeric_triple_with "-"%char s
  end.

(** [dateutil.parser.parse(s, dayfirst=.., yearfirst=..)], a library
    outside the repository, through its contract: [None] stands for a
    [ValueError] or [OverflowError] (which [to_date] catches); a result is a
    [datetime]; and with [dayfirst=False, yearfirst=False] a numeric date
    whose first two numbers could both be a month is read month first. *)
Class DateParser : Type := {
  dateutil_parse : bool -> bool -> string -> option datetime;
  dateutil_parse_valid :
    forall dayfirst yearfirst s d,
      dateutil_parse dayfirst yearfirst s = Some d -> valid_date d;
  dateutil_parse_month_first :
    forall s m d y,
      numeric_triple s = Some (m, d, y) ->
      (1 <= m <= 12)%Z -> (1 <= d <= 12)%Z -> (1 <= y)%Z ->
      dateutil_parse false false s = Some (mkDate y m d)
}.

Definition bad_dates : list string :=
  ["00/00/0000"; "1900-01-01"; "0000-00-00"; "01/01/1900"].

Definition to_date `{DateParser} (value : cell) : option string :=
  if isna value || falsy value then None
  else
    let date_str := clean_string value in
    if String.eqb date_str "" then None
    else if mem_str date_str bad_dates then None
    else
      match dateutil_parse false false date_str with
      | Some parsed_date =>
          if ((1900 <=? year parsed_date) && (year parsed_date <=? 2050))%Z
          then Some (isoformat parsed_date)
          else None
      | None => None
      end.

(** *** Names *)

Definition split_name (name : cell) : string * string :=
  if falsy name then ("", "")
  else
    let name_clean := clean_string name in
    if String.eqb name_clean "" then ("", "")
    else
      let comma_parts :=
        if PyStr.has_char ","%char name_clean
        then map PyStr.strip (PyStr.split_on ","%char name_clean)
        else [] in
      match comma_parts with
      | p0 :: p1 :: _ => (PyStr.title p1, PyStr.title p0)
      | _ =>
          match PyStr.split_ws name_clean with
          | [p0] => ("", PyStr.title p0)
          | [p0; p1] => (PyStr.title p0, PyStr.title p1)
          | p0 :: p1 :: p2 :: rest =>
              (PyStr.title p0, PyStr.title (PyStr.join " " (p1 :: p2 :: rest)))
          | [] => ("", PyStr.title name_clean)
          end
      end.

(** [split_name] returns the dictionary
    [{"first_name": .., "last_name": ..}]; the pair is (first, last). *)
Definition first_name (r : string * string) : string := r.1.
Definition last_name (r : string * string) : string := r.2.

(** *** Classification numbers *)

(** [re.split(r'[,;\s]+', s)]: the pieces between the runs of separators,
    an empty piece at either end when the string starts or ends with one. *)
Fixpoint split_runs_aux (is_sep : ascii -> bool) (cur : string)
  (in_run : bool) (s : string) : list string :=
  match s with
  | EmptyString => [cur]
  | String c s' =>
      if is_sep c
      then (if in_run then split_runs_aux is_sep "" true s'
            else cur :: split_runs_aux is_sep "" true s')
      else split_runs_aux is_sep (cur ++ String c "") false s'
  end.

Definition split_runs (is_sep : ascii -> bool) (s : string) : list string :=
  split_runs_aux is_sep "" false s.

Definition class_sep (c : ascii) : bool :=
  Ascii.eqb c ","%char || Ascii.eqb c ";"%char || PyStr.is_space c.

(** [sorted(list(set(l)))] *)
Fixpoint insert_sorted (x : Z) (l : list Z) : list Z :=
  match l with
  | [] => [x]
  | y :: l' =>
      if (x <? y)%Z then x :: l
      else if (x =? y)%Z then l
      else y :: insert_sorted x l'
  end.

Definition sorted_set (l : list Z) : list Z := foldr insert_sorted [] l.

Definition nice_class (num : Z) : bool := ((1 <=? num) && (num <=? 45))%Z.

Definition parse_classes (value : cell) : list Z :=
  if isna value || falsy value then []
  else
    let classes_str := clean_string value in
    if String.eqb classes_str "" then []
    else
      let parts := split_runs class_sep classes_str in
      let numbers :=
        flat_map
          (fun part =>
             let part := PyStr.strip part in
             if PyStr.isdigit part
             then filter (fun n => nice_class n = true) [PyStr.int_of_digits part]
             else filter (fun n => nice_class n = true)
                         (map PyStr.int_of_digits (PyStr.digit_runs part)))
          parts in
      sorted_set numbers.

(** *** Status *)

Definition normalize_status (status : cell) (entity_type : string) : string :=
  if falsy status then "pending"
  else
    let status_clean := PyStr.lower (clean_string status) in
    if String.eqb status_clean "" then "pending"
    else
      let mappings := default [] (assoc entity_type STATUS_MAPPINGS) in
      match find (fun nv => mem_str status_clean (map PyStr.lower nv.2))
                 mappings with
      | Some nv => nv.1
      | None =>
          match find (fun nv =>
                        existsb (fun variant =>
                                   PyStr.contains (PyStr.lower variant) status_clean
                                   || PyStr.contains status_clean (PyStr.lower variant))
                                nv.2)
                     mappings with
          | Some nv => nv.1
          | None => "pending"
          end
      end.

(** *** E-mail *)

Definition email_local_char (c : ascii) : bool :=
  PyStr.is_alpha c || PyStr.is_digit c
  || existsb (Ascii.eqb c) ["."; "_"; "%"; "+"; "-"]%char.

Definition email_domain_char (c : ascii) : bool :=
  PyStr.is_alpha c || PyStr.is_digit c
  || existsb (Ascii.eqb c) ["."; "-"]%char.

(** [^[a-zA-Z0-9._%+-]+@[a-zA-Z0-9.-]+\.[a-zA-Z]{2,}$]; the string it is
    matched against is stripped, so [$] is the end of the string. *)
Definition email_pattern : Regex.re :=
  Regex.Cat (Regex.plus (Regex.Cls email_local_char))
    (Regex.Cat (Regex.chr "@")
       (Regex.Cat (Regex.plus (Regex.Cls email_domain_char))
          (Regex.Cat (Regex.chr ".")
             (Regex.at_least_two (Regex.Cls PyStr.is_alpha))))).

Definition parse_email (email : cell) : string :=
  if falsy email then ""
  else
    let email_clean := PyStr.lower (clean_string email) in
    if String.eqb email_clean "" then ""
    else if Regex.full_match email_pattern email_clean then email_clean
    else
      if PyStr.contains "_at_" email_clean
      then
        let email_clean := PyStr.replace "_at_" "@" email_clean in
        if Regex.full_match email_pattern email_clean then email_clean else ""
      else "".

(** *** Quality score *)

(** [round(x, 2)] on an exact score. *)
Definition round_half_even (q : Q) : Z :=
  let n := Qnum q in
  let d := Zpos (Qden q) in
  let f := (n / d)%Z in
  let r := (n mod d)%Z in
  if (2 * r <? d)%Z then f
  else if (d <? 2 * r)%Z then (f + 1)%Z
  else if Z.even f then f else (f + 1)%Z.

Definition round2 (q : Q) : Q := (round_half_even (q * 100) # 100)%Q.

(** [max(0, q)] *)
Definition max0 (q : Q) : Q := if Qle_bool 0 q then q else 0%Q.

Definition count_true (l : list bool) : Z := Z.of_nat (length (filter (fun b => b = true) l)).

(** [series.duplicated()]: true at every value met before (two NaN are
    the same value for pandas here). *)
Fixpoint duplicated_from {A} `{EqDecision A} (seen : list A) (l : list A)
  : list bool :=
  match l with
  | [] => []
  | x :: l' => bool_decide (x ∈ seen) :: duplicated_from (x :: seen) l'
  end.

Definition duplicated {A} `{EqDecision A} (l : list A) : list bool :=
  duplicated_from [] l.

(** [series.isna().sum() + (series == "").sum()] *)
Definition count_missing (s : list cell) : Z :=
  (count_true (map isna s)
   + count_true (map (fun v => bool_decide (v = Str "")) s))%Z.

Record quality_metrics : Type := mkMetrics {
  total_rows : Z;
  complete_records : Z;
  missing_critical_fields : Z;
  invalid_dates : Z;
  invalid_emails : Z;
  duplicate_records : Z;
  quality_score : Q;
  issues : list string
}.

(** The fields a record of the entity must have, and its date fields. *)
Definition critical_fields (entity_type : string) : list string :=
  if String.eqb entity_type "clients" then ["client_name"; "email"]
  else if mem_str entity_type ["patents"; "trademarks"; "copyrights"]
  then ["title"; "client_id"; "status"]
  else [].

Definition date_fields (entity_type : string) : list string :=
  if mem_str entity_type ["patents"; "trademarks"; "copyrights"]
  then ["filing_date"; "grant_date"; "registration_date"]
  else [].

(** The loop over the critical fields: the running count and the issues. *)
Definition check_critical_fields (df : Frame cell) (fields : list string)
  : Z * list string :=
  fold_left
    (fun acc field =>
       match column df field with
       | Some s =>
           let missing := count_missing s in
           if (0 <? missing)%Z
           then ((acc.1 + missing)%Z,
                 (acc.2 ++ [PyStr.str_of_Z missing +:+ " records missing " +:+ field])%list)
           else acc
       | None => acc
       end)
    fields (0%Z, []).

Section Quality.
Context `{DateParser}.

(** The loop over the date fields. *)
Definition check_date_fields (df : Frame cell) (fields : list string)
  : Z * list string :=
  fold_left
    (fun acc field =>
       match column df field with
       | Some s =>
           let invalid :=
             count_true
               (map (fun x => if falsy x then false
                              else match to_date x with
                                   | None => true
                                   | Some _ => false
                                   end) s) in
           ((acc.1 + invalid)%Z,
            if (0 <? invalid)%Z
            then (acc.2 ++ [PyStr.str_of_Z invalid +:+ " invalid " +:+ field
                            +:+ " values"])%list
            else acc.2)
       | None => acc
       end)
    fields (0%Z, []).

(** On a frame without rows the source returns only [total_rows],
    [quality_score] and [issues]; the other counts of the record are 0
    then. *)
Definition validate_data_quality (df : Frame cell) (entity_type : string)
  : quality_metrics :=
  let rows := Z.of_nat (nrows df) in
  if (rows =? 0)%Z then mkMetrics 0 0 0 0 0 0 0 []
  else
    (* duplicates *)
    let duplicates :=
      match column df "external_ref" with
      | Some s => count_true (duplicated s)
      | None => 0%Z
      end in
    let issues0 :=
      if (0 <? duplicates)%Z
      then [PyStr.str_of_Z duplicates ++ " duplicate external references found"]
      else [] in
    (* entity-specific validation *)
    let '(missing, invalid_d, invalid_e, issues1) :=
      if String.eqb entity_type "clients" then
        let crit := check_critical_fields df ["client_name"; "email"] in
        let '(inv_e, iss_e) :=
          match column df "email" with
          | Some s =>
              let valid_emails :=
                count_true
                  (map (fun x => if falsy x then false
                                 else negb (String.eqb (parse_email x) "")) s) in
              let invalid_emails := (rows - valid_emails)%Z in
              (invalid_emails,
               if (0 <? invalid_emails)%Z
               then [PyStr.str_of_Z invalid_emails ++ " invalid email addresses"]
               else [])
          | None => (0%Z, [])
          end in
        (crit.1, 0%Z, inv_e, (crit.2 ++ iss_e)%list)
      else if mem_str entity_type ["patents"; "trademarks"; "copyrights"] then
        let crit := check_critical_fields df ["title"; "client_id"; "status"] in
        let dts := check_date_fields df
                     ["filing_date"; "grant_date"; "registration_date"] in
        (crit.1, dts.1, 0%Z, (crit.2 ++ dts.2)%list)
      else (0%Z, 0%Z, 0%Z, []) in
    (* quality score *)
    let total_issues := (missing + invalid_d + invalid_e + duplicates)%Z in
    let score := max0 (100 - (inject_Z total_issues / inject_Z rows * 100))%Q in
    mkMetrics rows 0 missing invalid_d invalid_e duplicates
              (round2 score) (issues0 ++ issues1)%list.

End Quality.

(** *** Priority, phone numbers and inventors *)

Definition PRIORITY_MAP : list (string * list string) :=
  [ ("low", ["low"; "minor"; "routine"]);
    ("medium", ["medium"; "normal"; "standard"; "moderate"]);
    ("high", ["high"; "important"; "urgent"]);
    ("critical", ["critical"; "emergency"; "immediate"; "asap"]) ].

Definition normalize_priority (priority : cell) : string :=
  if falsy priority then "medium"
  else
    let priority_clean := PyStr.lower (clean_string priority) in
    if String.eqb priority_clean "" then "medium"
    else
      match find (fun nv => mem_str priority_clean nv.2) PRIORITY_MAP with
      | Some nv => nv.1
      | None => "medium"
      end.

(** [s[:n]] for a string. *)
Fixpoint take_chars (n : nat) (s : string) : string :=
  match n, s with
  | S n', String c s' => String c (take_chars n' s')
  | _, _ => EmptyString
  end.

(** [re.sub(r'[^\d]', '', s)] *)
Fixpoint keep_digits (s : string) : string :=
  match s with
  | EmptyString => EmptyString
  | String c s' =>
      if PyStr.is_digit c then String c (keep_digits s') else keep_digits s'
  end.

Definition bad_phones : list string :=
  ["000-000-0000"; "0000000000"; "n/a"; "unknown"].

Definition parse_phone (phone : cell) : string :=
  if falsy phone then ""
  else
    let phone_clean := clean_string phone in
    if String.eqb phone_clean "" then ""
    else if mem_str (PyStr.lower phone_clean) bad_phones then ""
    else
      let digits := keep_digits phone_clean in
      if (String.length digits =? 10)%nat
      then "(" ++ take_chars 3 digits ++ ") "
           ++ take_chars 3 (PyStr.drop_chars 3 digits) ++ "-"
           ++ PyStr.drop_chars 6 digits
      else if (String.length digits =? 11)%nat
              && PyStr.starts_with "1" digits
      then "+1 (" ++ take_chars 3 (PyStr.drop_chars 1 digits) ++ ") "
           ++ take_chars 3 (PyStr.drop_chars 4 digits) ++ "-"
           ++ PyStr.drop_chars 7 digits
      else if (10 <=? String.length digits)%nat
      then "+" ++ digits
      else phone_clean.

(** [re.split(r'[;|]', s)]: every separator splits, empty pieces kept. *)
Fixpoint split_any (is_sep : ascii -> bool) (s : string) : list string :=
  match s with
  | EmptyString => [EmptyString]
  | String c s' =>
      if is_sep c then EmptyString :: split_any is_sep s'
      else match split_any is_sep s' with
           | [] => [String c EmptyString]
           | p :: ps => String c p :: ps
           end
  end.

Definition inventor_sep (c : ascii) : bool :=
  Ascii.eqb c ";"%char || Ascii.eqb c "|"%char.

Definition parse_inventors (inventors_str : cell) : list (string * string) :=
  if falsy inventors_str then []
  else
    let inventors_clean := clean_string inventors_str in
    if String.eqb inventors_clean "" then []
    else
      flat_map
        (fun part =>
           let part := PyStr.strip part in
           if String.eqb part "" then []
           else
             let name_parts := split_name (Str part) in
             if negb (String.eqb (first_name name_parts) "")
                || negb (String.eqb (last_name name_parts) "")
             then [name_parts] else [])
        (split_any inventor_sep inventors_clean).

(** [split_name_legacy]: the full name as one string. *)
Definition split_name_legacy (name : cell) : string :=
  let name_parts := split_name name in
  if negb (String.eqb (first_name name_parts) "")
     && negb (String.eqb (last_name name_parts) "")
  then first_name name_parts ++ " " ++ last_name name_parts
  else if negb (String.eqb (last_name name_parts) "")
  then last_name name_parts
  else first_name name_parts.

(** *** Expiry dates *)

(** [calendar.isleap] *)
Definition is_leap (y : Z) : bool :=
  ((y mod 4 =? 0) && (negb (y mod 100 =? 0) || (y mod 400 =? 0)))%Z.

Definition days_in_month (y m : Z) : Z :=
  if (m =? 2)%Z then (if is_leap y then 29 else 28)%Z
  else if ((m =? 4) || (m =? 6) || (m =? 9) || (m =? 11))%Z then 30%Z
  else 31%Z.

(** The dates a [datetime] can hold. *)
Definition real_dateb (d : datetime) : bool :=
  ((1 <=? year d) && (year d <=? 9999) && (1 <=? month d) && (month d <=? 12)
   && (1 <=? day d) && (day d <=? days_in_month (year d) (month d)))%Z.

(** [dt.replace(year=y)]: [ValueError] where the day does not exist in
    year [y]. *)
Definition replace_year (d : datetime) (y : Z) : option datetime :=
  let d' := mkDate y (month d) (day d) in
  if real_dateb d' then Some d' else None.

(** [datetime.fromisoformat], which reads a date (the time of day is
    dropped again by [.date()]) or raises [ValueError]. *)
Class IsoParser : Type := {
  fromisoformat : string -> option datetime;
  fromisoformat_real :
    forall s d, fromisoformat s = Some d -> real_dateb d = true
}.

(** The outer [None] is the [ValueError] that escapes from [replace];
    [Some None] is the returned [None]. *)
Definition calculate_expiry_date `{IsoParser}
  (filing_date jurisdiction ip_type : string) : option (option string) :=
  if String.eqb filing_date "" then Some None
  else
    match fromisoformat filing_date with
    | None => Some None
    | Some filing_dt =>
        let expiry_dt : option (option datetime) :=
          if String.eqb ip_type "patent" then
            if mem_str jurisdiction ["US"; "EP"; "GB"; "DE"; "JP"]
            then Some <$> replace_year filing_dt (year filing_dt + 20)
            else Some <$> replace_year filing_dt (year filing_dt + 20)
          else if String.eqb ip_type "trademark" then
            if String.eqb jurisdiction "US"
            then Some <$> replace_year filing_dt (year filing_dt + 10)
            else if mem_str jurisdiction ["EP"; "GB"; "DE"]
            then Some <$> replace_year filing_dt (year filing_dt + 10)
            else Some <$> replace_year filing_dt (year filing_dt + 10)
          else if String.eqb ip_type "copyright" then
            Some <$> replace_year filing_dt (year filing_dt + 95)
          else Some None in
        match expiry_dt with
        | None => None
        | Some None => Some None
        | Some (Some expiry_dt) => Some (Some (isoformat expiry_dt))
        end
    end.

(** ** [etl/validate.py] *)

Record finding : Type := mkFinding {
  rule : string;
  record_id : cell;
  message : string
}.

Record business_validation : Type := mkBusiness {
  b_errors : list finding;
  b_warnings : list finding;
  rules_checked : nat
}.

Record referential_validation : Type := mkReferential {
  r_errors : list finding;
  r_warnings : list finding;
  references_checked : nat
}.

(** The dictionary [validate_file] returns: the error entry has no
    [overall_score] key, the success entry has no [quality_score] key. *)
Inductive validation_result : Type :=
| ResultError (entity_type file_path error : string) (quality_score : Q)
| ResultSuccess (entity_type file_path : string) (record_count : nat)
    (metrics : quality_metrics) (business : business_validation)
    (referential : referential_validation) (overall_score : Q).

Definition status (r : validation_result) : string :=
  match r with
  | ResultError _ _ _ _ => "error"
  | ResultSuccess _ _ _ _ _ _ _ => "success"
  end.

(** [result.get('overall_score')] *)
Definition get_overall_score (r : validation_result) : option Q :=
  match r with
  | ResultError _ _ _ _ => None
  | ResultSuccess _ _ _ _ _ _ s => Some s
  end.

(** [result.get('quality_score')] *)
Definition get_quality_score (r : validation_result) : option Q :=
  match r with
  | ResultError _ _ _ q => Some q
  | ResultSuccess _ _ _ _ _ _ _ => None
  end.

(** What [DATA_DIR / name] holds: nothing, a file [pd.read_csv] raises
    on, or a table. *)
Inductive csv_file : Type :=
| Unreadable
| Csv (df : Frame cell).

(** [a < b] on strings. *)
Definition str_lt (a b : string) : bool :=
  match String.compare a b with Lt => true | _ => false end.

(** [series.str]: pandas raises [AttributeError] unless the series holds
    strings (or is empty); under [.str] a value that is not a string
    becomes NaN. *)
Definition str_accessor (s : list cell) : option (list cell) :=
  if bool_decide (s = []) || existsb (fun v => match v with Str _ => true | _ => false end) s
  then Some s else None.

Definition str_lower (v : cell) : cell :=
  match v with Str s => Str (PyStr.lower s) | _ => NaN end.

Definition str_strip (v : cell) : cell :=
  match v with Str s => Str (PyStr.strip s) | _ => NaN end.

(** [row.get(c, idx)] *)
Definition row_id (row : list (string * cell)) (c : string) (idx : nat) : cell :=
  default (Int (Z.of_nat idx)) (assoc c row).

Section Validator.
Context `{DateParser}.
(** [date.today().isoformat()] *)
Variable today : string.
(** The files under [DATA_DIR]. *)
Variable files : gmap string csv_file.

(** [to_date(row.get(c))]: an absent key gives [None], which is NA. *)
Definition row_date (row : list (string * cell)) (c : string) : option string :=
  match assoc c row with
  | Some v => to_date v
  | None => None
  end.

Definition _validate_client_business_rules (df : Frame cell) : list finding :=
  flat_map
    (fun '(idx, row) =>
       let email := default (Str "") (assoc "email" row) in
       if negb (falsy email) && String.eqb (parse_email email) ""
       then [mkFinding "Email format validation" (row_id row "client_id" idx)
               ("Invalid email format: " ++ py_str email)]
       else [])
    (iterrows df).

Definition _validate_patent_business_rules (df : Frame cell) : list finding :=
  flat_map
    (fun '(idx, row) =>
       match row_date row "filing_date", row_date row "grant_date" with
       | Some filing_date, Some grant_date =>
           if negb (String.eqb filing_date "") && negb (String.eqb grant_date "")
              && str_lt grant_date filing_date
           then [mkFinding "Filing date before grant date"
                   (row_id row "patent_id" idx)
                   ("Filing date (" ++ filing_date ++ ") is after grant date ("
                    ++ grant_date ++ ")")]
           else []
       | _, _ => []
       end)
    (iterrows df).

Definition _validate_trademark_business_rules (df : Frame cell) : list finding :=
  flat_map
    (fun '(idx, row) =>
       let nice_classes := default (Str "") (assoc "nice_classes" row) in
       if negb (falsy nice_classes)
       then match parse_classes nice_classes with
            | [] => [mkFinding "Valid Nice classes required"
                       (row_id row "tm_id" idx)
                       ("Invalid Nice classes: " ++ py_str nice_classes)]
            | _ => []
            end
       else [])
    (iterrows df).

Definition _validate_deadline_business_rules (df : Frame cell)
  : option (list finding) :=
  let current_date := today in
  st ← column df "status";
  st ← str_accessor st;
  let pending_deadlines :=
    filter (fun '(idx, _) =>
              nth idx (map str_lower st) NaN = Str "pending")
           (iterrows df) in
  Some (flat_map
          (fun '(idx, row) =>
             match row_date row "due_date" with
             | Some due_date =>
                 if negb (String.eqb due_date "") && str_lt due_date current_date
                 then [mkFinding "Pending deadline due date validation"
                         (row_id row "deadline_id" idx)
                         ("Pending deadline has past due date: " ++ due_date)]
                 else []
             | None => []
             end)
          pending_deadlines).

Definition _validate_business_rules (df : Frame cell) (entity_type : string)
  : option business_validation :=
  errors ←
    (if String.eqb entity_type "clients"
     then Some (_validate_client_business_rules df)
     else if String.eqb entity_type "patents"
     then Some (_validate_patent_business_rules df)
     else if String.eqb entity_type "trademarks"
     then Some (_validate_trademark_business_rules df)
     else if String.eqb entity_type "deadlines"
     then _validate_deadline_business_rules df
     else Some []);
  Some (mkBusiness errors [] (length errors + 0)).

(** [entity_type[:-1]] *)
Fixpoint drop_last (s : string) : string :=
  match s with
  | EmptyString => EmptyString
  | String c EmptyString => EmptyString
  | String c s' => String c (drop_last s')
  end.

Definition _validate_referential_integrity (df : Frame cell)
  (entity_type : string) : option referential_validation :=
  errors ←
    match files !! "clients.csv" with
    | Some f =>
        clients_df ← (match f with Csv d => Some d | Unreadable => None end);
        ids ← column clients_df "client_id";
        let valid_client_ids := map py_str ids in
        match column df "client_id" with
        | Some refs =>
            Some (flat_map
                    (fun '(idx, row) =>
                       match nth idx refs NaN with
                       | Str s =>
                           if mem_str s valid_client_ids then []
                           else [mkFinding "Valid client reference"
                                   (row_id row (drop_last entity_type ++ "_id") idx)
                                   ("Invalid client_id reference: " ++ s)]
                       | v => [mkFinding "Valid client reference"
                                 (row_id row (drop_last entity_type ++ "_id") idx)
                                 ("Invalid client_id reference: " ++ py_str v)]
                       end)
                    (iterrows df))
        | None => Some []
        end
    | None => Some []
    end;
  Some (mkReferential errors []
          (if has_column df "client_id" then nrows df else 0)).

Definition _calculate_overall_score (metrics : quality_metrics)
  (business : business_validation) : Q :=
  let business_errors := Z.of_nat (length (b_errors business)) in
  let business_score :=
    if (0 <? business_errors)%Z
    then max0 (100 - inject_Z business_errors * 5)%Q
    else 100%Q in
  round2 (quality_score metrics * (7 # 10) + business_score * (3 # 10))%Q.

Definition validate_file (file_path : string) (entity_type : string)
  : validation_result :=
  match files !! file_path with
  | None =>
      ResultError entity_type file_path ("File not found: " ++ file_path) 0
  | Some f =>
      let attempt :=
        df ← (match f with Csv d => Some d | Unreadable => None end);
        let metrics := validate_data_quality df entity_type in
        business ← _validate_business_rules df entity_type;
        referential ← _validate_referential_integrity df entity_type;
        Some (ResultSuccess entity_type file_path (nrows df) metrics business
                referential (_calculate_overall_score metrics business)) in
      match attempt with
      | Some r => r
      | None =>
          ResultError entity_type file_path ("Error validating " ++ entity_type) 0
      end
  end.

Definition files_to_validate : list (string * string) :=
  [ ("clients.csv", "clients"); ("patents.csv", "patents");
    ("trademarks.csv", "trademarks"); ("deadlines.csv", "deadlines") ].

Record validation_summary : Type := mkSummary {
  system_quality_score : Q;
  entities_validated : nat;
  results : list (string * validation_result)
}.

Definition Qsum (l : list Q) : Q := fold_left Qplus l 0%Q.

(** The loop of [validate_all]: the results by entity type and the
    scores kept for the mean. *)
Definition validate_loop : list (string * validation_result) * list Q :=
  fold_left
    (fun acc '(filename, entity_type) =>
       let result := validate_file filename entity_type in
       ((acc.1 ++ [(entity_type, result)])%list,
        match get_overall_score result with
        | Some s => if Qeq_bool s 0 then acc.2 else (acc.2 ++ [s])%list
        | None => acc.2
        end))
    files_to_validate ([], []).

Definition validate_all : validation_summary :=
  let '(results, overall_scores) := validate_loop in
  let system_score :=
    match overall_scores with
    | [] => 0%Q
    | _ => (Qsum overall_scores / inject_Z (Z.of_nat (length overall_scores)))%Q
    end in
  mkSummary (round2 system_score) (length results) results.

End Validator.

(** ** [etl/migrate.py] *)

#[global] Instance out_cell_eq_dec : EqDecision out_cell.
Proof. solve_decision. Defined.

(** [series.astype(str).str.strip()] *)
Definition astype_str_strip (s : list cell) : list string :=
  map (fun v => PyStr.strip (py_str v)) s.

Definition text (s : string) : out_cell := Raw (Str s).

(** [df.get(c, "")] assigned to a column: the series, or the scalar [""]
    broadcast over the [n] rows of the target. *)
Definition get_or_blank (df : Frame cell) (c : string) (n : nat) : list out_cell :=
  match column df c with
  | Some s => map Raw s
  | None => repeat (text "") n
  end.

(** Keeping the entries of a series where the mask is true. *)
Fixpoint keep_where {A} (mask : list bool) (l : list A) : list A :=
  match mask, l with
  | b :: mask', x :: l' => if b then x :: keep_where mask' l' else keep_where mask' l'
  | _, _ => []
  end.

(** [out.drop_duplicates(subset=[c])]: the first row of every value of
    [c] is kept ([keep='first'] is the pandas default). *)
Definition drop_duplicates (out : Frame out_cell) (c : string)
  : option (Frame out_cell) :=
  keys ← column out c;
  let mask := map negb (duplicated keys) in
  Some (mkFrame (length (keep_where mask keys))
          (map (fun kv => (kv.1, keep_where mask kv.2)) (cols out))).

(** [series.map(d)] with a dictionary: NaN where the key is absent. *)
Definition map_dict (d : gmap string Z) (s : string) : out_cell :=
  match d !! s with Some i => Raw (Int i) | None => Raw NaN end.

(** [d.get(k)] *)
Definition dict_get (d : gmap string Z) (s : string) : out_cell :=
  match d !! s with Some i => Raw (Int i) | None => PyNone end.

Definition empty_frame : Frame out_cell := mkFrame 0 [].

Section Transform.
Context `{DateParser}.
(** [MAP["jurisdiction_map"]], read from [schema/mappings.json]. *)
Variable jurisdiction_map : gmap string string.

Definition transform_clients (df : Frame cell) : option (Frame out_cell) :=
  ids ← column df "client_id";
  let out := set_column empty_frame "external_ref" (map text (astype_str_strip ids)) in
  names ← column df "client_name";
  let out := set_column out "name"
               (map (fun v => let r := split_name v in
                              NameDict (first_name r) (last_name r)) names) in
  let out := set_column out "email" (get_or_blank df "email" (nrows out)) in
  let out := set_column out "phone" (get_or_blank df "phone" (nrows out)) in
  let out := set_column out "address" (get_or_blank df "address" (nrows out)) in
  country ← column df "country";
  let out := set_column out "country_code" (map (fun v => of_opt_str (iso2 v)) country) in
  created ← column df "created_on";
  let out := set_column out "created_on" (map (fun v => of_opt_str (to_date v)) created) in
  drop_duplicates out "external_ref".

Definition transform_patents (df : Frame cell) (client_map : gmap string Z)
  : option (Frame out_cell) :=
  ids ← column df "patent_id";
  let out := set_column empty_frame "external_ref" (map text (astype_str_strip ids)) in
  clients ← column df "client_id";
  let client_ext := astype_str_strip clients in
  let out := set_column out "client_ext" (map text client_ext) in
  let out := set_column out "client_id" (map (map_dict client_map) client_ext) in
  titles ← column df "title";
  let out := set_column out "title"
               (map (fun v => if isna v then text "Untitled" else Raw v) titles) in
  filing ← column df "filing_date";
  let out := set_column out "filing_date" (map (fun v => of_opt_str (to_date v)) filing) in
  grant ← column df "grant_date";
  let out := set_column out "grant_date" (map (fun v => of_opt_str (to_date v)) grant) in
  jur ← column df "jurisdiction";
  let out := set_column out "jurisdiction"
               (map (fun x => of_opt_str (jurisdiction_map !! py_str x)) jur) in
  let out := set_column out "status" (get_or_blank df "status" (nrows out)) in
  Some (drop_column out "client_ext").

Definition transform_trademarks (df : Frame cell) (client_map : gmap string Z)
  : option (Frame out_cell) :=
  ids ← column df "tm_id";
  let out := set_column empty_frame "external_ref" (map text (astype_str_strip ids)) in
  clients ← column df "client_id";
  let client_ext := astype_str_strip clients in
  let out := set_column out "client_ext" (map text client_ext) in
  let out := set_column out "client_id" (map (map_dict client_map) client_ext) in
  marks ← column df "mark_text";
  let out := set_column out "mark_text"
               (map (fun v => if isna v then text "" else Raw v) marks) in
  classes ← column df "class";
  let out := set_column out "nice_classes"
               (map (fun v => Classes (parse_classes v)) classes) in
  filing ← column df "filing_date";
  let out := set_column out "filing_date" (map (fun v => of_opt_str (to_date v)) filing) in
  let out := set_column out "status" (get_or_blank df "status" (nrows out)) in
  Some (drop_column out "client_ext").

(** [resolve_id] reads both of its keys from the row of the legacy frame
    [df] it is applied to. On a frame without rows [df.apply] hands back
    a frame, not a series, and the assignment raises. *)
Definition resolve_id (patent_map tm_map : gmap string Z)
  (row : list (string * cell)) : option out_cell :=
  related_id ← assoc "related_id" row;
  let rid := PyStr.strip (py_str related_id) in
  related_table ← assoc "related_table" row;
  if bool_decide (related_table = Str "patents")
  then Some (dict_get patent_map rid)
  else Some (dict_get tm_map rid).

Definition transform_deadlines (df : Frame cell) (patent_map tm_map : gmap string Z)
  : option (Frame out_cell) :=
  ids ← column df "dl_id";
  let out := set_column empty_frame "external_ref" (map text (astype_str_strip ids)) in
  types ← column df "related_type";
  types ← str_accessor types;
  let related_type := map str_lower types in
  let out := set_column out "related_type" (map Raw related_type) in
  let out := set_column out "related_table"
               (map (fun x => if bool_decide (x = Str "patent")
                              then text "patents" else text "trademarks")
                    related_type) in
  resolved ←
    (if Nat.eqb (nrows df) 0 then None
     else mapM (fun ir => resolve_id patent_map tm_map ir.2) (iterrows df));
  let out := set_column out "related_id" resolved in
  due ← column df "due_date";
  let out := set_column out "due_date" (map (fun v => of_opt_str (to_date v)) due) in
  let out := set_column out "description" (get_or_blank df "description" (nrows out)) in
  Some (drop_column out "related_type").

End Transform.

(** *** The target store *)

(** A stored row or a record of [df.to_dict(orient="records")]. *)
Abbreviation record := (gmap string out_cell).

(** A table with a unique text column: its rows by the value of that
    column, and the sequence behind the surrogate [id]. *)
Record table : Type := mkTable {
  t_rows : gmap string record;
  t_serial : Z
}.

Definition empty_table : table := mkTable ∅ 0.

Record row_count : Type := mkRowCount {
  rc_run_id : Z;
  rc_table_name : string;
  rc_inserted : Z;
  rc_updated : Z
}.

Record migration_run : Type := mkRun {
  mr_id : Z;
  mr_status : string;
  mr_notes : string
}.

(** The connection: the entity tables by name and the two audit tables. *)
Record db : Type := mkDb {
  tables : gmap string table;
  migration_runs : list migration_run;
  migration_row_counts : list row_count
}.

Definition get_table (conn : db) (name : string) : table :=
  default empty_table (tables conn !! name).

(** [df.to_dict(orient="records")] *)
Definition to_records (df : Frame out_cell) : list record :=
  map (fun i => list_to_map (map (fun kv => (kv.1, nth i kv.2 PyNone)) (cols df)))
      (seq 0 (nrows df)).

(** One execution of
    [INSERT INTO t (..) VALUES (..) ON CONFLICT (unique_col) DO UPDATE
     SET c = EXCLUDED.c, ..]: a new key is inserted with the next [id], a
    known key has its [update_cols] overwritten. The key of every
    transformed frame is text; another key fails the statement. *)
Definition upsert_record (unique_col : string) (update_cols : list string)
  (t : table) (r : record) : option table :=
  match r !! unique_col with
  | Some (Raw (Str k)) =>
      let serial := (t_serial t + 1)%Z in
      match t_rows t !! k with
      | Some old =>
          let new :=
            foldr (fun c row => <[c := default PyNone (r !! c)]> row) old update_cols in
          Some (mkTable (<[k := new]> (t_rows t)) serial)
      | None =>
          Some (mkTable (<[k := <["id" := Raw (Int serial)]> r]> (t_rows t)) serial)
      end
  | _ => None
  end.

(** [conn.execute(stmt, records)] *)
Fixpoint execute_upsert (unique_col : string) (update_cols : list string)
  (t : table) (rs : list record) : option table :=
  match rs with
  | [] => Some t
  | r :: rs' =>
      t' ← upsert_record unique_col update_cols t r;
      execute_upsert unique_col update_cols t' rs'
  end.

Definition upsert_dataframe (conn : db) (df : Frame out_cell) (tbl : string)
  (unique_col : string) (update_cols : list string) : option (db * (Z * Z)) :=
  let inserted := 0%Z in
  let updated := 0%Z in
  if frame_empty df then Some (conn, (inserted, updated))
  else
    t' ← execute_upsert unique_col update_cols (get_table conn tbl) (to_records df);
    let inserted := Z.of_nat (nrows df) in
    Some (mkDb (<[tbl := t']> (tables conn)) (migration_runs conn)
               (migration_row_counts conn),
          (inserted, updated)).

(** [INSERT INTO migration_row_counts(run_id, table_name, inserted, updated)] *)
Definition log_row_count (conn : db) (r : Z) (tbl : string) (iu : Z * Z) : db :=
  mkDb (tables conn) (migration_runs conn)
       (migration_row_counts conn ++ [mkRowCount r tbl iu.1 iu.2])%list.

(** [SELECT id, external_ref FROM t] as the dictionary [{ext: id}]. *)
Definition select_ids (conn : db) (tbl : string) : gmap string Z :=
  omap (fun row => match row !! "id" with
                   | Some (Raw (Int i)) => Some i
                   | _ => None
                   end)
       (t_rows (get_table conn tbl)).

(** [{ext: i+1 for i, ext in enumerate(l)}] *)
Definition enumerate_map (l : list out_cell) : gmap string Z :=
  fold_left (fun m ie => match ie.2 with
                         | Raw (Str ext) => <[ext := (Z.of_nat ie.1 + 1)%Z]> m
                         | _ => m
                         end)
            (imap (fun i x => (i, x)) l) ∅.

Definition read_csv (files : gmap string csv_file) (name : string)
  : option (Frame cell) :=
  f ← files !! name;
  match f with Csv d => Some d | Unreadable => None end.

Section Main.
Context `{DateParser}.
Variable jurisdiction_map : gmap string string.
(** The files under [LEGACY]. *)
Variable files : gmap string csv_file.

(** [main()] without [TARGET_DB_URL]: the four transformed frames that
    are written to [TRANSFORMED]. *)
Definition main_dry_run
  : option (Frame out_cell * Frame out_cell * Frame out_cell * Frame out_cell) :=
  clients ← read_csv files "clients.csv";
  patents ← read_csv files "patents.csv";
  tms ← read_csv files "trademarks.csv";
  dls ← read_csv files "deadlines.csv";
  tf_clients ← transform_clients clients;
  let client_map := enumerate_map (default [] (column tf_clients "external_ref")) in
  tf_patents ← transform_patents jurisdiction_map patents client_map;
  tf_tms ← transform_trademarks tms client_map;
  let patent_map := enumerate_map (default [] (column tf_patents "external_ref")) in
  let tm_map := enumerate_map (default [] (column tf_tms "external_ref")) in
  tf_deadlines ← transform_deadlines dls patent_map tm_map;
  Some (tf_clients, tf_patents, tf_tms, tf_deadlines).

(** [main()] with [TARGET_DB_URL], on a store whose schema exists. *)
Definition main_load (conn : db) : option db :=
  clients ← read_csv files "clients.csv";
  patents ← read_csv files "patents.csv";
  tms ← read_csv files "trademarks.csv";
  dls ← read_csv files "deadlines.csv";
  tf_clients ← transform_clients clients;
  let run_id := (Z.of_nat (length (migration_runs conn)) + 1)%Z in
  let conn := mkDb (tables conn)
                   (migration_runs conn ++ [mkRun run_id "running" "ETL start"])%list
                   (migration_row_counts conn) in
  '(conn, iu) ← upsert_dataframe conn tf_clients "clients" "external_ref"
                  ["name"; "email"; "phone"; "address"; "country_code"; "created_on"];
  let conn := log_row_count conn run_id "clients" iu in
  let client_map := select_ids conn "clients" in
  tf_patents ← transform_patents jurisdiction_map patents client_map;
  tf_tms ← transform_trademarks tms client_map;
  '(conn, iu) ← upsert_dataframe conn tf_patents "patents" "external_ref"
                  ["client_id"; "title"; "filing_date"; "grant_date";
                   "jurisdiction"; "status"];
  let conn := log_row_count conn run_id "patents" iu in
  '(conn, iu) ← upsert_dataframe conn tf_tms "trademarks" "external_ref"
                  ["client_id"; "mark_text"; "nice_classes"; "filing_date"; "status"];
  let conn := log_row_count conn run_id "trademarks" iu in
  let patent_map := select_ids conn "patents" in
  let tm_map := select_ids conn "trademarks" in
  tf_deadlines ← transform_deadlines dls patent_map tm_map;
  '(conn, iu) ← upsert_dataframe conn tf_deadlines "deadlines" "external_ref"
                  ["related_table"; "related_id"; "due_date"; "description"];
  let conn := log_row_count conn run_id "deadlines" iu in
  Some (mkDb (tables conn)
             (map (fun r => if (mr_id r =? run_id)%Z
                            then mkRun (mr_id r) "success" (mr_notes r) else r)
                  (migration_runs conn))
             (migration_row_counts conn)).

End Main.

(** ** A parser of numeric dates

    [simple_parser] reads [YYYY-M-D] and the numeric triples above, and
    orders day and month as [dateutil] does for three numbers; it meets
    the contract [DateParser] and runs the examples. *)

Definition iso_triple (s : string) : option (Z * Z * Z) :=
  match PyStr.split_on "-"%char s with
  | [a; b; c] =>
      if PyStr.isdigit a && (String.length a =? 4)%nat
         && PyStr.isdigit b && (String.length b <=? 2)%nat
         && PyStr.isdigit c && (String.length c <=? 2)%nat
      then Some (PyStr.int_of_digits a, PyStr.int_of_digits b,
                 PyStr.int_of_digits c)
      else None
  | _ => None
  end.

Definition checked (d : datetime) : option datetime :=
  if valid_dateb d then Some d else None.

Definition simple_parse (dayfirst yearfirst : bool) (s : string) : option datetime :=
  match numeric_triple s with
  | Some (a, b, y) =>
      if (12 <? a)%Z || (dayfirst && (b <=? 12)%Z)
      then checked (mkDate y b a)
      else checked (mkDate y a b)
  | None =>
      match iso_triple s with
      | Some (y, m, d) => checked (mkDate y m d)
      | None => None
      end
  end.

Lemma valid_dateb_spec d : valid_dateb d = true -> valid_date d.
Proof.
  unfold valid_dateb, valid_date.
  rewrite !andb_true_iff, !Z.leb_le. tauto.
Qed.

Lemma checked_valid d d' : checked d = Some d' -> valid_date d'.
Proof.
  unfold checked. destruct (valid_dateb d) eqn:E; [|discriminate].
  intros [= <-]. now apply valid_dateb_spec.
Qed.

Lemma simple_parse_valid dayfirst yearfirst s d :
  simple_parse dayfirst yearfirst s = Some d -> valid_date d.
Proof.
  unfold simple_parse.
  destruct (numeric_triple s) as [[[a b] y]|].
  - destruct (_ || _); apply checked_valid.
  - destruct (iso_triple s) as [[[y m] d0]|]; [apply checked_valid|discriminate].
Qed.

Lemma int_of_digits_aux_bound s acc :
  PyStr.all_chars PyStr.is_digit s = true -> (0 <= acc)%Z ->
  (0 <= PyStr.int_of_digits_aux acc s
   < (acc + 1) * 10 ^ Z.of_nat (String.length s))%Z.
Proof.
  revert acc. induction s as [|c s IH]; intros acc Hd Hacc.
  - simpl. lia.
  - simpl in Hd. apply andb_true_iff in Hd as [Hc Hs].
    assert (Hv : (0 <= PyStr.digit_val c <= 9)%Z).
    { unfold PyStr.is_digit, PyStr.between in Hc. unfold PyStr.digit_val.
      apply andb_true_iff in Hc as [H1 H2].
      apply N.leb_le in H1, H2. lia. }
    cbn [PyStr.int_of_digits_aux String.length].
    specialize (IH (10 * acc + PyStr.digit_val c)%Z Hs ltac:(lia)).
    rewrite Nat2Z.inj_succ, Z.pow_succ_r by lia.
    nia.
Qed.

Lemma numeric_triple_with_year sep s m d y :
  numeric_triple_with sep s = Some (m, d, y) -> (0 <= y <= 9999)%Z.
Proof.
  unfold numeric_triple_with.
  destruct (PyStr.split_on sep s) as [|a [|b [|c [|]]]]; try discriminate.
  destruct (_ && _) eqn:E; [|discriminate].
  intros [= _ _ <-].
  rewrite !andb_true_iff in E. destruct E as [[_ Hc] Hl].
  apply Nat.eqb_eq in Hl.
  unfold PyStr.isdigit in Hc. apply andb_true_iff in Hc as [_ Hc].
  pose proof (int_of_digits_aux_bound c 0 Hc ltac:(lia)) as Hb.
  rewrite Hl in Hb. unfold PyStr.int_of_digits. simpl in Hb. lia.
Qed.

Lemma numeric_triple_year s m d y :
  numeric_triple s = Some (m, d, y) -> (0 <= y <= 9999)%Z.
Proof.
  unfold numeric_triple.
  destruct (numeric_triple_with "/" s) as [t|] eqn:E.
  - intros [= ->]. eapply numeric_triple_with_year, E.
  - apply numeric_triple_with_year.
Qed.

Lemma simple_parse_month_first s m d y :
  numeric_triple s = Some (m, d, y) ->
  (1 <= m <= 12)%Z -> (1 <= d <= 12)%Z -> (1 <= y)%Z ->
  simple_parse false false s = Some (mkDate y m d).
Proof.
  intros Hs Hm Hd Hy. unfold simple_parse. rewrite Hs.
  pose proof (numeric_triple_year _ _ _ _ Hs) as Hy'.
  replace (12 <? m)%Z with false by (symmetry; apply Z.ltb_ge; lia).
  cbn [orb andb]. unfold checked, valid_dateb. cbn [year month day].
  repeat match goal with
         | |- context [(?a <=? ?b)%Z] =>
             replace (a <=? b)%Z with true by (symmetry; apply Z.leb_le; lia)
         end.
  reflexivity.
Qed.

Definition simple_parser : DateParser :=
  {| dateutil_parse := simple_parse;
     dateutil_parse_valid := simple_parse_valid;
     dateutil_parse_month_first := simple_parse_month_first |}.

(** ** A reader of ISO dates *)

(** [YYYY-MM-DD], with a day that exists. *)
Definition iso_date_parse (s : string) : option datetime :=
  match iso_triple s with
  | Some (y, m, d) =>
      if real_dateb (mkDate y m d) then Some (mkDate y m d) else None
  | None => None
  end.

Lemma iso_date_parse_real s d : iso_date_parse s = Some d -> real_dateb d = true.
Proof.
  unfold iso_date_parse.
  destruct (iso_triple s) as [[[y m] d']|]; [|discriminate].
  destruct (real_dateb (mkDate y m d')) eqn:E; [|discriminate].
  now intros [= <-].
Qed.

#[global] Instance iso_date_parser : IsoParser :=
  {| fromisoformat := iso_date_parse; fromisoformat_real := iso_date_parse_real |}.

(** ** Examples *)

Example strip_ex : PyStr.strip "  a  b " = "a  b".
Proof. reflexivity. Qed.

Example collapse_ex : PyStr.collapse_ws "a  b	 c" = "a b c".
Proof. reflexivity. Qed.

Example split_on_ex : PyStr.split_on ","%char "Smith, Mia, Jr" = ["Smith"; " Mia"; " Jr"].
Proof. reflexivity. Qed.

Example split_ws_ex : PyStr.split_ws " a  bc d" = ["a"; "bc"; "d"].
Proof. reflexivity. Qed.

Example title_ex : PyStr.title "o'neil mcDONALD 3rd" = "O'Neil Mcdonald 3Rd".
Proof. reflexivity. Qed.

Example zfill_ex : PyStr.zfill 4 2024 = "2024" /\ PyStr.zfill 2 5 = "05".
Proof. split; reflexivity. Qed.

Example replace_ex : PyStr.replace "_at_" "@" "a_at_b.com" = "a@b.com".
Proof. reflexivity. Qed.

Example clean_string_ex :
  clean_string (Str "  Acme   Corp ") = "Acme Corp" /\ clean_string (Str "N/A") = ""
  /\ clean_string NaN = "" /\ clean_string (Int 42) = "42".
Proof. repeat split; reflexivity. Qed.

Example iso2_ex :
  iso2 (Str "United States") = Some "US" /\ iso2 (Str "Deutschland") = Some "DE"
  /\ iso2 (Str "") = None /\ iso2 (Str "great BRITAIN") = Some "GB"
  /\ iso2 (Str "Atlantis") = None.
Proof. repeat split; reflexivity. Qed.

Example split_name_ex :
  split_name (Str "Smith, Mia") = ("Mia", "Smith")
  /\ split_name (Str "Aarav Singh") = ("Aarav", "Singh")
  /\ split_name (Str "") = ("", "")
  /\ split_name (Str "jean claude van damme") = ("Jean", "Claude Van Damme").
Proof. repeat split; reflexivity. Qed.

Example parse_classes_ex :
  parse_classes (Str "9, 35") = [9; 35]%Z /\ parse_classes (Str "  ") = []
  /\ parse_classes (Str "35;9,9 class12 99") = [9; 12; 35]%Z.
Proof. repeat split; reflexivity. Qed.

Example normalize_status_ex :
  normalize_status (Str "Issued") "patent" = "granted"
  /\ normalize_status (Str "was refused twice") "patent" = "rejected"
  /\ normalize_status (Str "Issued") "patents" = "pending".
Proof. repeat split; reflexivity. Qed.

Example parse_email_ex :
  parse_email (Str "Mia.Smith@Example.com") = "mia.smith@example.com"
  /\ parse_email (Str "mia_at_example.com") = "mia@example.com"
  /\ parse_email (Str "mia@example") = "" /\ parse_email NaN = "".
Proof. repeat split; reflexivity. Qed.

Example round2_ex :
  round2 (100 - 1 / 3 * 100)%Q = (6667 # 100)%Q /\ round2 (5 # 1000) = (0 # 100)%Q
  /\ round2 (15 # 1000) = (2 # 100)%Q.
Proof. repeat split; reflexivity. Qed.

Example to_date_ex :
  @to_date simple_parser (Str "2024-01-05") = Some "2024-01-05"
  /\ @to_date simple_parser (Str "") = None
  /\ @to_date simple_parser (Str " 5/1/2024 ") = Some "2024-05-01"
  /\ @to_date simple_parser (Str "13/01/2024") = Some "2024-01-13"
  /\ @to_date simple_parser (Str "01/01/1899") = None
  /\ @to_date simple_parser NaN = None.
Proof. repeat split; reflexivity. Qed.

Example normalize_priority_ex :
  normalize_priority (Str " URGENT ") = "high"
  /\ normalize_priority (Str "whenever") = "medium"
  /\ normalize_priority NaN = "medium".
Proof. repeat split; reflexivity. Qed.

Example parse_phone_ex :
  parse_phone (Str "555.123.4567") = "(555) 123-4567"
  /\ parse_phone (Str "1-555-123-4567") = "+1 (555) 123-4567"
  /\ parse_phone (Str "+44 20 7946 0958") = "+442079460958"
  /\ parse_phone (Str "ext 12") = "ext 12"
  /\ parse_phone (Str "000-000-0000") = "".
Proof. repeat split; reflexivity. Qed.

Example parse_inventors_ex :
  parse_inventors (Str "Smith, Mia; n/a ;| aarav singh")
  = [("Mia", "Smith"); ("Aarav", "Singh")].
Proof. reflexivity. Qed.

Example split_name_legacy_ex :
  split_name_legacy (Str "Smith, Mia") = "Mia Smith"
  /\ split_name_legacy (Str "Aarav Singh") = "Aarav Singh"
  /\ split_name_legacy (Str "") = "".
Proof. repeat split; reflexivity. Qed.

Example calculate_expiry_date_ex :
  calculate_expiry_date "2021-03-04" "US" "patent" = Some (Some "2041-03-04")
  /\ calculate_expiry_date "2021-03-04" "IN" "trademark" = Some (Some "2031-03-04")
  /\ calculate_expiry_date "2020-02-29" "US" "trademark" = None
  /\ calculate_expiry_date "2020-02-29" "US" "patent" = Some (Some "2040-02-29")
  /\ calculate_expiry_date "soon" "US" "patent" = Some None
  /\ calculate_expiry_date "2021-03-04" "US" "design" = Some None.
Proof. vm_compute. repeat split; reflexivity. Qed.

(** * Properties *)

(** ** Status normalisation *)

(** The canonical status keys of an entity type: the keys of its table in
    [STATUS_MAPPINGS], none when it has no table. *)
Definition canonical_statuses (entity_type : string) : list string :=
  map fst (default [] (assoc entity_type STATUS_MAPPINGS)).

Lemma find_key_in {A B} (p : A * B -> bool) (l : list (A * B)) nv :
  find p l = Some nv -> In nv.1 (map fst l).
Proof.
  intros Hf. apply find_some in Hf as [Hin _].
  apply in_map_iff. now exists nv.
Qed.

Lemma normalize_status_range status entity_type :
  normalize_status status entity_type = "pending"
  \/ In (normalize_status status entity_type) (canonical_statuses entity_type).
Proof.
  unfold normalize_status, canonical_statuses.
  destruct (falsy status); [now left|].
  destruct (String.eqb _ ""); [now left|].
  destruct (find (fun nv => mem_str _ _) _) as [nv|] eqn:E1.
  - right. eapply find_key_in, E1.
  - destruct (find (fun nv => existsb _ _) _) as [nv|] eqn:E2.
    + right. eapply find_key_in, E2.
    + now left.
Qed.

Lemma normalize_status_no_table status entity_type :
  assoc entity_type STATUS_MAPPINGS = None ->
  normalize_status status entity_type = "pending".
Proof.
  intros Hnone.
  destruct (normalize_status_range status entity_type) as [Hp|Hin]; [exact Hp|].
  unfold canonical_statuses in Hin. rewrite Hnone in Hin. destruct Hin.
Qed.

(** C10: for every input and every entity type [normalize_status] returns
    one of the canonical status keys of that entity type or the default
    ["pending"]; an entity type without a mapping table, such as
    ["deadline"] or the plural ["patents"], gets ["pending"] for every
    input. *)
Theorem normalize_status_canonical_or_pending (status : cell) (entity_type : string) :
  (normalize_status status entity_type = "pending"
   \/ In (normalize_status status entity_type) (canonical_statuses entity_type))
  /\ (assoc entity_type STATUS_MAPPINGS = None ->
      normalize_status status entity_type = "pending")
  /\ normalize_status status "deadline" = "pending"
  /\ normalize_status status "patents" = "pending".
Proof.
  split; [apply normalize_status_range|].
  split; [apply normalize_status_no_table|].
  split; now apply normalize_status_no_table.
Qed.

Lemma normalize_status_canonical_or_pending_witness :
  assoc "deadlines" STATUS_MAPPINGS = None
  /\ normalize_status (Str "Granted") "deadlines" = "pending"
  /\ In (normalize_status (Str "Issued") "patent") (canonical_statuses "patent").
Proof.
  split; [reflexivity|].
  split.
  - exact (proj1 (proj2 (normalize_status_canonical_or_pending
                           (Str "Granted") "deadlines")) eq_refl).
  - destruct (normalize_status_canonical_or_pending (Str "Issued") "patent")
      as [[Hp|Hin] _]; [discriminate Hp|exact Hin].
Defined.

(** ** Dates *)

(** An ISO-8601 calendar date: [YYYY-MM-DD], the month in 01..12 and the
    day in 01..31. *)
Definition four_digits (s : string) : bool :=
  (String.length s =? 4)%nat && PyStr.all_chars PyStr.is_digit s.

Definition two_digits_in (lo hi : Z) (s : string) : bool :=
  (String.length s =? 2)%nat && PyStr.all_chars PyStr.is_digit s
  && (lo <=? PyStr.int_of_digits s)%Z && (PyStr.int_of_digits s <=? hi)%Z.

Definition is_iso_date (s : string) : bool :=
  match PyStr.split_on "-"%char s with
  | [y; m; d] => four_digits y && two_digits_in 1 12 m && two_digits_in 1 31 d
  | _ => false
  end.

Lemma split_on_app_sep sep a s :
  PyStr.has_char sep a = false ->
  PyStr.split_on sep (a ++ String sep s) = a :: PyStr.split_on sep s.
Proof.
  induction a as [|c a IH]; intros Hc.
  - simpl. now rewrite Ascii.eqb_refl.
  - simpl in Hc. apply orb_false_iff in Hc as [Hc Ha].
    simpl. rewrite Hc, (IH Ha). reflexivity.
Qed.

Lemma split_on_no_sep sep a :
  PyStr.has_char sep a = false -> PyStr.split_on sep a = [a].
Proof.
  induction a as [|c a IH]; intros Hc; [reflexivity|].
  simpl in Hc. apply orb_false_iff in Hc as [Hc Ha].
  simpl. rewrite Hc, (IH Ha). reflexivity.
Qed.

Lemma digits_no_dash s :
  PyStr.all_chars PyStr.is_digit s = true -> PyStr.has_char "-" s = false.
Proof.
  induction s as [|c s IH]; [reflexivity|].
  simpl. intros Hd. apply andb_true_iff in Hd as [Hc Hs].
  rewrite (IH Hs), orb_false_r.
  destruct (Ascii.eqb c "-") eqn:E; [|reflexivity].
  apply Ascii.eqb_eq in E. subst c. discriminate Hc.
Qed.

Lemma is_iso_date_compose y m d :
  four_digits y = true -> two_digits_in 1 12 m = true ->
  two_digits_in 1 31 d = true ->
  is_iso_date (y ++ "-" ++ m ++ "-" ++ d) = true.
Proof.
  intros Hy Hm Hd. unfold is_iso_date.
  assert (Hy' : PyStr.all_chars PyStr.is_digit y = true).
  { unfold four_digits in Hy. now apply andb_true_iff in Hy as [_ ?]. }
  assert (Hm' : PyStr.all_chars PyStr.is_digit m = true).
  { unfold two_digits_in in Hm. rewrite !andb_true_iff in Hm. tauto. }
  assert (Hd' : PyStr.all_chars PyStr.is_digit d = true).
  { unfold two_digits_in in Hd. rewrite !andb_true_iff in Hd. tauto. }
  change (y ++ "-" ++ m ++ "-" ++ d)
    with (y ++ String "-" (m ++ String "-" d)).
  rewrite split_on_app_sep by now apply digits_no_dash.
  rewrite split_on_app_sep by now apply digits_no_dash.
  rewrite split_on_no_sep by now apply digits_no_dash.
  now rewrite Hy, Hm, Hd.
Qed.

Lemma forallb_seqZ (p : Z -> bool) (lo len : Z) :
  forallb p (seqZ lo len) = true ->
  forall z, (lo <= z < lo + len)%Z -> p z = true.
Proof.
  intros Hall z Hz.
  rewrite forallb_forall in Hall. apply Hall.
  apply list_elem_of_In, elem_of_seqZ. lia.
Qed.

Lemma zfill_year y :
  (1 <= y <= 9999)%Z -> four_digits (PyStr.zfill 4 y) = true.
Proof.
  intros Hy.
  apply (forallb_seqZ (fun y => four_digits (PyStr.zfill 4 y)) 1 9999);
    [vm_compute; reflexivity|lia].
Qed.

Lemma zfill_two lo hi z :
  (1 <= lo)%Z -> (hi <= 31)%Z -> (lo <= z <= hi)%Z ->
  two_digits_in lo hi (PyStr.zfill 2 z) = true.
Proof.
  intros Hlo Hhi Hz.
  assert (Hshape : two_digits_in z z (PyStr.zfill 2 z) = true).
  { apply (forallb_seqZ (fun z => two_digits_in z z (PyStr.zfill 2 z)) 1 31);
      [vm_compute; reflexivity|lia]. }
  unfold two_digits_in in *.
  rewrite !andb_true_iff in *. rewrite !Z.leb_le in *.
  destruct Hshape as [[[? ?] ?] ?]. repeat split; auto; lia.
Qed.

Lemma isoformat_is_iso d : valid_date d -> is_iso_date (isoformat d) = true.
Proof.
  intros (Hy & Hm & Hd). unfold isoformat.
  apply is_iso_date_compose.
  - now apply zfill_year.
  - apply zfill_two; lia.
  - apply zfill_two; lia.
Qed.

Lemma mem_str_In x l : mem_str x l = true <-> In x l.
Proof.
  unfold mem_str. rewrite existsb_exists. split.
  - intros (y & Hy & E). apply String.eqb_eq in E. now subst.
  - intros Hx. exists x. split; [exact Hx|apply String.eqb_refl].
Qed.

Lemma mem_str_not_In x l : ~ In x l -> mem_str x l = false.
Proof.
  intros Hn. destruct (mem_str x l) eqn:E; [|reflexivity].
  now apply mem_str_In in E.
Qed.

(** Strings that [clean_string] leaves alone: no whitespace, no upper-case
    letter, and a first character that is not a letter. *)
Definition plain_char (c : ascii) : bool :=
  PyStr.is_digit c || Ascii.eqb c "/" || Ascii.eqb c "-".

Lemma plain_char_cases c :
  plain_char c = true ->
  PyStr.is_space c = false /\ PyStr.is_upper c = false /\ PyStr.is_lower c = false.
Proof.
  unfold plain_char. rewrite !orb_true_iff. intros [[Hd|He]|He].
  - unfold PyStr.is_digit, PyStr.is_space, PyStr.is_upper, PyStr.is_lower,
      PyStr.between in *.
    apply andb_true_iff in Hd as [H1 H2]. apply N.leb_le in H1, H2.
    repeat split.
    + apply orb_false_iff. split; apply andb_false_iff.
      * right. apply N.leb_gt. lia.
      * right. apply N.leb_gt. lia.
    + apply andb_false_iff. left. apply N.leb_gt. lia.
    + apply andb_false_iff. left. apply N.leb_gt. lia.
  - apply Ascii.eqb_eq in He. subst c. repeat split; reflexivity.
  - apply Ascii.eqb_eq in He. subst c. repeat split; reflexivity.
Qed.

Lemma plain_lstrip s :
  PyStr.all_chars plain_char s = true -> PyStr.lstrip s = s.
Proof.
  destruct s as [|c s]; [reflexivity|]. simpl.
  intros Hp. apply andb_true_iff in Hp as [Hc _].
  apply plain_char_cases in Hc as (-> & _). reflexivity.
Qed.

Lemma plain_rstrip s :
  PyStr.all_chars plain_char s = true -> PyStr.rstrip s = s.
Proof.
  induction s as [|c s IH]; [reflexivity|]. simpl.
  intros Hp. apply andb_true_iff in Hp as [Hc Hs].
  rewrite (IH Hs). apply plain_char_cases in Hc as (-> & _).
  now destruct s.
Qed.

Lemma plain_collapse s b :
  PyStr.all_chars plain_char s = true -> PyStr.collapse_aux b s = s.
Proof.
  revert b. induction s as [|c s IH]; intros b; [reflexivity|]. simpl.
  intros Hp. apply andb_true_iff in Hp as [Hc Hs].
  apply plain_char_cases in Hc as (-> & _). now rewrite IH.
Qed.

Lemma plain_lower s :
  PyStr.all_chars plain_char s = true -> PyStr.lower s = s.
Proof.
  induction s as [|c s IH]; [reflexivity|]. simpl.
  intros Hp. apply andb_true_iff in Hp as [Hc Hs].
  unfold PyStr.lower in *. simpl. rewrite (IH Hs). unfold PyStr.to_lower.
  apply plain_char_cases in Hc as (_ & -> & _). reflexivity.
Qed.

Lemma plain_not_blank s :
  PyStr.all_chars plain_char s = true -> mem_str s legacy_blanks = false.
Proof.
  destruct s as [|c s]; [reflexivity|]. simpl.
  intros Hp. apply andb_true_iff in Hp as [Hc _].
  repeat match goal with
         | |- context [Ascii.eqb c ?x] =>
             destruct (Ascii.eqb c x) eqn:E;
             [apply Ascii.eqb_eq in E; subst c; discriminate Hc|clear E]
         end.
  reflexivity.
Qed.

Lemma clean_string_plain s :
  PyStr.all_chars plain_char s = true -> clean_string (Str s) = s.
Proof.
  intros Hp. unfold clean_string, PyStr.strip, PyStr.collapse_ws.
  cbn [isna py_str].
  rewrite (plain_lstrip s Hp), (plain_rstrip s Hp), (plain_collapse s false Hp),
    (plain_lower s Hp), (plain_not_blank s Hp).
  reflexivity.
Qed.

Lemma split_on_all_chars (p : ascii -> bool) sep s :
  p sep = true ->
  forallb (PyStr.all_chars p) (PyStr.split_on sep s) = true ->
  PyStr.all_chars p s = true.
Proof.
  intros Hsep. induction s as [|c s IH]; [reflexivity|].
  simpl. destruct (Ascii.eqb c sep) eqn:E.
  - apply Ascii.eqb_eq in E. subst c. simpl. intros Hall.
    rewrite Hsep. now apply IH.
  - destruct (PyStr.split_on sep s) as [|p0 ps]; simpl.
    + rewrite !andb_true_r. intros ->. now apply IH.
    + rewrite !andb_true_iff. intros [[Hc Hp0] Hps].
      split; [exact Hc|]. apply IH. simpl. now rewrite Hp0, Hps.
Qed.

Lemma numeric_triple_with_plain sep s t :
  plain_char sep = true ->
  numeric_triple_with sep s = Some t ->
  PyStr.all_chars plain_char s = true /\ s <> "".
Proof.
  intros Hsep. unfold numeric_triple_with.
  destruct (PyStr.split_on sep s) as [|a [|b [|c [|]]]] eqn:Es; try discriminate.
  destruct (_ && _) eqn:E; [|discriminate]. intros _.
  rewrite !andb_true_iff in E.
  destruct E as [[[[[Ha _] Hb] _] Hc] _].
  unfold PyStr.isdigit in Ha, Hb, Hc.
  apply andb_true_iff in Ha as [_ Ha], Hb as [_ Hb], Hc as [_ Hc].
  assert (Hd : forall x, PyStr.all_chars PyStr.is_digit x = true ->
                         PyStr.all_chars plain_char x = true).
  { induction x as [|k x IH]; [reflexivity|]. simpl.
    rewrite !andb_true_iff. intros [Hk Hx]. split; [|now apply IH].
    unfold plain_char. now rewrite Hk. }
  split.
  - apply (split_on_all_chars plain_char sep); [exact Hsep|].
    rewrite Es. simpl. now rewrite (Hd a Ha), (Hd b Hb), (Hd c Hc).
  - intros ->. discriminate Es.
Qed.

Lemma numeric_triple_plain s t :
  numeric_triple s = Some t ->
  PyStr.all_chars plain_char s = true /\ s <> "".
Proof.
  unfold numeric_triple.
  destruct (numeric_triple_with "/" s) as [t'|] eqn:E.
  - intros _. now apply (numeric_triple_with_plain "/" s t').
  - now apply numeric_triple_with_plain.
Qed.

Section ToDate.
Context `{DateParser}.

Lemma to_date_bad_dates s : In s bad_dates -> to_date (Str s) = None.
Proof.
  intros Hin. simpl in Hin.
  repeat (destruct Hin as [<-|Hin]; [reflexivity|]). destruct Hin.
Qed.

Lemma to_date_out_of_range v d :
  dateutil_parse false false (clean_string v) = Some d ->
  ~ (1900 <= year d <= 2050)%Z -> to_date v = None.
Proof.
  intros Hp Hy. unfold to_date.
  destruct (isna v || falsy v); [reflexivity|].
  destruct (String.eqb _ ""); [reflexivity|].
  destruct (mem_str _ bad_dates); [reflexivity|].
  rewrite Hp.
  destruct (_ && _) eqn:E; [|reflexivity].
  apply andb_true_iff in E as [E1 E2]. apply Z.leb_le in E1, E2. lia.
Qed.

Lemma to_date_iso v iso : to_date v = Some iso -> is_iso_date iso = true.
Proof.
  unfold to_date.
  destruct (isna v || falsy v); [discriminate|].
  destruct (String.eqb _ ""); [discriminate|].
  destruct (mem_str _ bad_dates); [discriminate|].
  destruct (dateutil_parse false false _) as [d|] eqn:Hp; [|discriminate].
  destruct (_ && _); [|discriminate].
  intros [= <-]. apply isoformat_is_iso.
  eapply dateutil_parse_valid, Hp.
Qed.

Lemma to_date_parsed v d :
  isna v || falsy v = false ->
  clean_string v <> "" ->
  ~ In (clean_string v) bad_dates ->
  dateutil_parse false false (clean_string v) = Some d ->
  (1900 <= year d <= 2050)%Z ->
  to_date v = Some (isoformat d).
Proof.
  intros Hv Hc Hb Hp Hy. unfold to_date. rewrite Hv.
  apply String.eqb_neq in Hc. rewrite Hc.
  rewrite (mem_str_not_In _ _ Hb), Hp.
  replace (1900 <=? year d)%Z with true by (symmetry; apply Z.leb_le; lia).
  replace (year d <=? 2050)%Z with true by (symmetry; apply Z.leb_le; lia).
  reflexivity.
Qed.

Lemma to_date_month_first s m d y :
  numeric_triple s = Some (m, d, y) ->
  (1 <= m <= 12)%Z -> (1 <= d <= 12)%Z -> (1900 <= y <= 2050)%Z ->
  ~ In s bad_dates ->
  to_date (Str s) = Some (isoformat (mkDate y m d)).
Proof.
  intros Hs Hm Hd Hy Hb.
  destruct (numeric_triple_plain _ _ Hs) as [Hp Hne].
  pose proof (clean_string_plain s Hp) as Hc.
  apply to_date_parsed.
  - simpl. now apply String.eqb_neq.
  - now rewrite Hc.
  - now rewrite Hc.
  - rewrite Hc. apply dateutil_parse_month_first; auto; lia.
  - simpl. lia.
Qed.

End ToDate.

(** C6: [to_date] (the spec's [parse_date]) returns null for each of the
    four sentinel dates and whenever the parsed year lies outside
    1900..2050; an input that parses with a year in that range comes back as
    its ISO-8601 date, and every non-null result is an ISO-8601 date; a
    numeric date whose first two numbers could both be a month is read
    month first, so ["05/01/2024"] gives ["2024-05-01"]. *)
Theorem to_date_policy `{DateParser} :
  (forall s, In s bad_dates -> to_date (Str s) = None)
  /\ (forall v d,
        dateutil_parse false false (clean_string v) = Some d ->
        ~ (1900 <= year d <= 2050)%Z -> to_date v = None)
  /\ (forall v d,
        isna v || falsy v = false -> clean_string v <> "" ->
        ~ In (clean_string v) bad_dates ->
        dateutil_parse false false (clean_string v) = Some d ->
        (1900 <= year d <= 2050)%Z ->
        to_date v = Some (isoformat d) /\ is_iso_date (isoformat d) = true)
  /\ (forall v iso, to_date v = Some iso -> is_iso_date iso = true)
  /\ (forall s m d y,
        numeric_triple s = Some (m, d, y) ->
        (1 <= m <= 12)%Z -> (1 <= d <= 12)%Z -> (1900 <= y <= 2050)%Z ->
        ~ In s bad_dates ->
        to_date (Str s) = Some (isoformat (mkDate y m d)))
  /\ to_date (Str "05/01/2024") = Some "2024-05-01".
Proof.
  split; [apply to_date_bad_dates|].
  split; [apply to_date_out_of_range|].
  split.
  { intros v d Hv Hc Hb Hp Hy.
    pose proof (to_date_parsed v d Hv Hc Hb Hp Hy) as E.
    split; [exact E|]. eapply to_date_iso, E. }
  split; [apply to_date_iso|].
  split; [apply to_date_month_first|].
  apply (to_date_month_first "05/01/2024" 5 1 2024); try reflexivity; try lia.
  simpl. intros [E|[E|[E|[E|[]]]]]; discriminate E.
Qed.

Lemma to_date_policy_witness :
  @to_date simple_parser (Str "01/01/1900") = None
  /\ @to_date simple_parser (Str "03/04/1850") = None
  /\ @to_date simple_parser (Str "2024-01-05") = Some "2024-01-05"
  /\ is_iso_date "2024-01-05" = true
  /\ @to_date simple_parser (Str "03/04/2021") = Some "2021-03-04".
Proof.
  destruct (@to_date_policy simple_parser) as (Hbad & Hrange & Hok & Hiso & Hmf & _).
  split.
  { apply Hbad. simpl. auto. }
  split.
  { apply (Hrange (Str "03/04/1850") (mkDate 1850 3 4)); [reflexivity|].
    simpl. lia. }
  split.
  { refine (proj1 (Hok (Str "2024-01-05") (mkDate 2024 1 5) _ _ _ _ _));
      try reflexivity.
    - discriminate.
    - simpl. intros [E|[E|[E|[E|[]]]]]; discriminate E.
    - simpl. lia. }
  split.
  { apply (Hiso (Str "2024-01-05")). reflexivity. }
  apply (Hmf "03/04/2021" 3%Z 4%Z 2021%Z); try reflexivity; try lia.
  simpl. intros [E|[E|[E|[E|[]]]]]; discriminate E.
Defined.

(** ** Names *)

(** The text before the first occurrence of [sep] (all of it when there is
    none), and the text after it. *)
Fixpoint before_first (sep : ascii) (s : string) : string :=
  match s with
  | EmptyString => EmptyString
  | String c s' => if Ascii.eqb c sep then EmptyString
                   else String c (before_first sep s')
  end.

Fixpoint after_first (sep : ascii) (s : string) : string :=
  match s with
  | EmptyString => EmptyString
  | String c s' => if Ascii.eqb c sep then s' else after_first sep s'
  end.

(** The reading "split on the first comma": the last name is what stands
    before the first comma, the first name everything after it. *)
Definition split_on_first_comma (name_clean : string) : string * string :=
  (PyStr.title (PyStr.strip (after_first "," name_clean)),
   PyStr.title (PyStr.strip (before_first "," name_clean))).

Lemma split_on_cons sep s :
  PyStr.split_on sep s =
  before_first sep s ::
  (if PyStr.has_char sep s then PyStr.split_on sep (after_first sep s) else []).
Proof.
  induction s as [|c s IH]; [reflexivity|].
  simpl. destruct (Ascii.eqb c sep); [reflexivity|].
  rewrite IH. reflexivity.
Qed.

Lemma split_on_two sep s :
  PyStr.has_char sep s = true ->
  exists rest,
    PyStr.split_on sep s =
    before_first sep s :: before_first sep (after_first sep s) :: rest.
Proof.
  intros Hc. rewrite split_on_cons, Hc.
  rewrite (split_on_cons sep (after_first sep s)). eauto.
Qed.

Lemma before_first_no_sep sep s :
  PyStr.has_char sep s = false -> before_first sep s = s.
Proof.
  induction s as [|c s IH]; [reflexivity|].
  simpl. intros Hc. apply orb_false_iff in Hc as [-> Hs]. now rewrite IH.
Qed.

(** A cleaned value that is not empty starts with a character that is not
    whitespace, so that splitting it on whitespace gives a token. *)
Definition starts_solid (s : string) : Prop :=
  match s with
  | EmptyString => True
  | String c _ => PyStr.is_space c = false
  end.

Lemma lstrip_solid s : starts_solid (PyStr.lstrip s).
Proof.
  induction s as [|c s IH]; [exact I|].
  simpl. destruct (PyStr.is_space c) eqn:E; [exact IH|exact E].
Qed.

Lemma rstrip_solid s : starts_solid s -> starts_solid (PyStr.rstrip s).
Proof.
  destruct s as [|c s]; [trivial|]. simpl. intros Hc.
  destruct (PyStr.rstrip s); [rewrite Hc|]; exact Hc.
Qed.

Lemma collapse_solid s : starts_solid s -> starts_solid (PyStr.collapse_ws s).
Proof.
  destruct s as [|c s]; [trivial|]. unfold PyStr.collapse_ws. simpl.
  intros Hc. rewrite Hc. exact Hc.
Qed.

Lemma clean_string_solid v : starts_solid (clean_string v).
Proof.
  unfold clean_string. destruct (isna v); [exact I|].
  destruct (mem_str _ _); [exact I|].
  apply collapse_solid, rstrip_solid, lstrip_solid.
Qed.

Lemma fields_aux_cur p cur s :
  cur <> "" -> PyStr.fields_aux p cur s <> [].
Proof.
  revert cur. induction s as [|c s IH]; intros cur Hcur; simpl.
  - apply String.eqb_neq in Hcur. now rewrite Hcur.
  - destruct (p c).
    + apply String.eqb_neq in Hcur. now rewrite Hcur.
    + apply IH. now destruct cur.
Qed.

Lemma split_ws_solid s : s <> "" -> starts_solid s -> PyStr.split_ws s <> [].
Proof.
  destruct s as [|c s]; [congruence|]. intros _ Hc.
  unfold PyStr.split_ws, PyStr.fields. simpl in *. rewrite Hc.
  now apply fields_aux_cur.
Qed.

Lemma split_name_comma s :
  clean_string (Str s) <> "" ->
  PyStr.has_char "," (clean_string (Str s)) = true ->
  split_name (Str s) =
  (PyStr.title (PyStr.strip (before_first "," (after_first "," (clean_string (Str s))))),
   PyStr.title (PyStr.strip (before_first "," (clean_string (Str s))))).
Proof.
  intros Hne Hc. unfold split_name.
  destruct (falsy (Str s)) eqn:Hf.
  { simpl in Hf. apply String.eqb_eq in Hf. subst s. now destruct Hne. }
  apply String.eqb_neq in Hne. rewrite Hne, Hc.
  destruct (split_on_two "," _ Hc) as [rest ->]. reflexivity.
Qed.

Lemma split_name_tokens s :
  clean_string (Str s) <> "" ->
  PyStr.has_char "," (clean_string (Str s)) = false ->
  split_name (Str s) =
  match PyStr.split_ws (clean_string (Str s)) with
  | [p0] => ("", PyStr.title p0)
  | [p0; p1] => (PyStr.title p0, PyStr.title p1)
  | p0 :: rest => (PyStr.title p0, PyStr.title (PyStr.join " " rest))
  | [] => ("", "")
  end.
Proof.
  intros Hne Hc. unfold split_name.
  pose proof (split_ws_solid _ Hne (clean_string_solid (Str s))) as Htok.
  destruct (falsy (Str s)) eqn:Hf.
  { simpl in Hf. apply String.eqb_eq in Hf. subst s. now destruct Hne. }
  apply String.eqb_neq in Hne. rewrite Hne, Hc.
  destruct (PyStr.split_ws _) as [|p0 [|p1 [|p2 rest]]]; congruence.
Qed.

Lemma split_name_blank s :
  clean_string (Str s) = "" -> split_name (Str s) = ("", "").
Proof.
  intros Hc. unfold split_name. rewrite Hc.
  now destruct (falsy (Str s)).
Qed.

(** C8, as amended: on a cleaned value with a comma, [split_name] splits on
    every comma: the last name is the trimmed, title-cased text before the
    first comma and the first name the trimmed, title-cased text between
    the first and the second comma (everything after the comma when there
    is only one); without a comma the cleaned value is split on whitespace:
    one token is the last name, two tokens are (first, last), with more the
    first token is the first name and the others joined by a space the last
    name, all title-cased; an input that cleans to nothing gives two
    empty names. *)
Theorem split_name_cases (s : string) :
  let name_clean := clean_string (Str s) in
  (name_clean = "" -> split_name (Str s) = ("", ""))
  /\ (name_clean <> "" -> PyStr.has_char "," name_clean = true ->
      first_name (split_name (Str s)) =
        PyStr.title (PyStr.strip (before_first "," (after_first "," name_clean)))
      /\ last_name (split_name (Str s)) =
        PyStr.title (PyStr.strip (before_first "," name_clean))
      /\ (PyStr.has_char "," (after_first "," name_clean) = false ->
          split_name (Str s) = split_on_first_comma name_clean))
  /\ (name_clean <> "" -> PyStr.has_char "," name_clean = false ->
      PyStr.split_ws name_clean <> []
      /\ (forall p0, PyStr.split_ws name_clean = [p0] ->
          split_name (Str s) = ("", PyStr.title p0))
      /\ (forall p0 p1, PyStr.split_ws name_clean = [p0; p1] ->
          split_name (Str s) = (PyStr.title p0, PyStr.title p1))
      /\ (forall p0 p1 p2 rest, PyStr.split_ws name_clean = p0 :: p1 :: p2 :: rest ->
          split_name (Str s) =
          (PyStr.title p0, PyStr.title (PyStr.join " " (p1 :: p2 :: rest))))).
Proof.
  intros name_clean. subst name_clean.
  split; [apply split_name_blank|].
  split.
  - intros Hne Hc. rewrite (split_name_comma s Hne Hc).
    split; [reflexivity|]. split; [reflexivity|].
    intros Hone. unfold split_on_first_comma.
    now rewrite (before_first_no_sep _ _ Hone).
  - intros Hne Hc. rewrite (split_name_tokens s Hne Hc).
    split; [apply split_ws_solid; [exact Hne|apply clean_string_solid]|].
    split; [now intros p0 ->|].
    split; [now intros p0 p1 ->|].
    now intros p0 p1 p2 rest ->.
Qed.

Lemma split_name_cases_witness :
  split_name (Str "  N/A ") = ("", "")
  /\ split_name (Str "smith,  mia") = ("Mia", "Smith")
  /\ split_name (Str "Smith, Mia, Jr") = ("Mia", "Smith")
  /\ split_name (Str "madonna") = ("", "Madonna")
  /\ split_name (Str "Aarav Singh") = ("Aarav", "Singh")
  /\ split_name (Str "jean claude van damme") = ("Jean", "Claude Van Damme").
Proof.
  split.
  { apply (proj1 (split_name_cases "  N/A ")). reflexivity. }
  split.
  { destruct (split_name_cases "smith,  mia") as (_ & Hc & _).
    destruct Hc as (_ & _ & Hone); [discriminate|reflexivity|].
    apply Hone. reflexivity. }
  split.
  { destruct (split_name_cases "Smith, Mia, Jr") as (_ & Hc & _).
    destruct Hc as (Hf & Hl & _); [discriminate|reflexivity|].
    destruct (split_name (Str "Smith, Mia, Jr")) as [f l].
    simpl in Hf, Hl. subst f l. reflexivity. }
  split.
  { destruct (split_name_cases "madonna") as (_ & _ & Ht).
    destruct Ht as (_ & H1 & _); [discriminate|reflexivity|].
    apply (H1 "madonna"). reflexivity. }
  split.
  { destruct (split_name_cases "Aarav Singh") as (_ & _ & Ht).
    destruct Ht as (_ & _ & H2 & _); [discriminate|reflexivity|].
    apply (H2 "Aarav" "Singh"). reflexivity. }
  destruct (split_name_cases "jean claude van damme") as (_ & _ & Ht).
  destruct Ht as (_ & _ & _ & H3); [discriminate|reflexivity|].
  apply (H3 "jean" "claude" "van" ["damme"]). reflexivity.
Defined.

(** C8 as stated fails when the cleaned value has two commas: the first
    name is not everything after the first comma. *)
Lemma split_name_first_comma_counterexample :
  let name_clean := clean_string (Str "Smith, Mia, Jr") in
  PyStr.has_char "," name_clean = true
  /\ split_on_first_comma name_clean = ("Mia, Jr", "Smith")
  /\ split_name (Str "Smith, Mia, Jr") = ("Mia", "Smith")
  /\ split_name (Str "Smith, Mia, Jr") <> split_on_first_comma name_clean.
Proof.
  repeat split; try reflexivity. discriminate.
Qed.

(** ** The quality score *)

(** The four issue counts in the words of the specification: over the
    critical fields and the date fields of the entity that the frame has,
    the e-mail column of clients, and the [external_ref] column. *)
Definition sum_fields (df : Frame cell) (count : list cell -> Z)
  (fields : list string) : Z :=
  foldr (fun f acc =>
           (match column df f with Some s => count s | None => 0 end + acc)%Z)
        0%Z fields.

Definition missing_count (df : Frame cell) (entity_type : string) : Z :=
  sum_fields df count_missing (critical_fields entity_type).

Definition count_valid_emails (s : list cell) : Z :=
  count_true (map (fun x => if falsy x then false
                            else negb (String.eqb (parse_email x) "")) s).

Definition invalid_email_count (df : Frame cell) (entity_type : string) : Z :=
  if String.eqb entity_type "clients"
  then match column df "email" with
       | Some s => (Z.of_nat (nrows df) - count_valid_emails s)%Z
       | None => 0%Z
       end
  else 0%Z.

Definition duplicate_count (df : Frame cell) : Z :=
  match column df "external_ref" with
  | Some s => count_true (duplicated s)
  | None => 0%Z
  end.

(** [max(0, 100 - total_issues / total_rows * 100)] rounded to two
    decimals. *)
Definition score_of (total_issues total_rows : Z) : Q :=
  round2 (max0 (100 - (inject_Z total_issues / inject_Z total_rows * 100))).

Lemma count_true_nonneg l : (0 <= count_true l)%Z.
Proof. unfold count_true. lia. Qed.

Lemma count_missing_nonneg s : (0 <= count_missing s)%Z.
Proof.
  unfold count_missing.
  pose proof (count_true_nonneg (map isna s)).
  pose proof (count_true_nonneg (map (fun v => bool_decide (v = Str "")) s)).
  lia.
Qed.

Lemma check_critical_fields_sum df fields :
  (check_critical_fields df fields).1 = sum_fields df count_missing fields.
Proof.
  unfold check_critical_fields.
  enough (Hgen : forall acc,
             (fold_left
                (fun acc field =>
                   match column df field with
                   | Some s =>
                       let missing := count_missing s in
                       if (0 <? missing)%Z
                       then ((acc.1 + missing)%Z,
                             (acc.2 ++ [PyStr.str_of_Z missing +:+ " records missing "
                                        +:+ field])%list)
                       else acc
                   | None => acc
                   end) fields acc).1
             = (acc.1 + sum_fields df count_missing fields)%Z).
  { rewrite Hgen. simpl. lia. }
  induction fields as [|f fields IH]; intros acc; simpl; [lia|].
  rewrite IH. destruct (column df f) as [s|]; [|lia].
  pose proof (count_missing_nonneg s).
  cbv zeta. destruct (0 <? count_missing s)%Z eqn:E; simpl; [lia|].
  apply Z.ltb_ge in E. lia.
Qed.

Section QualityFacts.
Context `{DateParser}.

Definition count_invalid_dates (s : list cell) : Z :=
  count_true (map (fun x => if falsy x then false
                            else match to_date x with
                                 | None => true
                                 | Some _ => false
                                 end) s).

Definition invalid_date_count (df : Frame cell) (entity_type : string) : Z :=
  sum_fields df count_invalid_dates (date_fields entity_type).

Lemma check_date_fields_sum df fields :
  (check_date_fields df fields).1 = sum_fields df count_invalid_dates fields.
Proof.
  unfold check_date_fields.
  enough (Hgen : forall acc,
             (fold_left
                (fun acc field =>
                   match column df field with
                   | Some s =>
                       let invalid := count_invalid_dates s in
                       ((acc.1 + invalid)%Z,
                        if (0 <? invalid)%Z
                        then (acc.2 ++ [PyStr.str_of_Z invalid +:+ " invalid "
                                        +:+ field +:+ " values"])%list
                        else acc.2)
                   | None => acc
                   end) fields acc).1
             = (acc.1 + sum_fields df count_invalid_dates fields)%Z).
  { rewrite Hgen. simpl. lia. }
  induction fields as [|f fields IH]; intros acc; simpl; [lia|].
  rewrite IH. destruct (column df f) as [s|]; simpl; lia.
Qed.

(** The counts [validate_data_quality] reports are the four counts above,
    and its score is [score_of] their sum. *)
Lemma validate_data_quality_counts df entity_type :
  nrows df <> 0%nat ->
  let m := validate_data_quality df entity_type in
  total_rows m = Z.of_nat (nrows df)
  /\ missing_critical_fields m = missing_count df entity_type
  /\ invalid_dates m = invalid_date_count df entity_type
  /\ invalid_emails m = invalid_email_count df entity_type
  /\ duplicate_records m = duplicate_count df
  /\ quality_score m =
     score_of (missing_critical_fields m + invalid_dates m + invalid_emails m
               + duplicate_records m) (total_rows m).
Proof.
  intros Hn. unfold validate_data_quality.
  replace (Z.of_nat (nrows df) =? 0)%Z with false
    by (symmetry; apply Z.eqb_neq; lia).
  unfold missing_count, invalid_date_count, invalid_email_count, duplicate_count,
    critical_fields, date_fields.
  destruct (String.eqb entity_type "clients") eqn:Ec.
  - assert (Hm : mem_str entity_type ["patents"; "trademarks"; "copyrights"] = false).
    { apply String.eqb_eq in Ec. now subst. }
    rewrite Hm.
    destruct (column df "email") as [s|] eqn:Ee; cbv zeta; cbn [quality_score
      total_rows missing_critical_fields invalid_dates invalid_emails
      duplicate_records fst snd];
      rewrite check_critical_fields_sum; repeat split; reflexivity.
  - destruct (mem_str entity_type _) eqn:Em; cbv zeta; cbn [quality_score
      total_rows missing_critical_fields invalid_dates invalid_emails
      duplicate_records fst snd].
    + rewrite check_critical_fields_sum, check_date_fields_sum.
      repeat split; reflexivity.
    + repeat split; reflexivity.
Qed.

Lemma validate_data_quality_empty df entity_type :
  nrows df = 0%nat ->
  let m := validate_data_quality df entity_type in
  total_rows m = 0%Z /\ quality_score m = 0%Q /\ issues m = [].
Proof.
  intros Hn. unfold validate_data_quality. rewrite Hn. simpl. auto.
Qed.

End QualityFacts.


(** *** Rounding is monotone *)

Lemma round_half_even_spec q :
  let k := round_half_even q in
  let n := Qnum q in
  let d := Zpos (Qden q) in
  (- d <= 2 * (n - k * d) <= d)%Z
  /\ (2 * (n - k * d) = d -> Z.even k = true)%Z
  /\ (2 * (n - k * d) = - d -> Z.even k = true)%Z.
Proof.
  unfold round_half_even. cbv zeta.
  set (n := Qnum q). set (d := Zpos (Qden q)).
  assert (Hd : (0 < d)%Z) by (unfold d; lia).
  pose proof (Z.div_mod n d ltac:(lia)) as Hdm.
  pose proof (Z.mod_pos_bound n d Hd) as Hr.
  set (f := (n / d)%Z) in *. set (r := (n mod d)%Z) in *.
  assert (Hn : (n - f * d = r)%Z) by lia.
  destruct (2 * r <? d)%Z eqn:E1.
  { apply Z.ltb_lt in E1. rewrite Hn. repeat split; lia. }
  apply Z.ltb_ge in E1.
  destruct (d <? 2 * r)%Z eqn:E2.
  { apply Z.ltb_lt in E2.
    replace (n - (f + 1) * d)%Z with (r - d)%Z by lia. repeat split; lia. }
  apply Z.ltb_ge in E2.
  destruct (Z.even f) eqn:E3.
  { rewrite Hn. repeat split; auto; lia. }
  replace (n - (f + 1) * d)%Z with (r - d)%Z by lia.
  assert (Hev : Z.even (f + 1) = true).
  { rewrite Z.even_add, E3. reflexivity. }
  repeat split; auto; lia.
Qed.

Lemma round_half_even_mono q1 q2 :
  (q1 <= q2)%Q -> (round_half_even q1 <= round_half_even q2)%Z.
Proof.
  intros Hle. unfold Qle in Hle.
  destruct (round_half_even_spec q1) as ((Hlo1 & Hhi1) & Hup1 & Hdn1).
  destruct (round_half_even_spec q2) as ((Hlo2 & Hhi2) & Hup2 & Hdn2).
  set (k1 := round_half_even q1) in *. set (k2 := round_half_even q2) in *.
  set (n1 := Qnum q1) in *. set (n2 := Qnum q2) in *.
  set (d1 := Zpos (Qden q1)) in *. set (d2 := Zpos (Qden q2)) in *.
  assert (Hd1 : (0 < d1)%Z) by (unfold d1; lia).
  assert (Hd2 : (0 < d2)%Z) by (unfold d2; lia).
  destruct (Z_le_gt_dec k1 k2) as [|Hgt]; [assumption|exfalso].
  (* 2 n1 >= (2 k1 - 1) d1 and 2 n2 <= (2 k2 + 1) d2 *)
  assert (Ha : ((2 * k1 - 1) * d1 * d2 <= 2 * n1 * d2)%Z) by nia.
  assert (Hb : (2 * n2 * d1 <= (2 * k2 + 1) * d2 * d1)%Z) by nia.
  assert (Hc : ((2 * k2 + 1) * (d1 * d2) <= (2 * k1 - 1) * (d1 * d2))%Z).
  { apply Z.mul_le_mono_nonneg_r; nia. }
  assert (Hk : (k1 = k2 + 1)%Z) by nia.
  assert (He1 : (2 * (n1 - k1 * d1) = - d1)%Z) by nia.
  assert (He2 : (2 * (n2 - k2 * d2) = d2)%Z) by nia.
  specialize (Hdn1 He1). specialize (Hup2 He2).
  rewrite Hk, Z.even_add, Hup2 in Hdn1. discriminate Hdn1.
Qed.

Lemma round2_mono q1 q2 : (q1 <= q2)%Q -> (round2 q1 <= round2 q2)%Q.
Proof.
  intros Hle. unfold round2, Qle. simpl.
  apply Z.mul_le_mono_nonneg_r; [lia|].
  apply round_half_even_mono.
  apply Qmult_le_compat_r; [exact Hle|discriminate].
Qed.

Lemma max0_mono q1 q2 : (q1 <= q2)%Q -> (max0 q1 <= max0 q2)%Q.
Proof.
  intros Hle. unfold max0.
  destruct (Qle_bool 0 q1) eqn:E1, (Qle_bool 0 q2) eqn:E2.
  - exact Hle.
  - apply Qle_bool_iff in E1.
    assert (Hq : (0 <= q2)%Q) by (eapply Qle_trans; eauto).
    apply Qle_bool_iff in Hq. congruence.
  - now apply Qle_bool_iff.
  - apply Qle_refl.
Qed.

Lemma max0_nonpos q : (q <= 0)%Q -> (max0 q == 0)%Q.
Proof.
  intros Hq. unfold max0. destruct (Qle_bool 0 q) eqn:E; [|reflexivity].
  apply Qle_bool_iff in E. now apply Qle_antisym.
Qed.

Lemma round2_zero q : (q == 0)%Q -> (round2 q == 0)%Q.
Proof.
  intros Hq.
  assert (H0 : (round2 0 == 0)%Q) by reflexivity.
  apply Qle_antisym.
  - apply Qle_trans with (round2 0); [|rewrite H0; apply Qle_refl].
    apply round2_mono. rewrite Hq. apply Qle_refl.
  - apply Qle_trans with (round2 0); [rewrite H0; apply Qle_refl|].
    apply round2_mono. rewrite Hq. apply Qle_refl.
Qed.

Lemma max0_nonneg q : (0 <= max0 q)%Q.
Proof.
  unfold max0. destruct (Qle_bool 0 q) eqn:E.
  - now apply Qle_bool_iff.
  - apply Qle_refl.
Qed.

Lemma ratio_le (a b c d : Z) :
  (0 < b)%Z -> (0 < d)%Z -> (a * d <= c * b)%Z ->
  (inject_Z a / inject_Z b <= inject_Z c / inject_Z d)%Q.
Proof.
  intros Hb Hd Hle.
  assert (Hb' : (0 < inject_Z b)%Q) by (unfold Qlt; simpl; lia).
  assert (Hd' : (0 < inject_Z d)%Q) by (unfold Qlt; simpl; lia).
  apply Qle_shift_div_l; [exact Hd'|].
  assert (E : (inject_Z a / inject_Z b * inject_Z d
               == inject_Z a * inject_Z d / inject_Z b)%Q).
  { field. intros E0. rewrite E0 in Hb'. now apply Qlt_irrefl in Hb'. }
  rewrite E. apply Qle_shift_div_r; [exact Hb'|].
  rewrite <- !inject_Z_mult, <- Zle_Qle. exact Hle.
Qed.

(** One more row with at least one more issue never raises the score. *)
Lemma score_of_mono (i i' n : Z) :
  (1 <= n)%Z -> (i + 1 <= i')%Z ->
  (score_of i' (n + 1) <= score_of i n)%Q.
Proof.
  intros Hn Hi. unfold score_of. apply round2_mono.
  destruct (Z_le_gt_dec i n) as [Hle|Hgt].
  - apply max0_mono.
    assert (Hr : (inject_Z i / inject_Z n <= inject_Z i' / inject_Z (n + 1))%Q)
      by (apply ratio_le; nia).
    lra.
  - rewrite max0_nonpos; [apply max0_nonneg|].
    assert (Hr : (inject_Z 1 / inject_Z 1 <= inject_Z i' / inject_Z (n + 1))%Q)
      by (apply ratio_le; lia).
    assert (E1 : (inject_Z 1 / inject_Z 1 == 1)%Q) by reflexivity.
    rewrite E1 in Hr. lra.
Qed.

Lemma score_of_first_row (i' : Z) : (1 <= i')%Z -> (score_of i' 1 == 0)%Q.
Proof.
  intros Hi. unfold score_of. apply round2_zero, max0_nonpos.
  assert (Hr : (inject_Z 1 / inject_Z 1 <= inject_Z i' / inject_Z 1)%Q)
    by (apply ratio_le; lia).
  assert (E1 : (inject_Z 1 / inject_Z 1 == 1)%Q) by reflexivity.
  rewrite E1 in Hr. lra.
Qed.

(** *** Adding a row *)

Definition insert_at {A} (i : nat) (x : A) (l : list A) : list A :=
  (take i l ++ x :: drop i l)%list.

(** The frame with the row [r] (a value for every column) added at
    position [i]; at the end when [i] is [nrows df] or more. *)
Definition insert_row (i : nat) (r : string -> cell) (df : Frame cell) : Frame cell :=
  mkFrame (S (nrows df))
          (map (fun kv => (kv.1, insert_at i (r kv.1) kv.2)) (cols df)).

(** The row lacks a critical field of the entity: a critical field that
    is a column of the frame holds NaN or the empty string. *)
Definition missing_critical (df : Frame cell) (entity_type : string)
  (r : string -> cell) : Prop :=
  exists f, In f (critical_fields entity_type) /\ has_column df f = true
            /\ (r f = NaN \/ r f = Str "").

Lemma column_insert_row i r df c :
  column (insert_row i r df) c = insert_at i (r c) <$> column df c.
Proof.
  unfold column, insert_row. simpl.
  induction (cols df) as [|[k v] l IH]; [reflexivity|].
  simpl. destruct (String.eqb k c) eqn:E; [|exact IH].
  apply String.eqb_eq in E. now subst.
Qed.

Lemma count_true_cons b l :
  count_true (b :: l) = ((if b then 1 else 0) + count_true l)%Z.
Proof.
  unfold count_true. rewrite filter_cons.
  destruct (decide (b = true)) as [->|Hb]; simpl length.
  - lia.
  - destruct b; [congruence|lia].
Qed.

Lemma count_true_app l1 l2 :
  count_true (l1 ++ l2) = (count_true l1 + count_true l2)%Z.
Proof.
  unfold count_true. rewrite filter_app, length_app. lia.
Qed.

Lemma count_true_insert {A} (p : A -> bool) i x l :
  count_true (map p (insert_at i x l))
  = (count_true (map p l) + (if p x then 1 else 0))%Z.
Proof.
  unfold insert_at.
  rewrite <- (take_drop i l) at 3.
  rewrite !map_app, !count_true_app. simpl map. rewrite count_true_cons. lia.
Qed.

Lemma duplicated_from_app {A} `{EqDecision A} (seen l1 l2 : list A) :
  duplicated_from seen (l1 ++ l2)
  = (duplicated_from seen l1 ++ duplicated_from (rev l1 ++ seen) l2)%list.
Proof.
  revert seen. induction l1 as [|x l1 IH]; intros seen; [reflexivity|].
  simpl. rewrite IH. rewrite <- app_assoc. reflexivity.
Qed.

Lemma duplicated_from_mono {A} `{EqDecision A} (seen seen' l : list A) :
  (forall x, x ∈ seen -> x ∈ seen') ->
  (count_true (duplicated_from seen l) <= count_true (duplicated_from seen' l))%Z.
Proof.
  revert seen seen'. induction l as [|x l IH]; intros seen seen' Hsub.
  - simpl. lia.
  - simpl. rewrite !count_true_cons.
    assert (Hl : (count_true (duplicated_from (x :: seen) l)
                  <= count_true (duplicated_from (x :: seen') l))%Z).
    { apply IH. intros y Hy. apply elem_of_cons in Hy as [->|Hy].
      - apply elem_of_cons. now left.
      - apply elem_of_cons. right. now apply Hsub. }
    destruct (bool_decide (x ∈ seen)) eqn:E1, (bool_decide (x ∈ seen')) eqn:E2;
      try lia.
    apply bool_decide_eq_true in E1. apply Hsub in E1.
    apply bool_decide_eq_false in E2. contradiction.
Qed.

Lemma duplicated_insert {A} `{EqDecision A} i (x : A) (l : list A) :
  (count_true (duplicated l) <= count_true (duplicated (insert_at i x l)))%Z.
Proof.
  unfold duplicated, insert_at.
  rewrite <- (take_drop i l) at 1.
  rewrite !duplicated_from_app, !count_true_app.
  simpl. rewrite count_true_cons.
  assert (Hm : (count_true (duplicated_from (rev (take i l) ++ []) (drop i l))
                <= count_true (duplicated_from (x :: rev (take i l) ++ []) (drop i l)))%Z).
  { apply duplicated_from_mono. intros y Hy. apply elem_of_cons. now right. }
  destruct (bool_decide _); lia.
Qed.

Lemma count_missing_insert i x s :
  count_missing (insert_at i x s)
  = (count_missing s + (if isna x then 1 else 0)
     + (if bool_decide (x = Str "") then 1 else 0))%Z.
Proof.
  unfold count_missing. rewrite !count_true_insert. lia.
Qed.

Lemma sum_fields_insert_le df (count : list cell -> Z) i r fields :
  (forall x s, count s <= count (insert_at i x s))%Z ->
  (sum_fields df count fields <= sum_fields (insert_row i r df) count fields)%Z.
Proof.
  intros Hc. induction fields as [|f fields IH]; simpl; [lia|].
  rewrite column_insert_row.
  destruct (column df f) as [s|]; simpl; [|lia].
  specialize (Hc (r f) s). lia.
Qed.

Lemma missing_count_insert df entity_type i r :
  missing_critical df entity_type r ->
  (missing_count df entity_type + 1
   <= missing_count (insert_row i r df) entity_type)%Z.
Proof.
  intros (f & Hin & Hcol & Hr). unfold missing_count.
  induction (critical_fields entity_type) as [|g fields IH]; [destruct Hin|].
  simpl. rewrite column_insert_row.
  assert (Hmono : forall x s, (count_missing s <= count_missing (insert_at i x s))%Z).
  { intros x s. rewrite count_missing_insert.
    destruct (isna x), (bool_decide (x = Str "")); lia. }
  destruct Hin as [->|Hin].
  - unfold has_column in Hcol. destruct (column df f) as [s|]; [|discriminate].
    simpl. rewrite count_missing_insert.
    pose proof (sum_fields_insert_le df count_missing i r fields Hmono).
    assert (Hone : (1 <= (if isna (r f) then 1 else 0)
                    + (if bool_decide (r f = Str "") then 1 else 0))%Z).
    { destruct Hr as [->| ->]; simpl; lia. }
    lia.
  - specialize (IH Hin).
    destruct (column df g) as [s|]; simpl; [|lia].
    specialize (Hmono (r g) s). lia.
Qed.

Lemma count_true_le_length l : (count_true l <= Z.of_nat (length l))%Z.
Proof.
  induction l as [|b l IH]; [unfold count_true; simpl; lia|].
  rewrite count_true_cons. simpl length. destruct b; lia.
Qed.

Lemma wf_column {A} (df : Frame A) c s :
  wf_frame df -> column df c = Some s -> length s = nrows df.
Proof.
  unfold wf_frame, column. induction (cols df) as [|[k v] l IH]; [discriminate|].
  intros Hwf. apply Forall_cons in Hwf as [Hv Hl]. simpl.
  destruct (String.eqb k c); [intros [= <-]; exact Hv|now apply IH].
Qed.

Lemma length_insert_at {A} i (x : A) l : length (insert_at i x l) = S (length l).
Proof.
  unfold insert_at. rewrite length_app. simpl.
  rewrite length_take, length_drop. lia.
Qed.

Lemma wf_insert_row i r df : wf_frame df -> wf_frame (insert_row i r df).
Proof.
  unfold wf_frame, insert_row. simpl. intros Hwf.
  apply Forall_map. eapply Forall_impl; [exact Hwf|].
  intros [k v] Hv. simpl in *. now rewrite length_insert_at, Hv.
Qed.

Lemma sum_fields_nonneg df (count : list cell -> Z) fields :
  (forall s, 0 <= count s)%Z -> (0 <= sum_fields df count fields)%Z.
Proof.
  intros Hc. induction fields as [|f fields IH]; simpl; [lia|].
  destruct (column df f) as [s|]; [specialize (Hc s)|]; lia.
Qed.

Lemma duplicate_count_insert i r df :
  (duplicate_count df <= duplicate_count (insert_row i r df))%Z.
Proof.
  unfold duplicate_count. rewrite column_insert_row.
  destruct (column df "external_ref") as [s|]; simpl; [|lia].
  apply duplicated_insert.
Qed.

Lemma invalid_email_count_insert i r df entity_type :
  (invalid_email_count df entity_type
   <= invalid_email_count (insert_row i r df) entity_type)%Z.
Proof.
  unfold invalid_email_count. destruct (String.eqb entity_type "clients"); [|lia].
  rewrite column_insert_row.
  destruct (column df "email") as [s|]; simpl; [|lia].
  unfold count_valid_emails. rewrite count_true_insert.
  destruct (if falsy (r "email") then false else _); lia.
Qed.

Lemma invalid_email_count_nonneg df entity_type :
  wf_frame df -> (0 <= invalid_email_count df entity_type)%Z.
Proof.
  intros Hwf. unfold invalid_email_count.
  destruct (String.eqb entity_type "clients"); [|lia].
  destruct (column df "email") as [s|] eqn:E; [|lia].
  rewrite <- (wf_column df _ _ Hwf E). unfold count_valid_emails.
  pose proof (count_true_le_length
                (map (fun x => if falsy x then false
                               else negb (String.eqb (parse_email x) "")) s)) as Hl.
  rewrite length_map in Hl. lia.
Qed.

Section Monotone.
Context `{DateParser}.

Lemma invalid_date_count_insert i r df entity_type :
  (invalid_date_count df entity_type
   <= invalid_date_count (insert_row i r df) entity_type)%Z.
Proof.
  unfold invalid_date_count. apply sum_fields_insert_le.
  intros x s. unfold count_invalid_dates. rewrite count_true_insert.
  destruct (if falsy x then false else _); lia.
Qed.

Lemma quality_score_insert_row df entity_type i r :
  wf_frame df ->
  missing_critical df entity_type r ->
  (quality_score (validate_data_quality (insert_row i r df) entity_type)
   <= quality_score (validate_data_quality df entity_type))%Q.
Proof.
  intros Hwf Hmiss.
  pose proof (missing_count_insert df entity_type i r Hmiss) as Hm.
  pose proof (invalid_date_count_insert i r df entity_type) as Hd.
  pose proof (invalid_email_count_insert i r df entity_type) as He.
  pose proof (duplicate_count_insert i r df) as Hu.
  destruct (validate_data_quality_counts (insert_row i r df) entity_type
              ltac:(simpl; lia)) as (Hr' & Hm' & Hd' & He' & Hu' & Hs').
  rewrite Hs', Hr', Hm', Hd', He', Hu'. clear Hs' Hr' Hm' Hd' He' Hu'.
  cbn [nrows insert_row].
  destruct (Nat.eq_dec (nrows df) 0) as [Hz|Hnz].
  - destruct (validate_data_quality_empty df entity_type Hz) as (_ & -> & _).
    rewrite Hz. change (Z.of_nat 1) with 1%Z.
    rewrite score_of_first_row; [apply Qle_refl|].
    pose proof (sum_fields_nonneg df count_missing (critical_fields entity_type)
                  count_missing_nonneg) as Hm0.
    fold (missing_count df entity_type) in Hm0.
    pose proof (sum_fields_nonneg (insert_row i r df) count_invalid_dates
                  (date_fields entity_type)
                  (fun s => count_true_nonneg _)) as Hd0.
    fold (invalid_date_count (insert_row i r df) entity_type) in Hd0.
    pose proof (invalid_email_count_nonneg (insert_row i r df) entity_type
                  (wf_insert_row i r df Hwf)) as He0.
    assert (Hu0 : (0 <= duplicate_count (insert_row i r df))%Z).
    { unfold duplicate_count. destruct (column _ _); [apply count_true_nonneg|lia]. }
    lia.
  - destruct (validate_data_quality_counts df entity_type Hnz)
      as (Hr0 & Hm0 & Hd0 & He0 & Hu0 & Hs0).
    rewrite Hs0, Hr0, Hm0, Hd0, He0, Hu0.
    rewrite Nat2Z.inj_succ, <- Z.add_1_r.
    apply score_of_mono; lia.
Qed.

End Monotone.

(** C7: adding one row that lacks a critical field to a data set, at any
    position, never increases its quality score. *)
Theorem quality_score_monotone `{DateParser} (df : Frame cell)
  (entity_type : string) (i : nat) (r : string -> cell) :
  wf_frame df ->
  missing_critical df entity_type r ->
  (quality_score (validate_data_quality (insert_row i r df) entity_type)
   <= quality_score (validate_data_quality df entity_type))%Q.
Proof. apply quality_score_insert_row. Qed.

(** ** The validation report *)

Section Report.
Context `{DateParser}.
Variable today : string.

Lemma validate_file_missing (files : gmap string csv_file) file_path entity_type :
  files !! file_path = None ->
  validate_file today files file_path entity_type
  = ResultError entity_type file_path ("File not found: " ++ file_path) 0.
Proof. intros Hm. unfold validate_file. now rewrite Hm. Qed.

Lemma validate_loop_results (files : gmap string csv_file) :
  (validate_loop today files).1
  = map (fun fe => (fe.2, validate_file today files fe.1 fe.2)) files_to_validate.
Proof. reflexivity. Qed.

Lemma validate_all_results (files : gmap string csv_file) :
  results (validate_all today files)
  = map (fun fe => (fe.2, validate_file today files fe.1 fe.2)) files_to_validate.
Proof.
  unfold validate_all.
  pose proof (validate_loop_results files) as Hl.
  destruct (validate_loop today files) as [rs scores]. simpl in *. now subst.
Qed.

(** Taking a file away cannot make the referential check raise. *)
Lemma referential_delete (files : gmap string csv_file) gone df entity_type :
  is_Some (_validate_referential_integrity files df entity_type) ->
  is_Some (_validate_referential_integrity (delete gone files) df entity_type).
Proof.
  unfold _validate_referential_integrity.
  rewrite lookup_delete.
  destruct (decide (gone = "clients.csv")) as [->|Hne]; [|trivial].
  intros _. simpl. eauto.
Qed.

Lemma validate_file_success (files : gmap string csv_file) file_path entity_type :
  status (validate_file today files file_path entity_type) = "success" <->
  exists df,
    files !! file_path = Some (Csv df)
    /\ is_Some (_validate_business_rules today df entity_type)
    /\ is_Some (_validate_referential_integrity files df entity_type).
Proof.
  unfold validate_file.
  destruct (files !! file_path) as [[|df]|]; simpl.
  - split; [discriminate|]. intros (df & [=] & _).
  - destruct (_validate_business_rules today df entity_type) as [b|] eqn:Eb; simpl.
    + destruct (_validate_referential_integrity files df entity_type) as [r|] eqn:Er;
        simpl.
      * split; [|reflexivity]. intros _. exists df. rewrite Eb, Er. eauto.
      * split; [discriminate|]. intros (df' & [= <-] & _ & Hr).
        rewrite Er in Hr. now destruct Hr.
    + split; [discriminate|]. intros (df' & [= <-] & Hb & _).
      rewrite Eb in Hb. now destruct Hb.
  - split; [discriminate|]. intros (df & [=] & _).
Qed.

Lemma validate_file_delete (files : gmap string csv_file) gone file_path entity_type :
  file_path <> gone ->
  status (validate_file today files file_path entity_type) = "success" ->
  status (validate_file today (delete gone files) file_path entity_type) = "success".
Proof.
  intros Hne Hs. apply validate_file_success in Hs as (df & Hf & Hb & Hr).
  apply validate_file_success. exists df.
  rewrite lookup_delete_ne by congruence.
  split; [exact Hf|]. split; [exact Hb|]. now apply referential_delete.
Qed.

End Report.

(** C9: when the file of an entity is absent [validate_file] returns a
    result with status ["error"] and quality score 0; [validate_all] holds a
    result for each of the four entity types, the one [validate_file]
    returns for it; and an entity whose validation succeeds still succeeds
    when the file of another entity is taken away. *)
Theorem missing_file_is_not_fatal `{DateParser} (today : string)
  (files : gmap string csv_file) :
  (forall file_path entity_type,
      files !! file_path = None ->
      let r := validate_file today files file_path entity_type in
      status r = "error" /\ get_quality_score r = Some 0%Q
      /\ get_overall_score r = None)
  /\ results (validate_all today files)
     = [ ("clients", validate_file today files "clients.csv" "clients");
         ("patents", validate_file today files "patents.csv" "patents");
         ("trademarks", validate_file today files "trademarks.csv" "trademarks");
         ("deadlines", validate_file today files "deadlines.csv" "deadlines") ]
  /\ entities_validated (validate_all today files) = 4%nat
  /\ (forall gone file_path entity_type,
         file_path <> gone ->
         status (validate_file today files file_path entity_type) = "success" ->
         status (validate_file today (delete gone files) file_path entity_type)
         = "success").
Proof.
  split.
  { intros file_path entity_type Hm. cbv zeta.
    rewrite (validate_file_missing today files _ _ Hm). auto. }
  split; [apply validate_all_results|].
  split.
  { unfold validate_all.
    pose proof (validate_loop_results today files) as Hl.
    destruct (validate_loop today files) as [rs scores]. simpl in *.
    now rewrite Hl. }
  apply validate_file_delete.
Qed.

(** ** Sample data *)

Definition sample_clients : Frame cell :=
  mkFrame 4
    [ ("external_ref", [Str "CL-0001"; Str "CL-0002"; Str "CL-0001"; Str "CL-0003"]);
      ("client_id", [Str "CL-0001"; Str "CL-0002"; Str "CL-0001"; Str "CL-0003"]);
      ("client_name", [Str "Smith, Mia"; Str "Aarav Singh"; Str "Smith, Mia";
                       Str "Acme Corp"]);
      ("email", [Str "mia@example.com"; Str "aarav_example.com";
                 Str "mia@example.com"; Str "legal@acme.com"]);
      ("country", [Str "United States"; Str "India"; Str "USA"; NaN]);
      ("created_on", [Str "2021-03-04"; Str "03/04/2021"; NaN; Str "00/00/0000"]) ].

(** A row without a client name. *)
Definition nameless_row (c : string) : cell :=
  if String.eqb c "client_name" then NaN else Str "x".

(** Twenty client rows whose e-mail is not an address. *)
Definition bad_clients : Frame cell :=
  mkFrame 20
    [ ("client_id", repeat (Str "CL-0001") 20);
      ("email", repeat (Str "not-an-email") 20) ].

Definition one_patent : Frame cell :=
  mkFrame 1
    [ ("patent_id", [Str "PT-0001"]); ("client_id", [Str "CL-0001"]);
      ("title", [Str "Widget"]); ("status", [Str "Issued"]) ].

Definition two_files : gmap string csv_file :=
  <["clients.csv" := Csv bad_clients]> (<["patents.csv" := Csv one_patent]> ∅).


Lemma quality_score_monotone_witness :
  wf_frame sample_clients
  /\ missing_critical sample_clients "clients" nameless_row
  /\ (quality_score (@validate_data_quality simple_parser
                       (insert_row 4 nameless_row sample_clients) "clients")
      <= quality_score (@validate_data_quality simple_parser sample_clients "clients"))%Q.
Proof.
  assert (Hwf : wf_frame sample_clients).
  { unfold wf_frame, sample_clients. simpl. repeat constructor. }
  assert (Hm : missing_critical sample_clients "clients" nameless_row).
  { exists "client_name". simpl. auto. }
  split; [exact Hwf|]. split; [exact Hm|].
  exact (@quality_score_monotone simple_parser sample_clients "clients" 4
           nameless_row Hwf Hm).
Defined.

Lemma missing_file_is_not_fatal_witness :
  two_files !! "deadlines.csv" = None
  /\ status (@validate_file simple_parser "2026-01-01" two_files
               "deadlines.csv" "deadlines") = "error"
  /\ status (@validate_file simple_parser "2026-01-01"
               (delete "clients.csv" two_files) "patents.csv" "patents") = "success".
Proof.
  destruct (@missing_file_is_not_fatal simple_parser "2026-01-01" two_files)
    as (Hmiss & _ & _ & Hdel).
  split; [reflexivity|]. split.
  - apply (Hmiss "deadlines.csv" "deadlines"). reflexivity.
  - apply (Hdel "clients.csv" "patents.csv" "patents"); [discriminate|].
    vm_compute. reflexivity.
Defined.

(** ** The system score *)

Definition mean (l : list Q) : Q :=
  match l with
  | [] => 0%Q
  | _ => (Qsum l / inject_Z (Z.of_nat (length l)))%Q
  end.

(** The overall scores of the entities whose validation was computed. *)
Definition computed_scores (rs : list (string * validation_result)) : list Q :=
  omap (fun r => get_overall_score r.2) rs.

(** What [validate_all] computes: the mean of the computed scores that are
    not zero. *)
Lemma validate_all_system_score `{DateParser} (today : string)
  (files : gmap string csv_file) :
  system_quality_score (validate_all today files)
  = round2 (mean (List.filter (fun s => negb (Qeq_bool s 0))
                    (computed_scores (results (validate_all today files))))).
Proof.
  rewrite validate_all_results.
  unfold validate_all, validate_loop, files_to_validate, computed_scores.
  cbn [fold_left map fst snd].
  generalize (validate_file today files "clients.csv" "clients") as r1.
  generalize (validate_file today files "patents.csv" "patents") as r2.
  generalize (validate_file today files "trademarks.csv" "trademarks") as r3.
  generalize (validate_file today files "deadlines.csv" "deadlines") as r4.
  intros r4 r3 r2 r1.
  destruct r1 as [| ? ? ? ? ? ? s1], r2 as [| ? ? ? ? ? ? s2],
    r3 as [| ? ? ? ? ? ? s3], r4 as [| ? ? ? ? ? ? s4];
    cbn [get_overall_score app omap list_omap fst snd List.filter
           system_quality_score];
    repeat match goal with
           | |- context [Qeq_bool ?s 0] => destruct (Qeq_bool s 0)
           end;
    reflexivity.
Qed.

(** C5 fails on the code: the clients file validates with overall score 0
    and is left out of the mean, which is 100 (the patents alone) and not
    the mean 50 of the two computed scores. *)
Theorem validate_all_skips_zero_score :
  let summary := @validate_all simple_parser "2026-01-01" two_files in
  map (fun r => (r.1, status r.2, get_overall_score r.2)) (results summary)
  = [ ("clients", "success", Some (0 # 100)%Q);
      ("patents", "success", Some (10000 # 100)%Q);
      ("trademarks", "error", None); ("deadlines", "error", None) ]
  /\ system_quality_score summary = (10000 # 100)%Q
  /\ round2 (mean (computed_scores (results summary))) = (5000 # 100)%Q
  /\ ~ (system_quality_score summary
        == round2 (mean (computed_scores (results summary))))%Q.
Proof.
  vm_compute. repeat split; discriminate.
Qed.

(** ** The transformed frames *)

Definition sample_patents : Frame cell :=
  mkFrame 2
    [ ("patent_id", [Str "PT-0001"; Str " PT-0001"]);
      ("client_id", [Str "CL-0001"; Str "CL-0009"]);
      ("title", [Str "Widget"; NaN]);
      ("filing_date", [Str "03/04/2021"; Str "n/a"]);
      ("grant_date", [Str "2023-06-30"; NaN]);
      ("jurisdiction", [Str "USA"; Str "Mars"]);
      ("status", [Str "Issued"; Str "ISSUED "]) ].

Definition sample_trademarks : Frame cell :=
  mkFrame 2
    [ ("tm_id", [Str "TM-0001"; Str "TM-0001"]);
      ("client_id", [Str "CL-0001"; Str "CL-0002"]);
      ("mark_text", [Str "ACME"; NaN]);
      ("class", [Str "35; 9, 9"; Str "class 99"]);
      ("filing_date", [Str "5/1/2024"; Str "01/01/1900"]);
      ("status", [Str "Registered"; NaN]) ].

Definition sample_deadlines : Frame cell :=
  mkFrame 2
    [ ("dl_id", [Str "DL-0001"; Str "DL-0001"]);
      ("related_type", [Str "Patent"; Str "trademark"]);
      ("related_table", [Str "patents"; Str "trademarks"]);
      ("related_id", [Str "PT-0001"; Str "TM-0001"]);
      ("due_date", [Str "12/11/2026"; Str "soon"]);
      ("description", [Str "Renewal"; NaN]) ].

Definition sample_jurisdictions : gmap string string :=
  <["USA" := "US"]> (<["EPO" := "EP"]> ∅).

Definition sample_client_map : gmap string Z := <["CL-0001" := 1%Z]> ∅.

(** The values of the [external_ref] column of a transformed frame. *)
Definition external_refs (out : option (Frame out_cell)) : option (list out_cell) :=
  out ≫= (fun o => column o "external_ref").

Lemma keep_first_NoDup {A} `{EqDecision A} (seen l : list A) :
  NoDup (keep_where (map negb (duplicated_from seen l)) l)
  /\ forall x, x ∈ keep_where (map negb (duplicated_from seen l)) l ->
               (x ∉ seen) /\ (x ∈ l).
Proof.
  revert seen. induction l as [|y l IH]; intros seen.
  - simpl. split; [constructor|]. intros x Hx. now apply elem_of_nil in Hx.
  - simpl. destruct (IH (y :: seen)) as [Hnd Hin].
    destruct (bool_decide (y ∈ seen)) eqn:E; simpl.
    + split; [exact Hnd|]. intros x Hx. destruct (Hin x Hx) as [Hns Hl].
      split; [|now apply elem_of_cons; right].
      intros Hs. apply Hns. apply elem_of_cons. now right.
    + apply bool_decide_eq_false in E. split.
      * constructor; [|exact Hnd]. intros Hy. destruct (Hin y Hy) as [Hns _].
        apply Hns. apply elem_of_cons. now left.
      * intros x Hx. apply elem_of_cons in Hx as [->|Hx].
        { split; [exact E|apply elem_of_cons; now left]. }
        destruct (Hin x Hx) as [Hns Hl].
        split; [|now apply elem_of_cons; right].
        intros Hs. apply Hns. apply elem_of_cons. now right.
Qed.

Lemma keep_where_elem {A} (mask : list bool) (l : list A) x :
  x ∈ keep_where mask l -> x ∈ l.
Proof.
  revert mask. induction l as [|y l IH]; intros [|b mask]; simpl;
    try (intros Hx; now apply elem_of_nil in Hx).
  destruct b.
  - intros Hx. apply elem_of_cons in Hx as [->|Hx]; apply elem_of_cons; eauto.
  - intros Hx. apply elem_of_cons. right. eauto.
Qed.

Section Shapes.
Context `{DateParser}.
Variable jurisdiction_map : gmap string string.

(** The frame [transform_clients] builds, before and after the duplicates
    are dropped. *)
Lemma transform_clients_shape df out :
  transform_clients df = Some out ->
  exists ids names country created,
    column df "client_id" = Some ids
    /\ column df "client_name" = Some names
    /\ column df "country" = Some country
    /\ column df "created_on" = Some created
    /\ let keys := map text (astype_str_strip ids) in
       let mask := map negb (duplicated keys) in
       out = mkFrame (length (keep_where mask keys))
               [ ("external_ref", keep_where mask keys);
                 ("name", keep_where mask
                            (map (fun v => let r := split_name v in
                                           NameDict (first_name r) (last_name r))
                                 names));
                 ("email", keep_where mask (get_or_blank df "email" (length keys)));
                 ("phone", keep_where mask (get_or_blank df "phone" (length keys)));
                 ("address", keep_where mask (get_or_blank df "address" (length keys)));
                 ("country_code", keep_where mask
                                    (map (fun v => of_opt_str (iso2 v)) country));
                 ("created_on", keep_where mask
                                  (map (fun v => of_opt_str (to_date v)) created)) ].
Proof.
  unfold transform_clients.
  destruct (column df "client_id") as [ids|]; [|discriminate].
  destruct (column df "client_name") as [names|]; [|discriminate].
  destruct (column df "country") as [country|]; [|discriminate].
  destruct (column df "created_on") as [created|]; [|discriminate].
  intros [= <-]. exists ids, names, country, created.
  repeat split; reflexivity.
Qed.


End Shapes.

(** C1 fails on the code for patents, trademarks and deadlines: two legacy
    rows with the same key both reach the transformed frame. Only
    [transform_clients] drops duplicates (it keeps the first row). *)
Theorem transform_keeps_duplicate_refs :
  external_refs (@transform_patents simple_parser sample_jurisdictions
                   sample_patents sample_client_map)
  = Some [text "PT-0001"; text "PT-0001"]
  /\ external_refs (@transform_trademarks simple_parser sample_trademarks
                      sample_client_map)
     = Some [text "TM-0001"; text "TM-0001"]
  /\ external_refs (@transform_deadlines simple_parser sample_deadlines ∅ ∅)
     = Some [text "DL-0001"; text "DL-0001"]
  /\ external_refs (@transform_clients simple_parser sample_clients)
     = Some [text "CL-0001"; text "CL-0002"; text "CL-0003"].
Proof. vm_compute. repeat split; reflexivity. Qed.

(** *** Canonical forms *)

(** An ISO-3166 alpha-2 code: two upper-case letters. *)
Definition is_alpha2 (s : string) : bool :=
  (String.length s =? 2)%nat && PyStr.all_chars PyStr.is_upper s.

Definition date_or_null (v : out_cell) : Prop :=
  v = PyNone \/ exists s, v = text s /\ is_iso_date s = true.

Definition country_or_null (v : out_cell) : Prop :=
  v = PyNone \/ exists s, v = text s /\ is_alpha2 s = true.

(** Strictly increasing (so without duplicates) Nice classes. *)
Definition class_list (v : out_cell) : Prop :=
  exists l, v = Classes l /\ StronglySorted Z.lt l
            /\ Forall (fun n => (1 <= n <= 45)%Z) l.

(** A value of the jurisdiction table, or null. *)
Definition mapped_or_null (m : gmap string string) (v : out_cell) : Prop :=
  v = PyNone \/ exists k s, m !! k = Some s /\ v = text s.

(** Every value of column [c] of the frame satisfies [P]. *)
Definition column_all (P : out_cell -> Prop) (out : Frame out_cell) (c : string)
  : Prop :=
  exists s, column out c = Some s /\ Forall P s.

Lemma assoc_In {A} c (l : list (string * A)) v : assoc c l = Some v -> In (c, v) l.
Proof.
  induction l as [|[k w] l IH]; [discriminate|]. simpl.
  destruct (String.eqb k c) eqn:E.
  - intros [= ->]. apply String.eqb_eq in E. subst. now left.
  - intros Hl. right. now apply IH.
Qed.

Lemma COUNTRY_MAP_alpha2 kv : In kv COUNTRY_MAP -> is_alpha2 kv.2 = true.
Proof.
  assert (Hall : forallb (fun kv => is_alpha2 kv.2) COUNTRY_MAP = true)
    by reflexivity.
  rewrite forallb_forall in Hall. apply Hall.
Qed.

Lemma iso2_alpha2 v s : iso2 v = Some s -> is_alpha2 s = true.
Proof.
  unfold iso2. destruct (falsy v); [discriminate|].
  destruct (String.eqb _ ""); [discriminate|].
  destruct (assoc _ COUNTRY_MAP) as [r|] eqn:Ea.
  { intros [= <-]. apply assoc_In in Ea. now apply COUNTRY_MAP_alpha2 in Ea. }
  destruct (find _ COUNTRY_MAP) as [kv|] eqn:Ef.
  { intros [= <-]. apply find_some in Ef as [Hin _].
    now apply COUNTRY_MAP_alpha2. }
  repeat (destruct (_ || _); [now intros [= <-]|]).
  discriminate.
Qed.

Lemma iso2_country_or_null v : country_or_null (of_opt_str (iso2 v)).
Proof.
  destruct (iso2 v) as [s|] eqn:E; [right|now left].
  exists s. split; [reflexivity|]. eapply iso2_alpha2, E.
Qed.

Lemma to_date_date_or_null `{DateParser} v : date_or_null (of_opt_str (to_date v)).
Proof.
  destruct (to_date v) as [s|] eqn:E; [right|now left].
  exists s. split; [reflexivity|]. eapply to_date_iso, E.
Qed.

Lemma insert_sorted_elem x y l : In y (insert_sorted x l) -> y = x \/ In y l.
Proof.
  induction l as [|z l IH]; simpl.
  - intros [<-|[]]. now left.
  - destruct (x <? z)%Z.
    + intros [<-|Hy]; auto.
    + destruct (x =? z)%Z; [auto|].
      intros [<-|Hy]; [right; now left|].
      destruct (IH Hy); auto.
Qed.

Lemma insert_sorted_sorted x l :
  StronglySorted Z.lt l -> StronglySorted Z.lt (insert_sorted x l).
Proof.
  induction 1 as [|z l Hs IH Hz]; simpl.
  - repeat constructor.
  - destruct (x <? z)%Z eqn:E1.
    + apply Z.ltb_lt in E1. constructor; [now constructor|].
      constructor; [exact E1|].
      rewrite Forall_forall in Hz |- *. intros y Hy.
      specialize (Hz y Hy). lia.
    + destruct (x =? z)%Z eqn:E2; [now constructor|].
      apply Z.ltb_ge in E1. apply Z.eqb_neq in E2.
      constructor; [exact IH|].
      rewrite Forall_forall in Hz |- *. intros y Hy.
      apply list_elem_of_In, insert_sorted_elem in Hy as [->|Hy]; [lia|].
      apply Hz. now apply list_elem_of_In.
Qed.

Lemma sorted_set_sorted l : StronglySorted Z.lt (sorted_set l).
Proof.
  induction l as [|x l IH]; simpl; [constructor|].
  now apply insert_sorted_sorted.
Qed.

Lemma sorted_set_elem y l : In y (sorted_set l) -> In y l.
Proof.
  induction l as [|x l IH]; simpl; [trivial|].
  intros Hy. apply insert_sorted_elem in Hy as [->|Hy]; auto.
Qed.

Lemma parse_classes_class_list v : class_list (Classes (parse_classes v)).
Proof.
  exists (parse_classes v). split; [reflexivity|].
  unfold parse_classes.
  destruct (isna v || falsy v); [split; constructor|].
  destruct (String.eqb _ ""); [split; constructor|].
  split; [apply sorted_set_sorted|].
  rewrite Forall_forall. intros n Hn.
  apply list_elem_of_In, sorted_set_elem in Hn.
  apply in_flat_map in Hn as (part & _ & Hn).
  assert (Hnice : nice_class n = true).
  { destruct (PyStr.isdigit _);
      apply list_elem_of_In, list_elem_of_filter in Hn as [Hn _]; exact Hn. }
  unfold nice_class in Hnice. apply andb_true_iff in Hnice as [H1 H2].
  apply Z.leb_le in H1, H2. lia.
Qed.

Section Canonical.
Context `{DateParser}.
Variable jurisdiction_map : gmap string string.

Lemma transform_patents_shape df client_map out :
  transform_patents jurisdiction_map df client_map = Some out ->
  exists ids clients titles filing grant jur,
    column df "patent_id" = Some ids
    /\ column df "filing_date" = Some filing
    /\ column df "grant_date" = Some grant
    /\ column df "jurisdiction" = Some jur
    /\ out = mkFrame (length (map text (astype_str_strip ids)))
               [ ("external_ref", map text (astype_str_strip ids));
                 ("client_id", map (map_dict client_map) (astype_str_strip clients));
                 ("title", map (fun v => if isna v then text "Untitled" else Raw v)
                               titles);
                 ("filing_date", map (fun v => of_opt_str (to_date v)) filing);
                 ("grant_date", map (fun v => of_opt_str (to_date v)) grant);
                 ("jurisdiction",
                  map (fun x => of_opt_str (jurisdiction_map !! py_str x)) jur);
                 ("status", get_or_blank df "status"
                              (length (map text (astype_str_strip ids)))) ].
Proof.
  unfold transform_patents.
  destruct (column df "patent_id") as [ids|]; [|discriminate].
  destruct (column df "client_id") as [clients|]; [|discriminate].
  destruct (column df "title") as [titles|]; [|discriminate].
  destruct (column df "filing_date") as [filing|]; [|discriminate].
  destruct (column df "grant_date") as [grant|]; [|discriminate].
  destruct (column df "jurisdiction") as [jur|]; [|discriminate].
  intros [= <-]. exists ids, clients, titles, filing, grant, jur.
  repeat split; reflexivity.
Qed.

Lemma transform_trademarks_shape df client_map out :
  transform_trademarks df client_map = Some out ->
  exists ids clients marks classes filing,
    column df "tm_id" = Some ids
    /\ column df "class" = Some classes
    /\ column df "filing_date" = Some filing
    /\ out = mkFrame (length (map text (astype_str_strip ids)))
               [ ("external_ref", map text (astype_str_strip ids));
                 ("client_id", map (map_dict client_map) (astype_str_strip clients));
                 ("mark_text", map (fun v => if isna v then text "" else Raw v) marks);
                 ("nice_classes", map (fun v => Classes (parse_classes v)) classes);
                 ("filing_date", map (fun v => of_opt_str (to_date v)) filing);
                 ("status", get_or_blank df "status"
                              (length (map text (astype_str_strip ids)))) ].
Proof.
  unfold transform_trademarks.
  destruct (column df "tm_id") as [ids|]; [|discriminate].
  destruct (column df "client_id") as [clients|]; [|discriminate].
  destruct (column df "mark_text") as [marks|]; [|discriminate].
  destruct (column df "class") as [classes|]; [|discriminate].
  destruct (column df "filing_date") as [filing|]; [|discriminate].
  intros [= <-]. exists ids, clients, marks, classes, filing.
  repeat split; reflexivity.
Qed.

Lemma transform_deadlines_shape df patent_map tm_map out :
  transform_deadlines df patent_map tm_map = Some out ->
  exists ids types resolved due,
    column df "dl_id" = Some ids
    /\ column df "due_date" = Some due
    /\ out = mkFrame (length (map text (astype_str_strip ids)))
               [ ("external_ref", map text (astype_str_strip ids));
                 ("related_table",
                  map (fun x => if bool_decide (x = Str "patent")
                                then text "patents" else text "trademarks")
                      (map str_lower types));
                 ("related_id", resolved);
                 ("due_date", map (fun v => of_opt_str (to_date v)) due);
                 ("description", get_or_blank df "description"
                                   (length (map text (astype_str_strip ids)))) ].
Proof.
  unfold transform_deadlines.
  destruct (column df "dl_id") as [ids|]; [|discriminate].
  destruct (column df "related_type") as [types0|]; [|discriminate].
  simpl. destruct (str_accessor types0) as [types|]; [|discriminate].
  simpl. destruct (if Nat.eqb (nrows df) 0 then None else _) as [resolved|];
    [|discriminate].
  simpl. destruct (column df "due_date") as [due|]; [|discriminate].
  intros [= <-]. exists ids, types, resolved, due.
  repeat split; reflexivity.
Qed.

Lemma Forall_map_all {A B} (P : B -> Prop) (f : A -> B) (l : list A) :
  (forall x, P (f x)) -> Forall P (map f l).
Proof. intros Hf. apply Forall_map, Forall_forall. auto. Qed.

Lemma Forall_keep_where {A} (P : A -> Prop) mask (l : list A) :
  Forall P l -> Forall P (keep_where mask l).
Proof.
  rewrite !Forall_forall. intros Hl x Hx. apply Hl.
  eapply keep_where_elem, Hx.
Qed.

Lemma transform_clients_canonical df out :
  transform_clients df = Some out ->
  column_all date_or_null out "created_on"
  /\ column_all country_or_null out "country_code".
Proof.
  intros Ht.
  destruct (transform_clients_shape df out Ht)
    as (ids & names & country & created & _ & _ & _ & _ & ->).
  cbv zeta. split.
  - eexists. split; [reflexivity|].
    apply Forall_keep_where, Forall_map_all. intros v. apply to_date_date_or_null.
  - eexists. split; [reflexivity|].
    apply Forall_keep_where, Forall_map_all. intros v. apply iso2_country_or_null.
Qed.

Lemma transform_patents_canonical df client_map out :
  transform_patents jurisdiction_map df client_map = Some out ->
  column_all date_or_null out "filing_date"
  /\ column_all date_or_null out "grant_date"
  /\ column_all (mapped_or_null jurisdiction_map) out "jurisdiction"
  /\ column out "status" = Some (get_or_blank df "status" (nrows out)).
Proof.
  intros Ht.
  destruct (transform_patents_shape df client_map out Ht)
    as (ids & clients & titles & filing & grant & jur & _ & _ & _ & _ & ->).
  split; [|split; [|split]].
  - eexists. split; [reflexivity|].
    apply Forall_map_all. intros v. apply to_date_date_or_null.
  - eexists. split; [reflexivity|].
    apply Forall_map_all. intros v. apply to_date_date_or_null.
  - eexists. split; [reflexivity|].
    apply Forall_map_all. intros v. unfold mapped_or_null.
    destruct (jurisdiction_map !! py_str v) as [s|] eqn:E; [right|now left].
    now exists (py_str v), s.
  - reflexivity.
Qed.

Lemma transform_trademarks_canonical df client_map out :
  transform_trademarks df client_map = Some out ->
  column_all date_or_null out "filing_date"
  /\ column_all class_list out "nice_classes"
  /\ column out "status" = Some (get_or_blank df "status" (nrows out)).
Proof.
  intros Ht.
  destruct (transform_trademarks_shape df client_map out Ht)
    as (ids & clients & marks & classes & filing & _ & _ & _ & ->).
  split; [|split].
  - eexists. split; [reflexivity|].
    apply Forall_map_all. intros v. apply to_date_date_or_null.
  - eexists. split; [reflexivity|].
    apply Forall_map_all. intros v. apply parse_classes_class_list.
  - reflexivity.
Qed.

Lemma transform_deadlines_canonical df patent_map tm_map out :
  transform_deadlines df patent_map tm_map = Some out ->
  column_all date_or_null out "due_date".
Proof.
  intros Ht.
  destruct (transform_deadlines_shape df patent_map tm_map out Ht)
    as (ids & types & resolved & due & _ & _ & ->).
  eexists. split; [reflexivity|].
  apply Forall_map_all. intros v. apply to_date_date_or_null.
Qed.

End Canonical.

(** C2, as amended: in every transformed record each date field is an
    ISO-8601 date string or null, the country code of a client is an
    ISO-3166 alpha-2 code or null (the jurisdiction of a patent is a value
    of the jurisdiction table or null), and the classification field is a
    strictly increasing list of integers in 1..45; the status field is the
    status of the legacy row, unchanged (blank when the legacy data has no
    status column). *)
Theorem transformed_fields_canonical `{DateParser}
  (jurisdiction_map : gmap string string) :
  (forall df out,
      transform_clients df = Some out ->
      column_all date_or_null out "created_on"
      /\ column_all country_or_null out "country_code")
  /\ (forall df client_map out,
         transform_patents jurisdiction_map df client_map = Some out ->
         column_all date_or_null out "filing_date"
         /\ column_all date_or_null out "grant_date"
         /\ column_all (mapped_or_null jurisdiction_map) out "jurisdiction"
         /\ column out "status" = Some (get_or_blank df "status" (nrows out)))
  /\ (forall df client_map out,
         transform_trademarks df client_map = Some out ->
         column_all date_or_null out "filing_date"
         /\ column_all class_list out "nice_classes"
         /\ column out "status" = Some (get_or_blank df "status" (nrows out)))
  /\ (forall df patent_map tm_map out,
         transform_deadlines df patent_map tm_map = Some out ->
         column_all date_or_null out "due_date").
Proof.
  split; [apply transform_clients_canonical|].
  split; [apply transform_patents_canonical|].
  split; [apply transform_trademarks_canonical|].
  apply transform_deadlines_canonical.
Qed.

Lemma transformed_fields_canonical_witness :
  exists out,
    @transform_patents simple_parser sample_jurisdictions sample_patents
      sample_client_map = Some out
    /\ column_all date_or_null out "filing_date"
    /\ column out "status" = Some [text "Issued"; text "ISSUED "].
Proof.
  destruct (@transformed_fields_canonical simple_parser sample_jurisdictions)
    as (_ & Hp & _).
  eexists. split; [vm_compute; reflexivity|].
  edestruct (Hp sample_patents sample_client_map) as (Hf & _ & _ & Hs);
    [vm_compute; reflexivity|].
  split; [exact Hf|exact Hs].
Defined.

(** C2 as stated fails on the status field: the transformed patent keeps
    the legacy spelling ["Issued"], which is not a canonical patent status
    ([normalize_status] would give ["granted"]). *)
Lemma transformed_status_counterexample :
  (@transform_patents simple_parser sample_jurisdictions sample_patents
     sample_client_map ≫= (fun out => column out "status"))
  = Some [text "Issued"; text "ISSUED "]
  /\ ~ In "Issued" (canonical_statuses "patent")
  /\ ~ In "Issued" ("pending" :: canonical_statuses "patents")
  /\ normalize_status (Str "Issued") "patent" = "granted".
Proof.
  split; [vm_compute; reflexivity|].
  split; [|split; [|reflexivity]].
  - simpl. intros [E|[E|[E|[E|[E|[]]]]]]; discriminate E.
  - simpl. intros [E|[]]; discriminate E.
Qed.

(** ** The load *)

Definition cell_key (v : out_cell) : option string :=
  match v with Raw (Str k) => Some k | _ => None end.

Definition record_key (unique_col : string) (r : record) : option string :=
  r !! unique_col ≫= cell_key.

(** The keys of a table. *)
Definition keyset (conn : db) (name : string) : gset string :=
  dom (t_rows (get_table conn name)).



Lemma map_nth_seq {A} (d : A) (l : list A) :
  map (fun i => nth i l d) (seq 0 (length l)) = l.
Proof.
  induction l as [|x l IH]; [reflexivity|].
  simpl. f_equal. rewrite <- seq_shift, map_map. exact IH.
Qed.

Lemma omap_map {A B C} (f : B -> option C) (g : A -> B) (l : list A) :
  omap f (map g l) = omap (fun x => f (g x)) l.
Proof.
  induction l as [|x l IH]; [reflexivity|].
  simpl. destruct (f (g x)); simpl; [f_equal|]; exact IH.
Qed.









Lemma keyset_log conn rid tbl iu name :
  keyset (log_row_count conn rid tbl iu) name = keyset conn name.
Proof. reflexivity. Qed.

Section Load.
Context `{DateParser}.
Variable jurisdiction_map : gmap string string.
Variable files : gmap string csv_file.


End Load.




Definition empty_db : db := mkDb ∅ [] [].







(** * Further properties *)

(** ** Cleaned strings *)

(** A tidy string: no whitespace at either end, and inside only single
    spaces. *)
Fixpoint tidy_from (prev_space : bool) (s : string) : bool :=
  match s with
  | EmptyString => negb prev_space
  | String c s' =>
      if PyStr.is_space c
      then Ascii.eqb c " " && negb prev_space && tidy_from true s'
      else tidy_from false s'
  end.

Definition tidy (s : string) : bool :=
  match s with
  | EmptyString => true
  | _ => tidy_from true s
  end.

Fixpoint ends_solid (s : string) : bool :=
  match s with
  | EmptyString => false
  | String c EmptyString => negb (PyStr.is_space c)
  | String _ s' => ends_solid s'
  end.

Lemma rstrip_ends s : PyStr.rstrip s = "" \/ ends_solid (PyStr.rstrip s) = true.
Proof.
  induction s as [|c s IH]; [now left|].
  simpl. destruct (PyStr.rstrip s) as [|d r] eqn:E.
  - destruct (PyStr.is_space c) eqn:Ec; [now left|right]. simpl. now rewrite Ec.
  - right. destruct IH as [IH|IH]; [discriminate|]. exact IH.
Qed.

Lemma collapse_tidy_from s b :
  ends_solid s = true -> tidy_from b (PyStr.collapse_aux b s) = true.
Proof.
  revert b. induction s as [|c s IH]; intros b Hs; [discriminate|].
  simpl. destruct (PyStr.is_space c) eqn:Ec.
  - assert (Hs' : ends_solid s = true).
    { simpl in Hs. destruct s; [now rewrite Ec in Hs|exact Hs]. }
    destruct b.
    + now apply IH.
    + simpl. change (PyStr.is_space " ") with true. simpl. now apply IH.
  - simpl. rewrite Ec. destruct s as [|d s]; [reflexivity|].
    apply IH. exact Hs.
Qed.

Lemma collapse_strip_tidy x : tidy (PyStr.collapse_ws (PyStr.strip x)) = true.
Proof.
  unfold PyStr.strip.
  pose proof (rstrip_solid _ (lstrip_solid x)) as Hstart.
  destruct (rstrip_ends (PyStr.lstrip x)) as [E|Hend]; [now rewrite E|].
  destruct (PyStr.rstrip (PyStr.lstrip x)) as [|c s]; [reflexivity|].
  simpl in Hstart. unfold PyStr.collapse_ws. simpl. rewrite Hstart.
  unfold tidy. simpl. rewrite Hstart.
  destruct s as [|d s]; [reflexivity|].
  apply collapse_tidy_from. exact Hend.
Qed.

Lemma tidy_from_collapse s b :
  tidy_from b s = true -> PyStr.collapse_aux b s = s.
Proof.
  revert b. induction s as [|c s IH]; intros b; [reflexivity|].
  simpl. destruct (PyStr.is_space c).
  - rewrite !andb_true_iff. intros [[Hc Hb] Hs].
    apply Ascii.eqb_eq in Hc. subst c.
    destruct b; [discriminate|]. now rewrite IH.
  - intros Hs. now rewrite IH.
Qed.

Lemma tidy_from_ends s b : tidy_from b s = true -> s <> "" -> ends_solid s = true.
Proof.
  revert b. induction s as [|c s IH]; intros b Hs Hne; [congruence|].
  simpl in Hs. destruct (PyStr.is_space c) eqn:Ec.
  - rewrite !andb_true_iff in Hs. destruct Hs as [_ Hs].
    destruct s as [|d s]; [discriminate Hs|]. now apply (IH true).
  - destruct s as [|d s]; [simpl; now rewrite Ec|]. now apply (IH false).
Qed.

Lemma ends_solid_rstrip s : ends_solid s = true -> PyStr.rstrip s = s.
Proof.
  induction s as [|c s IH]; [discriminate|].
  intros Hs. simpl. destruct s as [|d s].
  - simpl in *. now destruct (PyStr.is_space c).
  - rewrite IH by exact Hs. reflexivity.
Qed.

Lemma tidy_fixed s :
  tidy s = true -> PyStr.strip s = s /\ PyStr.collapse_ws s = s.
Proof.
  destruct s as [|c s]; [now split|].
  unfold tidy. intros Ht.
  assert (Hc : PyStr.is_space c = false).
  { simpl in Ht. destruct (PyStr.is_space c); [|reflexivity].
    now rewrite andb_false_r in Ht. }
  split.
  - unfold PyStr.strip. simpl PyStr.lstrip. rewrite Hc.
    apply ends_solid_rstrip. now apply (tidy_from_ends _ true).
  - unfold PyStr.collapse_ws. simpl in *. rewrite Hc in *.
    now rewrite (tidy_from_collapse s false).
Qed.

Lemma clean_string_tidy v : tidy (clean_string v) = true.
Proof.
  unfold clean_string. destruct (isna v); [reflexivity|].
  destruct (mem_str _ _); [reflexivity|]. apply collapse_strip_tidy.
Qed.

Lemma clean_string_not_blank v :
  mem_str (PyStr.lower (clean_string v)) legacy_blanks = false.
Proof.
  unfold clean_string. destruct (isna v); [reflexivity|].
  destruct (mem_str (PyStr.lower (PyStr.collapse_ws _)) legacy_blanks) eqn:E;
    [reflexivity|exact E].
Qed.

Lemma clean_string_fixed s :
  tidy s = true -> mem_str (PyStr.lower s) legacy_blanks = false ->
  clean_string (Str s) = s.
Proof.
  intros Ht Hb. destruct (tidy_fixed s Ht) as [Hs Hc].
  unfold clean_string. cbn [isna py_str]. now rewrite Hs, Hc, Hb.
Qed.

(** X1. [clean_string] returns a tidy string that is not one of the legacy
    blanks, and cleaning a cleaned value changes nothing. *)
Theorem clean_string_idempotent (v : cell) :
  tidy (clean_string v) = true
  /\ ~ In (PyStr.lower (clean_string v)) legacy_blanks
  /\ clean_string (Str (clean_string v)) = clean_string v.
Proof.
  split; [apply clean_string_tidy|]. split.
  - intros Hin. apply mem_str_In in Hin.
    now rewrite clean_string_not_blank in Hin.
  - apply clean_string_fixed;
      [apply clean_string_tidy|apply clean_string_not_blank].
Qed.

(** ** Countries *)

Lemma iso2_table_entries :
  forallb (fun kv => bool_decide (iso2 (Str kv.1) = Some kv.2)
                     && bool_decide (iso2 (Str (PyStr.lower kv.1)) = Some kv.2))
          COUNTRY_MAP = true.
Proof. vm_compute. reflexivity. Qed.

Lemma iso2_in_table v code : iso2 v = Some code -> In code (map snd COUNTRY_MAP).
Proof.
  unfold iso2. destruct (falsy v); [discriminate|].
  destruct (String.eqb _ ""); [discriminate|].
  destruct (assoc _ COUNTRY_MAP) as [r|] eqn:Ea.
  { intros [= <-]. apply assoc_In in Ea.
    apply in_map_iff. now exists (PyStr.strip (clean_string v), r). }
  destruct (find _ COUNTRY_MAP) as [kv|] eqn:Ef.
  { intros [= <-]. apply find_some in Ef as [Hin _].
    apply in_map_iff. now exists kv. }
  repeat (destruct (_ || _); [intros [= <-]; simpl; tauto|]).
  discriminate.
Qed.

Lemma iso2_of_clean s : iso2 (Str s) = iso2 (Str (clean_string (Str s))).
Proof.
  pose proof (clean_string_fixed _ (clean_string_tidy (Str s))
                (clean_string_not_blank (Str s))) as Hid.
  unfold iso2 at 1 2. simpl falsy.
  destruct (String.eqb s "") eqn:Es.
  { apply String.eqb_eq in Es. subst s. reflexivity. }
  destruct (String.eqb (clean_string (Str s)) "") eqn:Ec.
  { apply String.eqb_eq in Ec. rewrite Ec. reflexivity. }
  rewrite Hid. reflexivity.
Qed.

(** X2. [iso2]: every name of the country table resolves to its code, also
    written in lower case; the answer does not depend on surrounding or
    repeated whitespace; and an answer is always a code of the table. *)
Theorem iso2_table_lookup :
  (forall name code,
      In (name, code) COUNTRY_MAP ->
      iso2 (Str name) = Some code /\ iso2 (Str (PyStr.lower name)) = Some code)
  /\ (forall s, iso2 (Str s) = iso2 (Str (clean_string (Str s))))
  /\ (forall v code, iso2 v = Some code -> In code (map snd COUNTRY_MAP)).
Proof.
  split; [|split; [apply iso2_of_clean|apply iso2_in_table]].
  intros name code Hin.
  pose proof iso2_table_entries as Hall. rewrite forallb_forall in Hall.
  specialize (Hall (name, code) Hin). simpl in Hall.
  apply andb_true_iff in Hall as [H1 H2].
  apply bool_decide_eq_true in H1, H2. now split.
Qed.

Lemma iso2_table_lookup_witness :
  iso2 (Str "deutschland") = Some "DE"
  /\ iso2 (Str "  United   Kingdom ") = Some "GB".
Proof.
  destruct iso2_table_lookup as (Htab & Hclean & _).
  split.
  - apply (Htab "Deutschland" "DE"). simpl. tauto.
  - rewrite Hclean. apply (Htab "United Kingdom" "GB"). simpl. tauto.
Defined.

(** ** E-mail addresses *)

(** The characters a pattern can read, and patterns that match nothing. *)
Fixpoint alphabet (r : Regex.re) (c : ascii) : bool :=
  match r with
  | Regex.Void | Regex.Eps => false
  | Regex.Cls p => p c
  | Regex.Cat r1 r2 | Regex.Alt r1 r2 => alphabet r1 c || alphabet r2 c
  | Regex.Star r1 => alphabet r1 c
  end.

Fixpoint is_void (r : Regex.re) : bool :=
  match r with
  | Regex.Void => true
  | Regex.Eps | Regex.Cls _ | Regex.Star _ => false
  | Regex.Cat r1 r2 => is_void r1 || is_void r2
  | Regex.Alt r1 r2 => is_void r1 && is_void r2
  end.

Lemma is_void_not_nullable r : is_void r = true -> Regex.nullable r = false.
Proof.
  induction r; simpl; try discriminate; try reflexivity.
  - rewrite orb_true_iff. intros [Hv|Hv].
    + now rewrite IHr1.
    + rewrite IHr2 by exact Hv. apply andb_false_r.
  - rewrite andb_true_iff. intros [H1 H2]. now rewrite IHr1, IHr2.
Qed.

Lemma is_void_deriv c r : is_void r = true -> is_void (Regex.deriv c r) = true.
Proof.
  induction r; simpl; try discriminate; try reflexivity.
  - rewrite orb_true_iff. intros Hv.
    destruct (Regex.nullable r1) eqn:En; simpl.
    + destruct Hv as [Hv|Hv].
      * now rewrite (is_void_not_nullable r1 Hv) in En.
      * rewrite Hv, orb_true_r. simpl. now apply IHr2.
    + destruct Hv as [Hv|Hv].
      * now rewrite IHr1.
      * rewrite Hv. apply orb_true_r.
  - rewrite andb_true_iff. intros [H1 H2]. now rewrite IHr1, IHr2.
Qed.

Lemma is_void_no_match r s : is_void r = true -> Regex.full_match r s = false.
Proof.
  revert r. induction s as [|c s IH]; intros r Hv; simpl.
  - now apply is_void_not_nullable.
  - apply IH. now apply is_void_deriv.
Qed.

Lemma deriv_outside c r : alphabet r c = false -> is_void (Regex.deriv c r) = true.
Proof.
  induction r; simpl; try reflexivity.
  - intros ->. reflexivity.
  - rewrite orb_false_iff. intros [H1 H2].
    destruct (Regex.nullable r1); simpl; rewrite IHr1 by exact H1; simpl;
      [now apply IHr2|reflexivity].
  - rewrite orb_false_iff. intros [H1 H2]. now rewrite IHr1, IHr2.
  - intros H1. now rewrite IHr.
Qed.

Lemma deriv_alphabet c r x :
  alphabet (Regex.deriv c r) x = true -> alphabet r x = true.
Proof.
  induction r; simpl; try discriminate.
  - destruct (p c); discriminate.
  - destruct (Regex.nullable r1); simpl; rewrite !orb_true_iff; intuition.
  - rewrite !orb_true_iff. intuition.
  - rewrite !orb_true_iff. intuition.
Qed.

Lemma all_chars_impl (p q : ascii -> bool) s :
  (forall c, p c = true -> q c = true) ->
  PyStr.all_chars p s = true -> PyStr.all_chars q s = true.
Proof.
  intros Hpq. induction s as [|c s IH]; [reflexivity|].
  simpl. rewrite !andb_true_iff. intros [Hc Hs]. split; auto.
Qed.

(** A matched string is written in the alphabet of the pattern. *)
Lemma full_match_alphabet r s :
  Regex.full_match r s = true -> PyStr.all_chars (alphabet r) s = true.
Proof.
  revert r. induction s as [|c s IH]; intros r Hm; [reflexivity|].
  simpl in *. destruct (alphabet r c) eqn:Ec.
  - simpl. eapply all_chars_impl; [|apply IH, Hm].
    intros x. apply deriv_alphabet.
  - rewrite is_void_no_match in Hm; [discriminate|]. now apply deriv_outside.
Qed.

(** Strings without whitespace and without upper-case letters. *)
Definition lower_solid (c : ascii) : bool :=
  negb (PyStr.is_space c) && negb (PyStr.is_upper c).

Lemma solid_tidy_from s b :
  PyStr.all_chars (fun c => negb (PyStr.is_space c)) s = true -> s <> "" ->
  tidy_from b s = true.
Proof.
  revert b. induction s as [|c s IH]; intros b Hs Hne; [congruence|].
  simpl in *. apply andb_true_iff in Hs as [Hc Hs].
  apply negb_true_iff in Hc. rewrite Hc.
  destruct s as [|d s]; [reflexivity|]. now apply IH.
Qed.

Lemma solid_tidy s :
  PyStr.all_chars (fun c => negb (PyStr.is_space c)) s = true -> tidy s = true.
Proof.
  destruct s as [|c s]; [reflexivity|]. intros Hs.
  now apply solid_tidy_from.
Qed.

Lemma lower_fixed s :
  PyStr.all_chars (fun c => negb (PyStr.is_upper c)) s = true -> PyStr.lower s = s.
Proof.
  induction s as [|c s IH]; [reflexivity|]. simpl.
  rewrite andb_true_iff. intros [Hc Hs]. apply negb_true_iff in Hc.
  unfold PyStr.lower in *. simpl. rewrite (IH Hs).
  unfold PyStr.to_lower. now rewrite Hc.
Qed.

Lemma to_lower_not_upper c : PyStr.is_upper (PyStr.to_lower c) = false.
Proof.
  destruct c as [[] [] [] [] [] [] [] []]; reflexivity.
Qed.

Lemma lower_no_upper s :
  PyStr.all_chars (fun c => negb (PyStr.is_upper c)) (PyStr.lower s) = true.
Proof.
  induction s as [|c s IH]; [reflexivity|].
  unfold PyStr.lower in *. simpl. now rewrite to_lower_not_upper, IH.
Qed.

Lemma all_chars_app p a b :
  PyStr.all_chars p (a ++ b) = PyStr.all_chars p a && PyStr.all_chars p b.
Proof.
  induction a as [|c a IH]; [reflexivity|]. simpl. now rewrite IH, andb_assoc.
Qed.

Lemma all_chars_drop p n s :
  PyStr.all_chars p s = true -> PyStr.all_chars p (PyStr.drop_chars n s) = true.
Proof.
  revert s. induction n as [|n IH]; intros s Hs; [exact Hs|].
  destruct s as [|c s]; [reflexivity|]. simpl in *.
  apply andb_true_iff in Hs as [_ Hs]. now apply IH.
Qed.

Lemma all_chars_replace p old new s fuel :
  PyStr.all_chars p new = true -> PyStr.all_chars p s = true ->
  PyStr.all_chars p (PyStr.replace_aux fuel old new s) = true.
Proof.
  intros Hnew. revert s. induction fuel as [|fuel IH]; intros s Hs; [exact Hs|].
  simpl. destruct s as [|c s]; [reflexivity|].
  destruct (PyStr.starts_with old (String c s)).
  - rewrite all_chars_app, Hnew. simpl. apply IH. now apply all_chars_drop.
  - simpl in *. apply andb_true_iff in Hs as [Hc Hs]. rewrite Hc. now apply IH.
Qed.

Definition email_char (c : ascii) : bool := alphabet email_pattern c.

Lemma email_char_solid c : email_char c = true -> PyStr.is_space c = false.
Proof.
  destruct c as [[] [] [] [] [] [] [] []]; try reflexivity; discriminate.
Qed.

Lemma blanks_are_not_emails :
  forallb (fun b => negb (Regex.full_match email_pattern b)) ("" :: legacy_blanks)
  = true.
Proof. reflexivity. Qed.

(** A lower-case string that matches the pattern is returned as it is. *)
Lemma parse_email_fixed s :
  PyStr.all_chars (fun c => negb (PyStr.is_upper c)) s = true ->
  Regex.full_match email_pattern s = true ->
  parse_email (Str s) = s.
Proof.
  intros Hlow Hm.
  pose proof blanks_are_not_emails as Hb. rewrite forallb_forall in Hb.
  assert (Hne : s <> "").
  { intros ->. discriminate Hm. }
  assert (Hclean : clean_string (Str s) = s).
  { apply clean_string_fixed.
    - apply solid_tidy. eapply all_chars_impl; [|apply full_match_alphabet, Hm].
      intros c Hc. apply negb_true_iff. now apply email_char_solid.
    - rewrite (lower_fixed s Hlow).
      destruct (mem_str s legacy_blanks) eqn:E; [|reflexivity].
      apply mem_str_In in E. specialize (Hb s (or_intror E)).
      now rewrite Hm in Hb. }
  unfold parse_email. simpl falsy.
  apply String.eqb_neq in Hne. rewrite Hne, Hclean, (lower_fixed s Hlow), Hne, Hm.
  reflexivity.
Qed.

Lemma parse_email_result v :
  parse_email v = ""
  \/ (Regex.full_match email_pattern (parse_email v) = true
      /\ PyStr.all_chars (fun c => negb (PyStr.is_upper c)) (parse_email v) = true).
Proof.
  unfold parse_email. destruct (falsy v); [now left|].
  destruct (String.eqb _ ""); [now left|].
  destruct (Regex.full_match email_pattern (PyStr.lower (clean_string v))) eqn:E1.
  { right. split; [exact E1|apply lower_no_upper]. }
  destruct (PyStr.contains "_at_" _); [|now left].
  destruct (Regex.full_match email_pattern (PyStr.replace _ _ _)) eqn:E2;
    [|now left].
  right. split; [exact E2|].
  unfold PyStr.replace. apply all_chars_replace; [reflexivity|apply lower_no_upper].
Qed.

(** X3. [parse_email] returns the empty string or a lower-case address that
    matches the pattern, and it returns an address it has produced
    unchanged. *)
Theorem parse_email_idempotent (v : cell) :
  (parse_email v = ""
   \/ (Regex.full_match email_pattern (parse_email v) = true
       /\ PyStr.lower (parse_email v) = parse_email v))
  /\ parse_email (Str (parse_email v)) = parse_email v.
Proof.
  destruct (parse_email_result v) as [E|[Hm Hlow]].
  - rewrite E. split; [now left|reflexivity].
  - split; [right; split; [exact Hm|now apply lower_fixed]|].
    now apply parse_email_fixed.
Qed.

(** ** Phone numbers *)

(** The last step of [parse_phone]: the layout chosen from the digits. *)
Definition phone_layout (digits phone_clean : string) : string :=
  if (String.length digits =? 10)%nat
  then "(" ++ take_chars 3 digits ++ ") "
       ++ take_chars 3 (PyStr.drop_chars 3 digits) ++ "-"
       ++ PyStr.drop_chars 6 digits
  else if (String.length digits =? 11)%nat && PyStr.starts_with "1" digits
  then "+1 (" ++ take_chars 3 (PyStr.drop_chars 1 digits) ++ ") "
       ++ take_chars 3 (PyStr.drop_chars 4 digits) ++ "-"
       ++ PyStr.drop_chars 7 digits
  else if (10 <=? String.length digits)%nat
  then "+" ++ digits
  else phone_clean.

Lemma take_drop_chars n s : take_chars n s ++ PyStr.drop_chars n s = s.
Proof.
  revert s. induction n as [|n IH]; intros s; [reflexivity|].
  destruct s as [|c s]; [reflexivity|].
  change (String c (take_chars n s ++ PyStr.drop_chars n s) = String c s).
  f_equal. apply IH.
Qed.

Lemma drop_drop_chars n m s :
  PyStr.drop_chars n (PyStr.drop_chars m s) = PyStr.drop_chars (m + n) s.
Proof.
  revert s. induction m as [|m IH]; intros s; [reflexivity|].
  destruct s as [|c s]; [now destruct n|]. simpl. apply IH.
Qed.

Lemma keep_digits_app a b : keep_digits (a ++ b) = keep_digits a ++ keep_digits b.
Proof.
  induction a as [|c a IH]; [reflexivity|]. simpl.
  destruct (PyStr.is_digit c); simpl; now rewrite IH.
Qed.

Lemma keep_digits_digits s : PyStr.all_chars PyStr.is_digit (keep_digits s) = true.
Proof.
  induction s as [|c s IH]; [reflexivity|]. simpl.
  destruct (PyStr.is_digit c) eqn:E; [simpl; now rewrite E|exact IH].
Qed.

Lemma keep_digits_fixed s :
  PyStr.all_chars PyStr.is_digit s = true -> keep_digits s = s.
Proof.
  induction s as [|c s IH]; [reflexivity|]. simpl.
  rewrite andb_true_iff. intros [-> Hs]. now rewrite IH.
Qed.

Lemma all_chars_take p n s :
  PyStr.all_chars p s = true -> PyStr.all_chars p (take_chars n s) = true.
Proof.
  revert s. induction n as [|n IH]; intros s Hs; [now destruct s|].
  destruct s as [|c s]; [reflexivity|]. simpl in *.
  apply andb_true_iff in Hs as [-> Hs]. now apply IH.
Qed.

(** The characters of a laid-out number. *)
Definition phone_char (c : ascii) : bool :=
  PyStr.is_digit c || existsb (Ascii.eqb c) ["("; ")"; "-"; "+"]%char.

Lemma phone_char_cases c :
  phone_char c = true -> PyStr.is_space c = false /\ PyStr.is_upper c = false.
Proof.
  destruct c as [[] [] [] [] [] [] [] []]; try discriminate; now split.
Qed.

Lemma digit_phone_char s :
  PyStr.all_chars PyStr.is_digit s = true -> PyStr.all_chars phone_char s = true.
Proof.
  apply all_chars_impl. intros c Hc. unfold phone_char. now rewrite Hc.
Qed.

Lemma tidy_from_app a rest b :
  PyStr.all_chars phone_char a = true -> a <> "" ->
  tidy_from b (a ++ rest) = tidy_from false rest.
Proof.
  revert b. induction a as [|c a IH]; intros b Ha Hne; [congruence|].
  simpl in *. apply andb_true_iff in Ha as [Hc Ha].
  apply phone_char_cases in Hc as [-> _].
  destruct a as [|d a]; [reflexivity|]. now apply IH.
Qed.

Lemma phone_tidy a b :
  PyStr.all_chars phone_char a = true -> a <> "" ->
  PyStr.all_chars phone_char b = true -> b <> "" ->
  tidy (a ++ " " ++ b) = true.
Proof.
  intros Ha Hna Hb Hnb. unfold tidy.
  destruct (a ++ " " ++ b) eqn:E; [reflexivity|]. rewrite <- E.
  rewrite tidy_from_app by assumption.
  simpl. apply solid_tidy_from; [|exact Hnb].
  eapply all_chars_impl; [|exact Hb].
  intros c Hc. apply negb_true_iff. now apply phone_char_cases.
Qed.

Lemma phone_lower a b :
  PyStr.all_chars phone_char a = true -> PyStr.all_chars phone_char b = true ->
  PyStr.lower (a ++ " " ++ b) = a ++ " " ++ b.
Proof.
  intros Ha Hb. apply lower_fixed. rewrite !all_chars_app. simpl.
  assert (Hu : forall s, PyStr.all_chars phone_char s = true ->
                         PyStr.all_chars (fun c => negb (PyStr.is_upper c)) s = true).
  { intros s. apply all_chars_impl. intros c Hc. apply negb_true_iff.
    now apply phone_char_cases. }
  now rewrite (Hu a Ha), (Hu b Hb).
Qed.

Lemma parse_phone_unfold v :
  parse_phone v =
  if falsy v then ""
  else if String.eqb (clean_string v) "" then ""
  else if mem_str (PyStr.lower (clean_string v)) bad_phones then ""
  else phone_layout (keep_digits (clean_string v)) (clean_string v).
Proof. reflexivity. Qed.

Lemma layout_digits pre a b c :
  PyStr.all_chars PyStr.is_digit a = true ->
  PyStr.all_chars PyStr.is_digit b = true ->
  PyStr.all_chars PyStr.is_digit c = true ->
  keep_digits (pre ++ a ++ ") " ++ b ++ "-" ++ c) = keep_digits pre ++ a ++ b ++ c.
Proof.
  intros Ha Hb Hc. rewrite !keep_digits_app.
  rewrite (keep_digits_fixed a Ha), (keep_digits_fixed b Hb), (keep_digits_fixed c Hc).
  reflexivity.
Qed.

Lemma phone_layout_digits d pc :
  PyStr.all_chars PyStr.is_digit d = true ->
  keep_digits pc = d -> keep_digits (phone_layout d pc) = d.
Proof.
  intros Hd Hpc. unfold phone_layout.
  destruct (String.length d =? 10)%nat.
  { rewrite layout_digits
      by (try apply all_chars_take; repeat apply all_chars_drop; exact Hd).
    replace (PyStr.drop_chars 6 d) with (PyStr.drop_chars 3 (PyStr.drop_chars 3 d))
      by apply (drop_drop_chars 3 3).
    change (keep_digits "(") with "". cbn [String.append].
    now rewrite !take_drop_chars. }
  destruct (_ && _) eqn:E.
  { apply andb_true_iff in E as [_ E1].
    rewrite layout_digits
      by (try apply all_chars_take; repeat apply all_chars_drop; exact Hd).
    replace (PyStr.drop_chars 4 d) with (PyStr.drop_chars 3 (PyStr.drop_chars 1 d))
      by apply (drop_drop_chars 3 1).
    replace (PyStr.drop_chars 7 d)
      with (PyStr.drop_chars 3 (PyStr.drop_chars 3 (PyStr.drop_chars 1 d)))
      by (rewrite !drop_drop_chars; reflexivity).
    rewrite !take_drop_chars.
    destruct d as [|c d]; [discriminate E1|].
    cbn [PyStr.starts_with] in E1.
    rewrite andb_true_r in E1. apply Ascii.eqb_eq in E1. now subst c. }
  destruct (10 <=? String.length d)%nat; [|exact Hpc].
  change (keep_digits ("+" ++ d)) with (keep_digits d).
  now apply keep_digits_fixed.
Qed.

Lemma phone_layout_stable d pc :
  phone_layout d (phone_layout d pc) = phone_layout d pc.
Proof.
  unfold phone_layout.
  destruct (String.length d =? 10)%nat; [reflexivity|].
  destruct (_ && _); [reflexivity|].
  destruct (10 <=? String.length d)%nat; reflexivity.
Qed.

(** A string [parse_phone] accepts and leaves as it is found. *)
Definition settled (r : string) : Prop :=
  r <> "" /\ clean_string (Str r) = r
  /\ mem_str (PyStr.lower r) bad_phones = false.

Lemma str_app_assoc (a b c : string) : (a ++ b) ++ c = a ++ b ++ c.
Proof.
  induction a as [|x a IH]; [reflexivity|].
  change (String x ((a ++ b) ++ c) = String x (a ++ b ++ c)). f_equal. exact IH.
Qed.

Lemma tidy_from_join words b :
  words <> [] ->
  Forall (fun w => PyStr.all_chars phone_char w = true /\ w <> "") words ->
  tidy_from b (PyStr.join " " words) = true.
Proof.
  intros Hne Hall. revert b.
  induction Hall as [|w l [Hw Hnw] Hl IH]; intros b; [congruence|].
  destruct l as [|w' l].
  - simpl. apply solid_tidy_from; [|exact Hnw].
    eapply all_chars_impl; [|exact Hw].
    intros c Hc. apply negb_true_iff. now apply phone_char_cases.
  - change (PyStr.join " " (w :: w' :: l))
      with (w ++ " " ++ PyStr.join " " (w' :: l)).
    rewrite tidy_from_app by assumption.
    change (tidy_from false (" " ++ PyStr.join " " (w' :: l)))
      with (tidy_from true (PyStr.join " " (w' :: l))).
    apply IH. discriminate.
Qed.

Lemma no_upper_join words :
  Forall (fun w => PyStr.all_chars phone_char w = true /\ w <> "") words ->
  PyStr.all_chars (fun c => negb (PyStr.is_upper c)) (PyStr.join " " words) = true.
Proof.
  induction 1 as [|w l [Hw _] Hl IH]; [reflexivity|].
  assert (Hu : PyStr.all_chars (fun c => negb (PyStr.is_upper c)) w = true).
  { eapply all_chars_impl; [|exact Hw]. intros c Hc. apply negb_true_iff.
    now apply phone_char_cases. }
  destruct l as [|w' l]; [exact Hu|].
  change (PyStr.join " " (w :: w' :: l))
    with (w ++ " " ++ PyStr.join " " (w' :: l)).
  rewrite !all_chars_app, Hu, IH. reflexivity.
Qed.

(** Words of digits and phone punctuation, joined by single spaces, are
    settled when the first word starts with an opening bracket or a plus
    sign. *)
Lemma settled_join lead w words :
  lead = "("%char \/ lead = "+"%char ->
  Forall (fun w => PyStr.all_chars phone_char w = true /\ w <> "")
         (String lead w :: words) ->
  settled (PyStr.join " " (String lead w :: words)).
Proof.
  intros Hlead Hall.
  pose proof (no_upper_join _ Hall) as Hu.
  pose proof (tidy_from_join (String lead w :: words) true
                ltac:(discriminate) Hall) as Ht.
  assert (E : exists rest, PyStr.join " " (String lead w :: words) = String lead rest).
  { destruct words; simpl; eauto. }
  destruct E as [rest E]. rewrite E in *.
  assert (Hl := lower_fixed _ Hu).
  unfold settled. rewrite Hl.
  split; [discriminate|]. split.
  - apply clean_string_fixed; [exact Ht|]. rewrite Hl.
    destruct Hlead as [-> | ->]; reflexivity.
  - destruct Hlead as [-> | ->]; reflexivity.
Qed.

Lemma bracketed_word a :
  PyStr.all_chars PyStr.is_digit a = true ->
  PyStr.all_chars phone_char (String "(" (a ++ ")")) = true
  /\ String "(" (a ++ ")") <> "".
Proof.
  intros Ha. split; [|discriminate].
  change (String "(" (a ++ ")")) with ("(" ++ a ++ ")").
  rewrite !all_chars_app, (digit_phone_char a Ha). reflexivity.
Qed.

Lemma dashed_word b c :
  PyStr.all_chars PyStr.is_digit b = true ->
  PyStr.all_chars PyStr.is_digit c = true ->
  PyStr.all_chars phone_char (b ++ "-" ++ c) = true /\ b ++ "-" ++ c <> "".
Proof.
  intros Hb Hc. split; [|now destruct b].
  rewrite !all_chars_app, (digit_phone_char b Hb), (digit_phone_char c Hc).
  reflexivity.
Qed.

Lemma phone_layout_settled d pc :
  PyStr.all_chars PyStr.is_digit d = true ->
  settled pc -> settled (phone_layout d pc).
Proof.
  intros Hd Hpc. unfold phone_layout.
  assert (Ht : forall n s, PyStr.all_chars PyStr.is_digit s = true ->
                           PyStr.all_chars PyStr.is_digit (take_chars n s) = true)
    by (intros; now apply all_chars_take).
  assert (Hr : forall n, PyStr.all_chars PyStr.is_digit (PyStr.drop_chars n d) = true)
    by (intros; now apply all_chars_drop).
  destruct (String.length d =? 10)%nat.
  { replace ("(" ++ take_chars 3 d ++ ") " ++ take_chars 3 (PyStr.drop_chars 3 d)
             ++ "-" ++ PyStr.drop_chars 6 d)
      with (PyStr.join " " [String "(" (take_chars 3 d ++ ")");
                            take_chars 3 (PyStr.drop_chars 3 d) ++ "-"
                            ++ PyStr.drop_chars 6 d]).
    - apply settled_join; [now left|].
      repeat constructor;
        try apply bracketed_word; try apply dashed_word; auto.
    - cbn [PyStr.join].
      change (String "(" (take_chars 3 d ++ ")")) with ("(" ++ take_chars 3 d ++ ")").
      rewrite !str_app_assoc. reflexivity. }
  destruct (_ && _).
  { replace ("+1 (" ++ take_chars 3 (PyStr.drop_chars 1 d) ++ ") "
             ++ take_chars 3 (PyStr.drop_chars 4 d) ++ "-" ++ PyStr.drop_chars 7 d)
      with (PyStr.join " " [String "+" "1";
                            String "(" (take_chars 3 (PyStr.drop_chars 1 d) ++ ")");
                            take_chars 3 (PyStr.drop_chars 4 d) ++ "-"
                            ++ PyStr.drop_chars 7 d]).
    - apply settled_join; [now right|].
      repeat constructor;
        try apply bracketed_word; try apply dashed_word; auto; discriminate.
    - cbn [PyStr.join].
      change (String "(" (take_chars 3 (PyStr.drop_chars 1 d) ++ ")"))
        with ("(" ++ take_chars 3 (PyStr.drop_chars 1 d) ++ ")").
      rewrite !str_app_assoc. reflexivity. }
  destruct (10 <=? String.length d)%nat; [|exact Hpc].
  change ("+" ++ d) with (PyStr.join " " [String "+" d]).
  apply settled_join; [now right|].
  repeat constructor; [|discriminate].
  simpl. now apply digit_phone_char.
Qed.

(** X4. [parse_phone] keeps the digits of the cleaned number, in their order
    (unless it blanks the value), and a number it has laid out is returned
    unchanged when it is parsed again. *)
Theorem parse_phone_idempotent (v : cell) :
  (parse_phone v = ""
   \/ keep_digits (parse_phone v) = keep_digits (clean_string v))
  /\ parse_phone (Str (parse_phone v)) = parse_phone v.
Proof.
  rewrite !(parse_phone_unfold v).
  destruct (falsy v); [split; [now left|reflexivity]|].
  destruct (String.eqb (clean_string v) "") eqn:Ee; [split; [now left|reflexivity]|].
  destruct (mem_str _ bad_phones) eqn:Eb; [split; [now left|reflexivity]|].
  pose proof (keep_digits_digits (clean_string v)) as Hd.
  pose proof (phone_layout_digits _ (clean_string v) Hd eq_refl) as Hk.
  split; [now right|].
  assert (Hs : settled (clean_string v)).
  { split; [now apply String.eqb_neq|]. split; [|exact Eb].
    apply clean_string_fixed;
      [apply clean_string_tidy|apply clean_string_not_blank]. }
  destruct (phone_layout_settled _ _ Hd Hs) as (Hne & Hc & Hbad).
  rewrite parse_phone_unfold. simpl falsy.
  apply String.eqb_neq in Hne. rewrite Hne, Hc, Hne, Hbad, Hk.
  apply phone_layout_stable.
Qed.

(** ** Status and priority vocabularies *)

Lemma canonical_statuses_fixed :
  forallb (fun tbl =>
             forallb (fun key =>
                        String.eqb (normalize_status (Str key) tbl.1) key)
                     ("pending" :: map fst tbl.2))
          STATUS_MAPPINGS = true.
Proof. vm_compute. reflexivity. Qed.

(** X5. A canonical status is normalised to itself, so normalising twice is
    normalising once, for every entity type. *)
Theorem normalize_status_idempotent (status : cell) (entity_type : string) :
  normalize_status (Str (normalize_status status entity_type)) entity_type
  = normalize_status status entity_type.
Proof.
  destruct (normalize_status_range status entity_type) as [-> | Hin].
  - unfold normalize_status. reflexivity.
  - unfold canonical_statuses in Hin.
    destruct (assoc entity_type STATUS_MAPPINGS) as [tbl|] eqn:Ea;
      [|destruct Hin].
    apply assoc_In in Ea.
    pose proof canonical_statuses_fixed as Hall.
    rewrite forallb_forall in Hall. specialize (Hall _ Ea).
    rewrite forallb_forall in Hall. cbn [fst snd] in Hall.
    apply String.eqb_eq. apply Hall. right. exact Hin.
Qed.

Lemma priorities_fixed :
  forallb (fun key => String.eqb (normalize_priority (Str key)) key)
          (map fst PRIORITY_MAP) = true.
Proof. vm_compute. reflexivity. Qed.

Lemma normalize_priority_range priority :
  In (normalize_priority priority) (map fst PRIORITY_MAP).
Proof.
  unfold normalize_priority.
  destruct (falsy priority); [simpl; tauto|].
  destruct (String.eqb _ ""); [simpl; tauto|].
  destruct (find _ PRIORITY_MAP) as [nv|] eqn:E; [|simpl; tauto].
  eapply find_key_in, E.
Qed.

(** X6. [normalize_priority] returns one of low, medium, high, critical; a
    value it has returned is returned again; and, unlike the status, a
    priority is matched as a whole word only: a text that merely contains a
    variant gets the default. *)
Theorem normalize_priority_idempotent (priority : cell) :
  In (normalize_priority priority) ["low"; "medium"; "high"; "critical"]
  /\ normalize_priority (Str (normalize_priority priority))
     = normalize_priority priority
  /\ (~ In (PyStr.lower (clean_string priority))
           (flat_map snd PRIORITY_MAP) ->
      normalize_priority priority = "medium").
Proof.
  split; [apply normalize_priority_range|]. split.
  - pose proof priorities_fixed as Hall. rewrite forallb_forall in Hall.
    apply String.eqb_eq. apply Hall. apply normalize_priority_range.
  - intros Hnot. unfold normalize_priority.
    destruct (falsy priority); [reflexivity|].
    destruct (String.eqb _ ""); [reflexivity|].
    destruct (find _ PRIORITY_MAP) as [nv|] eqn:E; [|reflexivity].
    apply find_some in E as [Hin Hm]. apply mem_str_In in Hm.
    exfalso. apply Hnot. apply in_flat_map. now exists nv.
Qed.

Lemma normalize_priority_idempotent_witness :
  normalize_priority (Str "very urgent") = "medium".
Proof.
  apply (normalize_priority_idempotent (Str "very urgent")).
  simpl. intuition discriminate.
Defined.

(** ** Class lists *)

(** How a list of Nice classes is usually written: the numbers in decimal,
    separated by a comma and a space. *)
Definition render_classes (l : list Z) : string :=
  PyStr.join ", " (map PyStr.str_of_Z l).

Lemma class_numerals :
  forallb (fun n => PyStr.isdigit (PyStr.str_of_Z n)
                    && (PyStr.int_of_digits (PyStr.str_of_Z n) =? n)%Z)
          (seqZ 1 45) = true.
Proof. vm_compute. reflexivity. Qed.

Lemma class_numeral n :
  (1 <= n <= 45)%Z ->
  PyStr.str_of_Z n <> ""
  /\ PyStr.all_chars PyStr.is_digit (PyStr.str_of_Z n) = true
  /\ PyStr.int_of_digits (PyStr.str_of_Z n) = n.
Proof.
  intros Hn.
  pose proof (forallb_seqZ _ 1 45 class_numerals n ltac:(lia)) as H.
  cbv beta in H. apply andb_true_iff in H as [Hd Hv].
  apply Z.eqb_eq in Hv. unfold PyStr.isdigit in Hd.
  apply andb_true_iff in Hd as [Hne Hd].
  apply negb_true_iff, String.eqb_neq in Hne. auto.
Qed.

Lemma digit_not_sep c : PyStr.is_digit c = true -> class_sep c = false.
Proof.
  destruct c as [[] [] [] [] [] [] [] []]; try discriminate; reflexivity.
Qed.

Lemma digit_solid c : PyStr.is_digit c = true -> PyStr.is_space c = false.
Proof.
  destruct c as [[] [] [] [] [] [] [] []]; try discriminate; reflexivity.
Qed.

Lemma tidy_from_digits w rest b :
  PyStr.all_chars PyStr.is_digit w = true -> w <> "" ->
  tidy_from b (w ++ rest) = tidy_from false rest.
Proof.
  revert b. induction w as [|c w IH]; intros b Hw Hne; [congruence|].
  simpl in *. apply andb_true_iff in Hw as [Hc Hw].
  rewrite (digit_solid c Hc).
  destruct w as [|d w]; [reflexivity|]. now apply IH.
Qed.

Lemma str_app_empty (s : string) : s ++ "" = s.
Proof.
  induction s as [|c s IH]; [reflexivity|].
  change (String c (s ++ "") = String c s). now f_equal.
Qed.

Definition numeral (w : string) : Prop :=
  PyStr.all_chars PyStr.is_digit w = true /\ w <> "".

Lemma tidy_from_numerals words b :
  words <> [] -> Forall numeral words ->
  tidy_from b (PyStr.join ", " words) = true.
Proof.
  intros Hne Hall. revert b.
  induction Hall as [|w l [Hw Hnw] Hl IH]; intros b; [congruence|].
  destruct l as [|w' l].
  - cbn [PyStr.join]. rewrite <- (str_app_empty w).
    now rewrite tidy_from_digits.
  - change (PyStr.join ", " (w :: w' :: l))
      with (w ++ ", " ++ PyStr.join ", " (w' :: l)).
    rewrite tidy_from_digits by assumption.
    change (tidy_from false (", " ++ PyStr.join ", " (w' :: l)))
      with (tidy_from true (PyStr.join ", " (w' :: l))).
    apply IH. discriminate.
Qed.

Lemma digit_first_not_blank c s :
  PyStr.is_digit c = true ->
  mem_str (PyStr.lower (String c s)) legacy_blanks = false.
Proof.
  destruct c as [[] [] [] [] [] [] [] []]; try discriminate; reflexivity.
Qed.

Lemma clean_rendered words :
  words <> [] -> Forall numeral words ->
  PyStr.join ", " words <> ""
  /\ clean_string (Str (PyStr.join ", " words)) = PyStr.join ", " words.
Proof.
  intros Hne Hall.
  pose proof (tidy_from_numerals words true Hne Hall) as Ht.
  destruct words as [|w l]; [congruence|].
  apply Forall_cons in Hall as [[Hw Hnw] _].
  destruct w as [|c w]; [congruence|].
  assert (E : exists rest, PyStr.join ", " (String c w :: l) = String c rest).
  { destruct l; simpl; eauto. }
  destruct E as [rest E]. rewrite E in *.
  split; [discriminate|].
  apply clean_string_fixed; [exact Ht|].
  simpl in Hw. apply andb_true_iff in Hw as [Hc _].
  now apply digit_first_not_blank.
Qed.

Lemma split_runs_word w cur b rest :
  PyStr.all_chars PyStr.is_digit w = true ->
  split_runs_aux class_sep cur b (w ++ rest)
  = split_runs_aux class_sep (cur ++ w)
      (match w with EmptyString => b | _ => false end) rest.
Proof.
  revert cur b. induction w as [|c w IH]; intros cur b Hw.
  - simpl. now rewrite str_app_empty.
  - simpl in Hw. apply andb_true_iff in Hw as [Hc Hw].
    change (String c w ++ rest) with (String c (w ++ rest)).
    cbn [split_runs_aux]. rewrite (digit_not_sep c Hc), (IH _ _ Hw).
    replace ((cur ++ String c "") ++ w) with (cur ++ String c w)
      by (rewrite str_app_assoc; reflexivity).
    now destruct w.
Qed.

Lemma split_runs_rendered words cur b :
  words <> [] -> Forall numeral words ->
  split_runs_aux class_sep cur b (PyStr.join ", " words)
  = match words with
    | w :: l => (cur ++ w) :: l
    | [] => []
    end.
Proof.
  intros Hne Hall. revert cur b.
  induction Hall as [|w l [Hw Hnw] Hl IH]; intros cur b; [congruence|].
  destruct l as [|w' l].
  - cbn [PyStr.join].
    rewrite <- (take_drop_chars (String.length w) w) at 1.
    assert (Hd : PyStr.drop_chars (String.length w) w = "").
    { clear. induction w; [reflexivity|]. exact IHw. }
    assert (Ht : take_chars (String.length w) w = w).
    { clear. induction w as [|c w IH]; [reflexivity|]. simpl. now rewrite IH. }
    rewrite Hd, Ht, split_runs_word by exact Hw. reflexivity.
  - change (PyStr.join ", " (w :: w' :: l))
      with (w ++ ", " ++ PyStr.join ", " (w' :: l)).
    rewrite split_runs_word by exact Hw.
    destruct w as [|c w]; [congruence|].
    change (", " ++ PyStr.join ", " (w' :: l))
      with (String "," (String " " (PyStr.join ", " (w' :: l)))).
    cbn [split_runs_aux]. change (class_sep ",") with true.
    change (class_sep " ") with true. cbn iota.
    f_equal. rewrite IH by discriminate. reflexivity.
Qed.

(** The classes one piece of the text contributes. *)
Definition part_classes (part : string) : list Z :=
  let part := PyStr.strip part in
  if PyStr.isdigit part
  then filter (fun n => nice_class n = true) [PyStr.int_of_digits part]
  else filter (fun n => nice_class n = true)
              (map PyStr.int_of_digits (PyStr.digit_runs part)).

Lemma parse_classes_unfold v :
  parse_classes v =
  if isna v || falsy v then []
  else if String.eqb (clean_string v) "" then []
  else sorted_set (flat_map part_classes (split_runs class_sep (clean_string v))).
Proof. reflexivity. Qed.

Lemma classes_of_numerals (l : list Z) :
  Forall (fun n => (1 <= n <= 45)%Z) l ->
  flat_map part_classes (map PyStr.str_of_Z l) = l.
Proof.
  induction 1 as [|n l Hn Hl IH]; [reflexivity|].
  change (part_classes (PyStr.str_of_Z n)
          ++ flat_map part_classes (map PyStr.str_of_Z l) = n :: l)%list.
  rewrite IH.
  destruct (class_numeral n Hn) as (Hne & Hd & Hv).
  assert (Hs : PyStr.strip (PyStr.str_of_Z n) = PyStr.str_of_Z n).
  { unfold PyStr.strip.
    assert (Hp : PyStr.all_chars plain_char (PyStr.str_of_Z n) = true).
    { eapply all_chars_impl; [|exact Hd]. intros c Hc. unfold plain_char.
      now rewrite Hc. }
    now rewrite (plain_lstrip _ Hp), (plain_rstrip _ Hp). }
  unfold part_classes. cbv zeta. rewrite Hs. unfold PyStr.isdigit.
  apply String.eqb_neq in Hne. rewrite Hne, Hd, Hv. cbn [negb andb].
  rewrite filter_cons_True.
  - reflexivity.
  - unfold nice_class. apply andb_true_iff. split; apply Z.leb_le; lia.
Qed.

(** X7. Reading back a written class list: [parse_classes] returns the
    classes in increasing order, each once, whatever their order and
    repetitions in the text. *)
Theorem parse_classes_rendered (l : list Z) :
  l <> [] -> Forall (fun n => (1 <= n <= 45)%Z) l ->
  parse_classes (Str (render_classes l)) = sorted_set l.
Proof.
  intros Hne Hall. unfold render_classes.
  assert (Hw : Forall numeral (map PyStr.str_of_Z l)).
  { apply Forall_map. eapply Forall_impl; [exact Hall|].
    intros n Hn. destruct (class_numeral n Hn) as (? & ? & _). now split. }
  assert (Hne' : map PyStr.str_of_Z l <> []) by now destruct l.
  destruct (clean_rendered _ Hne' Hw) as [Hs Hc].
  rewrite parse_classes_unfold. cbn [isna falsy orb].
  apply String.eqb_neq in Hs. rewrite Hs, Hc, Hs.
  unfold split_runs. rewrite (split_runs_rendered _ "" false Hne' Hw).
  destruct (map PyStr.str_of_Z l) as [|w ws] eqn:E; [congruence|].
  change ("" ++ w) with w. rewrite <- E.
  now rewrite classes_of_numerals.
Qed.

Lemma parse_classes_rendered_witness :
  parse_classes (Str (render_classes [35; 9; 35; 1]%Z)) = [1; 9; 35]%Z.
Proof.
  rewrite parse_classes_rendered.
  - reflexivity.
  - discriminate.
  - repeat constructor; lia.
Defined.

(** ** Score ranges *)

Lemma round2_100 : (round2 100 == 100)%Q.
Proof. reflexivity. Qed.

Lemma round2_0 : (round2 0 == 0)%Q.
Proof. reflexivity. Qed.

Lemma round2_range q : (0 <= q <= 100)%Q -> (0 <= round2 q <= 100)%Q.
Proof.
  intros [Hlo Hhi]. split.
  - rewrite <- round2_0. now apply round2_mono.
  - rewrite <- round2_100. now apply round2_mono.
Qed.

Lemma max0_le q b : (0 <= b)%Q -> (q <= b)%Q -> (max0 q <= b)%Q.
Proof.
  intros Hb Hq. unfold max0. now destruct (Qle_bool 0 q).
Qed.

Lemma score_of_range i n :
  (0 <= i)%Z -> (0 < n)%Z -> (0 <= score_of i n <= 100)%Q.
Proof.
  intros Hi Hn. unfold score_of. apply round2_range. split.
  - apply max0_nonneg.
  - apply max0_le; [discriminate|].
    assert (Hr : (inject_Z 0 / inject_Z 1 <= inject_Z i / inject_Z n)%Q)
      by (apply ratio_le; lia).
    assert (E0 : (inject_Z 0 / inject_Z 1 == 0)%Q) by reflexivity.
    rewrite E0 in Hr. lra.
Qed.

Section Ranges.
Context `{DateParser}.

Lemma total_issues_nonneg df entity_type :
  wf_frame df ->
  (0 <= missing_count df entity_type + invalid_date_count df entity_type
        + invalid_email_count df entity_type + duplicate_count df)%Z.
Proof.
  intros Hwf.
  pose proof (sum_fields_nonneg df count_missing (critical_fields entity_type)
                count_missing_nonneg) as Hm.
  pose proof (sum_fields_nonneg df count_invalid_dates (date_fields entity_type)
                (fun s => count_true_nonneg _)) as Hd.
  pose proof (invalid_email_count_nonneg df entity_type Hwf) as He.
  assert (Hu : (0 <= duplicate_count df)%Z).
  { unfold duplicate_count. destruct (column _ _); [apply count_true_nonneg|lia]. }
  unfold missing_count, invalid_date_count. lia.
Qed.

Lemma quality_score_range_aux df entity_type :
  wf_frame df ->
  (0 <= quality_score (validate_data_quality df entity_type) <= 100)%Q.
Proof.
  intros Hwf. destruct (Nat.eq_dec (nrows df) 0) as [Hz|Hnz].
  - destruct (validate_data_quality_empty df entity_type Hz) as (_ & -> & _).
    split; discriminate.
  - destruct (validate_data_quality_counts df entity_type Hnz)
      as (Hr & Hm & Hd & He & Hu & Hs).
    rewrite Hs, Hr, Hm, Hd, He, Hu.
    apply score_of_range; [now apply total_issues_nonneg|lia].
Qed.

Lemma overall_score_range metrics business :
  (0 <= quality_score metrics <= 100)%Q ->
  (0 <= _calculate_overall_score metrics business <= 100)%Q.
Proof.
  intros [Hlo Hhi]. unfold _calculate_overall_score.
  set (e := Z.of_nat (length (b_errors business))).
  assert (Hb : (0 <= (if (0 <? e)%Z then max0 (100 - inject_Z e * 5) else 100)
                <= 100)%Q).
  { destruct (0 <? e)%Z eqn:E; [|split; discriminate].
    apply Z.ltb_lt in E. split; [apply max0_nonneg|].
    apply max0_le; [discriminate|].
    assert (He : (0 <= inject_Z e)%Q) by (unfold Qle; simpl; lia).
    lra. }
  apply round2_range. destruct Hb as [Hb1 Hb2]. split; lra.
Qed.

End Ranges.

(** X8. The quality score of a well-formed frame lies between 0 and 100. *)
Theorem quality_score_range `{DateParser} (df : Frame cell) (entity_type : string) :
  wf_frame df ->
  (0 <= quality_score (validate_data_quality df entity_type) <= 100)%Q.
Proof. apply quality_score_range_aux. Qed.

Lemma sample_clients_wf : wf_frame sample_clients.
Proof. unfold wf_frame, sample_clients. simpl. repeat constructor. Qed.

Lemma quality_score_range_witness :
  (0 <= quality_score (@validate_data_quality simple_parser sample_clients "clients")
   <= 100)%Q.
Proof.
  exact (@quality_score_range simple_parser sample_clients "clients"
           sample_clients_wf).
Defined.

(** ** The report of one file *)

Section FileReport.
Context `{DateParser}.
Variable today : string.

(** A successful result and what it is made of. *)
Lemma validate_file_result (files : gmap string csv_file) file_path entity_type :
  status (validate_file today files file_path entity_type) = "success" ->
  exists df b r,
    files !! file_path = Some (Csv df)
    /\ _validate_business_rules today df entity_type = Some b
    /\ _validate_referential_integrity files df entity_type = Some r
    /\ validate_file today files file_path entity_type
       = ResultSuccess entity_type file_path (nrows df)
           (validate_data_quality df entity_type) b r
           (_calculate_overall_score (validate_data_quality df entity_type) b).
Proof.
  unfold validate_file.
  destruct (files !! file_path) as [[|df]|]; simpl; try discriminate.
  destruct (_validate_business_rules today df entity_type) as [b|] eqn:Eb; simpl;
    [|discriminate].
  destruct (_validate_referential_integrity files df entity_type) as [r|] eqn:Er;
    simpl; [|discriminate].
  intros _. exists df, b, r. repeat split; assumption || reflexivity.
Qed.

Lemma business_rules_no_rows df entity_type b :
  nrows df = 0%nat ->
  _validate_business_rules today df entity_type = Some b -> b_errors b = [].
Proof.
  intros Hn. unfold _validate_business_rules.
  assert (Hi : iterrows df = []) by (unfold iterrows; now rewrite Hn).
  destruct (String.eqb entity_type "clients").
  { intros [= <-]. unfold _validate_client_business_rules. now rewrite Hi. }
  destruct (String.eqb entity_type "patents").
  { intros [= <-]. unfold _validate_patent_business_rules. now rewrite Hi. }
  destruct (String.eqb entity_type "trademarks").
  { intros [= <-]. unfold _validate_trademark_business_rules. now rewrite Hi. }
  destruct (String.eqb entity_type "deadlines"); [|now intros [= <-]].
  unfold _validate_deadline_business_rules. rewrite Hi.
  destruct (column df "status") as [st|]; [|discriminate]. simpl.
  destruct (str_accessor st); [|discriminate]. simpl.
  now intros [= <-].
Qed.

End FileReport.

(** X9. A file with a header and no rows that validates gets the overall
    score 30: quality 0 and a full business score. *)
Theorem empty_file_scores_30 `{DateParser} (today : string)
  (files : gmap string csv_file) (file_path entity_type : string) (df : Frame cell) :
  files !! file_path = Some (Csv df) ->
  nrows df = 0%nat ->
  status (validate_file today files file_path entity_type) = "success" ->
  exists s, get_overall_score (validate_file today files file_path entity_type)
            = Some s /\ (s == 30)%Q.
Proof.
  intros Hf Hn Hs.
  apply validate_file_result in Hs as (df' & b & r & Hf' & Hb & _ & ->).
  rewrite Hf in Hf'. injection Hf' as <-.
  eexists. split; [reflexivity|].
  unfold _calculate_overall_score.
  rewrite (business_rules_no_rows today df entity_type b Hn Hb).
  destruct (validate_data_quality_empty df entity_type Hn) as (_ & -> & _).
  reflexivity.
Qed.

Lemma empty_file_scores_30_witness :
  exists s,
    get_overall_score
      (@validate_file simple_parser "2026-01-01"
         (<["patents.csv" := Csv (mkFrame 0 [("patent_id", []); ("title", [])])]> ∅)
         "patents.csv" "patents") = Some s
    /\ (s == 30)%Q.
Proof.
  eapply (@empty_file_scores_30 simple_parser); reflexivity.
Defined.

(** X10. The referential check never changes a score: two sets of files that
    hold the same file for an entity give it the same overall score
    whenever both validations succeed, whatever [clients.csv] is. *)
Theorem referential_check_leaves_score `{DateParser} (today : string)
  (files files' : gmap string csv_file) (file_path entity_type : string) :
  files !! file_path = files' !! file_path ->
  status (validate_file today files file_path entity_type) = "success" ->
  status (validate_file today files' file_path entity_type) = "success" ->
  get_overall_score (validate_file today files file_path entity_type)
  = get_overall_score (validate_file today files' file_path entity_type).
Proof.
  intros Hsame Hs Hs'.
  apply validate_file_result in Hs as (df & b & r & Hf & Hb & _ & ->).
  apply validate_file_result in Hs' as (df' & b' & r' & Hf' & Hb' & _ & ->).
  rewrite Hsame, Hf' in Hf. injection Hf as <-.
  rewrite Hb in Hb'. injection Hb' as <-. reflexivity.
Qed.

(** Every frame among the files is well formed. *)
Definition wf_files (files : gmap string csv_file) : Prop :=
  forall file_path df, files !! file_path = Some (Csv df) -> wf_frame df.

Lemma Qsum_range_from (l : list Q) (acc : Q) :
  Forall (fun s => 0 <= s <= 100)%Q l ->
  (acc <= fold_left Qplus l acc
   <= acc + 100 * inject_Z (Z.of_nat (length l)))%Q.
Proof.
  intros Hall. revert acc. induction Hall as [|s l [Hlo Hhi] Hl IH]; intros acc.
  - cbn [fold_left length]. change (inject_Z (Z.of_nat 0)) with 0%Q.
    split; lra.
  - cbn [fold_left length]. destruct (IH (acc + s)%Q) as [I1 I2].
    rewrite Nat2Z.inj_succ. unfold Z.succ. rewrite inject_Z_plus.
    split; [lra|].
    change (inject_Z 1) with 1%Q. lra.
Qed.

Lemma mean_range (l : list Q) :
  Forall (fun s => 0 <= s <= 100)%Q l -> (0 <= mean l <= 100)%Q.
Proof.
  intros Hall. unfold mean. destruct l as [|s l]; [split; discriminate|].
  destruct (Qsum_range_from (s :: l) 0 Hall) as [H1 H2].
  fold (Qsum (s :: l)) in H1, H2.
  set (n := inject_Z (Z.of_nat (length (s :: l)))) in *.
  assert (Hn : (0 < n)%Q) by (unfold n, Qlt; simpl; lia).
  split.
  - apply Qle_shift_div_l; [exact Hn|]. lra.
  - apply Qle_shift_div_r; [exact Hn|]. lra.
Qed.

(** X11. Overall scores and the system score lie between 0 and 100 when the
    frames are well formed. *)
Theorem report_scores_range `{DateParser} (today : string)
  (files : gmap string csv_file) :
  wf_files files ->
  (forall file_path entity_type s,
      get_overall_score (validate_file today files file_path entity_type) = Some s ->
      (0 <= s <= 100)%Q)
  /\ (0 <= system_quality_score (validate_all today files) <= 100)%Q.
Proof.
  intros Hwf.
  assert (Hone : forall file_path entity_type s,
             get_overall_score (validate_file today files file_path entity_type)
             = Some s -> (0 <= s <= 100)%Q).
  { intros file_path entity_type s Hs.
    assert (Hst : status (validate_file today files file_path entity_type)
                  = "success").
    { destruct (validate_file today files file_path entity_type);
        [discriminate Hs|reflexivity]. }
    apply validate_file_result in Hst as (df & b & r & Hf & _ & _ & E).
    rewrite E in Hs. injection Hs as <-.
    apply overall_score_range, quality_score_range_aux. eapply Hwf, Hf. }
  split; [exact Hone|].
  rewrite validate_all_system_score. apply round2_range, mean_range.
  rewrite validate_all_results.
  apply Forall_forall. intros s Hs.
  apply list_elem_of_In, filter_In in Hs as [Hs _].
  unfold computed_scores in Hs. apply list_elem_of_In, list_elem_of_omap in Hs.
  destruct Hs as ([et r] & Hin & Hr). simpl in Hr.
  apply list_elem_of_In, in_map_iff in Hin as ([f e] & [= <- <-] & _).
  eapply Hone, Hr.
Qed.

Lemma two_files_wf : wf_files two_files.
Proof.
  intros file_path df. unfold two_files.
  rewrite lookup_insert. destruct (decide ("clients.csv" = file_path)).
  { intros [= <-]. unfold wf_frame. simpl. repeat constructor. }
  rewrite lookup_insert. destruct (decide ("patents.csv" = file_path)).
  { intros [= <-]. unfold wf_frame. simpl. repeat constructor. }
  rewrite lookup_empty. discriminate.
Qed.

Lemma report_scores_range_witness :
  (0 <= system_quality_score (@validate_all simple_parser "2026-01-01" two_files)
   <= 100)%Q.
Proof.
  exact (proj2 (@report_scores_range simple_parser "2026-01-01" two_files
                  two_files_wf)).
Defined.

Lemma referential_check_leaves_score_witness :
  get_overall_score
    (@validate_file simple_parser "2026-01-01" two_files "patents.csv" "patents")
  = get_overall_score
      (@validate_file simple_parser "2026-01-01" (delete "clients.csv" two_files)
         "patents.csv" "patents").
Proof.
  apply (@referential_check_leaves_score simple_parser); vm_compute; reflexivity.
Defined.

(** ** Empty e-mail cells *)

Lemma assoc_row_at df i c :
  assoc c (row_at df i) = (fun s => nth i s NaN) <$> column df c.
Proof.
  unfold row_at, column. induction (cols df) as [|[k v] l IH]; [reflexivity|].
  simpl. destruct (String.eqb k c); [reflexivity|exact IH].
Qed.

Lemma valid_or_missing s :
  (count_valid_emails s + count_missing s <= Z.of_nat (length s))%Z.
Proof.
  unfold count_valid_emails, count_missing.
  induction s as [|x s IH]; [unfold count_true; simpl; lia|].
  cbn [map length]. rewrite !count_true_cons, Nat2Z.inj_succ.
  destruct x as [|t|z]; cbn [isna falsy].
  - rewrite bool_decide_eq_false_2 by discriminate.
    change (parse_email NaN) with "". change (String.eqb "" "") with true.
    cbv iota. simpl negb. lia.
  - destruct (decide (t = "")) as [->|Ht].
    + rewrite bool_decide_eq_true_2 by reflexivity.
      change (String.eqb "" "") with true. cbv iota. lia.
    + rewrite bool_decide_eq_false_2 by congruence.
      destruct (if String.eqb t "" then false else _); lia.
  - rewrite bool_decide_eq_false_2 by discriminate.
    destruct (if (z =? 0)%Z then false else _); lia.
Qed.

Lemma length_flat_map_ge {A B} (f : A -> list B) (p : A -> bool) (l : list A) :
  (forall x, p x = true -> (1 <= length (f x))%nat) ->
  (count_true (map p l) <= Z.of_nat (length (flat_map f l)))%Z.
Proof.
  intros Hf. induction l as [|x l IH]; [unfold count_true; simpl; lia|].
  cbn [map flat_map]. rewrite count_true_cons, length_app.
  destruct (p x) eqn:E; [specialize (Hf x E)|]; lia.
Qed.

Section BlankEmail.
Context `{DateParser}.

Lemma client_rules_flag_nan df s :
  wf_frame df -> column df "email" = Some s ->
  (count_true (map isna s)
   <= Z.of_nat (length (_validate_client_business_rules df)))%Z.
Proof.
  intros Hwf Hs. unfold _validate_client_business_rules, iterrows.
  rewrite flat_map_concat_map, map_map, <- flat_map_concat_map.
  rewrite <- (map_nth_seq NaN s) at 1.
  rewrite (wf_column df _ _ Hwf Hs), map_map.
  apply (length_flat_map_ge
           (fun i => let '(idx, row) := (i, row_at df i) in _)
           (fun i => isna (nth i s NaN))).
  intros i Hi. cbv beta iota zeta.
  rewrite assoc_row_at, Hs. simpl.
  destruct (nth i s NaN); try discriminate. simpl. lia.
Qed.

Lemma blank_email_issues df s :
  wf_frame df -> nrows df <> 0%nat -> column df "email" = Some s ->
  let m := validate_data_quality df "clients" in
  (2 * count_missing s <= missing_critical_fields m + invalid_emails m)%Z.
Proof.
  intros Hwf Hn Hs m.
  destruct (validate_data_quality_counts df "clients" Hn)
    as (_ & Hm & _ & He & _). fold m in Hm, He. rewrite Hm, He.
  unfold missing_count, invalid_email_count. simpl. rewrite Hs.
  pose proof (valid_or_missing s) as Hv.
  rewrite (wf_column df _ _ Hwf Hs) in Hv.
  destruct (column df "client_name") as [names|];
    [pose proof (count_missing_nonneg names)|]; lia.
Qed.

End BlankEmail.

(** X12. An empty e-mail cell of a client file is counted twice in the quality
    metrics (as a missing critical field and as an invalid e-mail), and a
    NaN cell is also reported as a business-rule violation. *)
Theorem blank_email_counted_twice `{DateParser} (df : Frame cell) (s : list cell) :
  wf_frame df -> nrows df <> 0%nat -> column df "email" = Some s ->
  let m := validate_data_quality df "clients" in
  (2 * count_missing s <= missing_critical_fields m + invalid_emails m)%Z
  /\ (count_true (map isna s)
      <= Z.of_nat (length (_validate_client_business_rules df)))%Z.
Proof.
  intros Hwf Hn Hs m. split.
  - now apply blank_email_issues.
  - now apply client_rules_flag_nan.
Qed.

Definition blank_email_clients : Frame cell :=
  mkFrame 2 [ ("client_name", [Str "Acme"; Str "Mia Smith"]);
              ("email", [NaN; Str "mia@example.com"]) ].

Lemma blank_email_counted_twice_witness :
  let m := @validate_data_quality simple_parser blank_email_clients "clients" in
  (2 * 1 <= missing_critical_fields m + invalid_emails m)%Z
  /\ (1 <= Z.of_nat (length (_validate_client_business_rules blank_email_clients)))%Z.
Proof.
  apply (@blank_email_counted_twice simple_parser blank_email_clients
           [NaN; Str "mia@example.com"]).
  - unfold wf_frame. simpl. repeat constructor.
  - discriminate.
  - reflexivity.
Defined.

(** ** Transformed frames *)

Lemma length_keep_where {A B} (mask : list bool) (l : list A) (l' : list B) :
  length l = length l' ->
  length (keep_where mask l) = length (keep_where mask l').
Proof.
  revert l l'. induction mask as [|b mask IH]; intros [|x l] [|y l'] Hl;
    try discriminate; try reflexivity.
  injection Hl as Hl. simpl. destruct b; simpl; auto.
Qed.

Lemma get_or_blank_length df c n :
  wf_frame df -> n = nrows df -> length (get_or_blank df c n) = nrows df.
Proof.
  intros Hwf ->. unfold get_or_blank.
  destruct (column df c) as [s|] eqn:E.
  - rewrite length_map. exact (wf_column df c s Hwf E).
  - apply repeat_length.
Qed.

Lemma keep_first_complete {A} `{EqDecision A} (seen l : list A) x :
  x ∈ l -> x ∉ seen -> x ∈ keep_where (map negb (duplicated_from seen l)) l.
Proof.
  revert seen. induction l as [|y l IH]; intros seen Hx Hs.
  { inversion Hx. }
  simpl. destruct (decide (x = y)) as [->|Hxy].
  - rewrite bool_decide_eq_false_2 by exact Hs. simpl. left.
  - assert (x ∈ l) as Hl by (inversion Hx; [congruence|assumption]).
    assert (x ∉ y :: seen) as Hs'.
    { intros Hin. inversion Hin; [congruence|contradiction]. }
    destruct (negb (bool_decide (y ∈ seen))); [right|]; now apply IH.
Qed.

Lemma keep_first_rows {A B} `{EqDecision A} (seen keys : list A) (vals : list B) k v :
  length keys = length vals ->
  (k, v) ∈ zip (keep_where (map negb (duplicated_from seen keys)) keys)
              (keep_where (map negb (duplicated_from seen keys)) vals) ->
  exists i, keys !! i = Some k /\ vals !! i = Some v
            /\ forall j, (j < i)%nat -> keys !! j <> Some k.
Proof.
  revert seen vals. induction keys as [|x keys IH]; intros seen [|y vals] Hl Hin;
    try discriminate.
  { inversion Hin. }
  injection Hl as Hl. simpl in Hin.
  assert (forall seen', (k, v) ∈ zip (keep_where (map negb (duplicated_from seen' keys)) keys)
                             (keep_where (map negb (duplicated_from seen' keys)) vals) ->
                        x ∈ seen' ->
          exists i, (x :: keys) !! i = Some k /\ (y :: vals) !! i = Some v
                    /\ forall j, (j < i)%nat -> (x :: keys) !! j <> Some k) as Hrest.
  { intros seen' Hin' Hx.
    assert (k <> x) as Hk.
    { intros ->. apply elem_of_zip_l in Hin'.
      apply (keep_first_NoDup seen' keys) in Hin' as [Hn _]. contradiction. }
    destruct (IH seen' vals Hl Hin') as (i & Hi & Hv & Hfirst).
    exists (S i). repeat split; [exact Hi|exact Hv|].
    intros [|j] Hj; simpl; [congruence|]. apply Hfirst. lia. }
  destruct (bool_decide (x ∈ seen)); simpl in Hin.
  - apply (Hrest (x :: seen)); [exact Hin|left].
  - apply elem_of_cons in Hin as [[= -> ->]|Hin].
    + exists 0%nat. repeat split. intros j Hj. lia.
    + apply (Hrest (x :: seen)); [exact Hin|left].
Qed.

Section Transformed.
Context `{DateParser}.
Variable jurisdiction_map : gmap string string.

Lemma transform_patents_rows df client_map out :
  wf_frame df -> transform_patents jurisdiction_map df client_map = Some out ->
  wf_frame out /\ nrows out = nrows df.
Proof.
  intros Hwf. unfold transform_patents.
  destruct (column df "patent_id") as [ids|] eqn:Hi; [|discriminate].
  destruct (column df "client_id") as [clients|] eqn:Hc; [|discriminate].
  destruct (column df "title") as [titles|] eqn:Hti; [|discriminate].
  destruct (column df "filing_date") as [filing|] eqn:Hf; [|discriminate].
  destruct (column df "grant_date") as [grant|] eqn:Hg; [|discriminate].
  destruct (column df "jurisdiction") as [jur|] eqn:Hj; [|discriminate].
  intros [= <-].
  pose proof (fun c s => wf_column df c s Hwf) as Hlen.
  match goal with |- wf_frame ?f /\ _ =>
    change f with
      (mkFrame (length (map text (astype_str_strip ids)))
               [ ("external_ref", map text (astype_str_strip ids));
                 ("client_id", map (map_dict client_map) (astype_str_strip clients));
                 ("title", map (fun v => if isna v then text "Untitled" else Raw v)
                               titles);
                 ("filing_date", map (fun v => of_opt_str (to_date v)) filing);
                 ("grant_date", map (fun v => of_opt_str (to_date v)) grant);
                 ("jurisdiction",
                  map (fun x => of_opt_str (jurisdiction_map !! py_str x)) jur);
                 ("status", get_or_blank df "status"
                              (length (map text (astype_str_strip ids)))) ])
  end.
  unfold wf_frame, astype_str_strip. cbn [cols nrows].
  rewrite !length_map, (Hlen _ _ Hi). split; [|reflexivity].
  repeat apply Forall_cons_2; try apply Forall_nil; cbn [snd];
    rewrite ?length_map; eauto.
  apply get_or_blank_length; [exact Hwf|].
  rewrite ?length_map; eauto.
Qed.

Lemma transform_trademarks_rows df client_map out :
  wf_frame df -> transform_trademarks df client_map = Some out ->
  wf_frame out /\ nrows out = nrows df.
Proof.
  intros Hwf. unfold transform_trademarks.
  destruct (column df "tm_id") as [ids|] eqn:Hi; [|discriminate].
  destruct (column df "client_id") as [clients|] eqn:Hc; [|discriminate].
  destruct (column df "mark_text") as [marks|] eqn:Hm; [|discriminate].
  destruct (column df "class") as [classes|] eqn:Hcl; [|discriminate].
  destruct (column df "filing_date") as [filing|] eqn:Hf; [|discriminate].
  intros [= <-].
  pose proof (fun c s => wf_column df c s Hwf) as Hlen.
  match goal with |- wf_frame ?f /\ _ =>
    change f with
      (mkFrame (length (map text (astype_str_strip ids)))
               [ ("external_ref", map text (astype_str_strip ids));
                 ("client_id", map (map_dict client_map) (astype_str_strip clients));
                 ("mark_text", map (fun v => if isna v then text "" else Raw v) marks);
                 ("nice_classes", map (fun v => Classes (parse_classes v)) classes);
                 ("filing_date", map (fun v => of_opt_str (to_date v)) filing);
                 ("status", get_or_blank df "status"
                              (length (map text (astype_str_strip ids)))) ])
  end.
  unfold wf_frame, astype_str_strip. cbn [cols nrows].
  rewrite !length_map, (Hlen _ _ Hi). split; [|reflexivity].
  repeat apply Forall_cons_2; try apply Forall_nil; cbn [snd];
    rewrite ?length_map; eauto.
  apply get_or_blank_length; [exact Hwf|].
  rewrite ?length_map; eauto.
Qed.

Lemma transform_deadlines_rows df patent_map tm_map out :
  wf_frame df -> transform_deadlines df patent_map tm_map = Some out ->
  wf_frame out /\ nrows out = nrows df.
Proof.
  intros Hwf. unfold transform_deadlines.
  destruct (column df "dl_id") as [ids|] eqn:Hi; [|discriminate].
  destruct (column df "related_type") as [types0|] eqn:Hty; [|discriminate].
  simpl. destruct (str_accessor types0) as [types|] eqn:Hacc; [|discriminate].
  simpl. destruct (Nat.eqb (nrows df) 0); [discriminate|].
  destruct (mapM _ (iterrows df)) as [resolved|] eqn:Hres; [|discriminate].
  simpl. destruct (column df "due_date") as [due|] eqn:Hd; [|discriminate].
  intros [= <-].
  apply length_mapM in Hres. unfold iterrows in Hres.
  rewrite length_map, length_seq in Hres.
  assert (types = types0) as ->.
  { unfold str_accessor in Hacc. destruct (_ || _); congruence. }
  pose proof (fun c s => wf_column df c s Hwf) as Hlen.
  match goal with |- wf_frame ?f /\ _ =>
    change f with
      (mkFrame (length (map text (astype_str_strip ids)))
               [ ("external_ref", map text (astype_str_strip ids));
                 ("related_table",
                  map (fun x => if bool_decide (x = Str "patent")
                                then text "patents" else text "trademarks")
                      (map str_lower types0));
                 ("related_id", resolved);
                 ("due_date", map (fun v => of_opt_str (to_date v)) due);
                 ("description", get_or_blank df "description"
                                   (length (map text (astype_str_strip ids)))) ])
  end.
  unfold wf_frame, astype_str_strip. cbn [cols nrows].
  rewrite !length_map, (Hlen _ _ Hi). split; [|reflexivity].
  repeat apply Forall_cons_2; try apply Forall_nil; cbn [snd];
    rewrite ?length_map; eauto.
  apply get_or_blank_length; [exact Hwf|].
  rewrite ?length_map; eauto.
Qed.

End Transformed.

(** X13. Patents, trademarks and deadlines are transformed row by row: a
    well-formed legacy frame gives a well-formed frame with as many rows. *)
Theorem transform_keeps_rows `{DateParser} (jurisdiction_map : gmap string string)
  (df : Frame cell) (client_map patent_map tm_map : gmap string Z)
  (out : Frame out_cell) :
  wf_frame df ->
  transform_patents jurisdiction_map df client_map = Some out
  \/ transform_trademarks df client_map = Some out
  \/ transform_deadlines df patent_map tm_map = Some out ->
  wf_frame out /\ nrows out = nrows df.
Proof.
  intros Hwf [Ht|[Ht|Ht]].
  - exact (transform_patents_rows jurisdiction_map df client_map out Hwf Ht).
  - exact (transform_trademarks_rows df client_map out Hwf Ht).
  - exact (transform_deadlines_rows df patent_map tm_map out Hwf Ht).
Qed.

Lemma sample_patents_wf : wf_frame sample_patents.
Proof. unfold wf_frame. simpl. repeat constructor. Qed.

Lemma transform_keeps_rows_witness :
  exists out,
    @transform_patents simple_parser sample_jurisdictions sample_patents
      sample_client_map = Some out
    /\ wf_frame out /\ nrows out = nrows sample_patents.
Proof.
  eexists. split; [reflexivity|].
  apply (@transform_keeps_rows simple_parser sample_jurisdictions sample_patents
           sample_client_map ∅ ∅).
  - exact sample_patents_wf.
  - left. reflexivity.
Defined.

Section Clients.
Context `{DateParser}.

Lemma transform_clients_wf df out :
  wf_frame df -> transform_clients df = Some out -> wf_frame out.
Proof.
  intros Hwf Ht.
  destruct (transform_clients_shape df out Ht)
    as (ids & names & country & created & Hi & Hn & Hc & Hcr & ->).
  pose proof (fun c s => wf_column df c s Hwf) as Hlen.
  cbv zeta. unfold wf_frame. cbn [cols nrows].
  assert (length (map text (astype_str_strip ids)) = nrows df) as Hk.
  { unfold astype_str_strip. rewrite !length_map. eauto. }
  repeat apply Forall_cons_2; try apply Forall_nil; cbn [snd];
    try reflexivity; apply length_keep_where; rewrite Hk;
    rewrite ?length_map; eauto.
  all: apply get_or_blank_length; [exact Hwf|reflexivity].
Qed.

Lemma transform_clients_keys df out ids keys :
  transform_clients df = Some out ->
  column df "client_id" = Some ids ->
  column out "external_ref" = Some keys ->
  NoDup keys
  /\ (forall k, k ∈ keys <-> k ∈ map text (astype_str_strip ids))
  /\ nrows out = length keys.
Proof.
  intros Ht Hi Hk.
  destruct (transform_clients_shape df out Ht)
    as (ids' & names & country & created & Hi' & _ & _ & _ & ->).
  rewrite Hi in Hi'. injection Hi' as <-.
  cbv zeta in Hk. injection Hk as <-. split; [apply keep_first_NoDup|].
  split; [|reflexivity].
  intros k. split.
  - apply keep_where_elem.
  - intros Hin. apply keep_first_complete; [exact Hin|inversion 1].
Qed.

Lemma transform_clients_first df out ids names keys out_names k v :
  wf_frame df ->
  transform_clients df = Some out ->
  column df "client_id" = Some ids ->
  column df "client_name" = Some names ->
  column out "external_ref" = Some keys ->
  column out "name" = Some out_names ->
  (text k, v) ∈ zip keys out_names ->
  exists i id nm,
    ids !! i = Some id /\ names !! i = Some nm
    /\ PyStr.strip (py_str id) = k
    /\ v = NameDict (first_name (split_name nm)) (last_name (split_name nm))
    /\ forall j id', (j < i)%nat -> ids !! j = Some id' ->
                     PyStr.strip (py_str id') <> k.
Proof.
  intros Hwf Ht Hi Hn Hk Ho Hin.
  destruct (transform_clients_shape df out Ht)
    as (ids' & names' & country & created & Hi' & Hn' & _ & _ & ->).
  rewrite Hi in Hi'. injection Hi' as <-.
  rewrite Hn in Hn'. injection Hn' as <-.
  cbv zeta in Hk, Ho. injection Hk as <-. injection Ho as <-.
  apply keep_first_rows in Hin as (i & Hki & Hvi & Hfirst).
  2:{ unfold astype_str_strip. rewrite !length_map.
      rewrite (wf_column df _ _ Hwf Hi), (wf_column df _ _ Hwf Hn). reflexivity. }
  unfold astype_str_strip in Hki, Hfirst.
  rewrite !list_lookup_fmap in Hki. rewrite list_lookup_fmap in Hvi.
  destruct (ids !! i) as [id|] eqn:Ei; [|discriminate].
  destruct (names !! i) as [nm|] eqn:En; [|discriminate].
  simpl in Hki, Hvi. injection Hki as Hki. injection Hvi as <-.
  exists i, id, nm. repeat split; try assumption.
  intros j id' Hj Ej Hs. apply (Hfirst j Hj).
  rewrite !list_lookup_fmap, Ej. simpl. now rewrite Hs.
Qed.

End Clients.

(** X14. [transform_clients] keeps the first legacy row of every client id:
    the transformed frame is well formed, its keys are the stripped
    client ids without repetition, and the name stored with a key is the
    one of the first legacy row that carries this id. *)
Theorem transform_clients_first_rows `{DateParser} (df : Frame cell)
  (out : Frame out_cell) (ids names : list cell) (keys out_names : list out_cell) :
  wf_frame df ->
  transform_clients df = Some out ->
  column df "client_id" = Some ids ->
  column df "client_name" = Some names ->
  column out "external_ref" = Some keys ->
  column out "name" = Some out_names ->
  wf_frame out
  /\ NoDup keys
  /\ (forall k, k ∈ keys <-> k ∈ map text (astype_str_strip ids))
  /\ forall k v, (text k, v) ∈ zip keys out_names ->
       exists i id nm,
         ids !! i = Some id /\ names !! i = Some nm
         /\ PyStr.strip (py_str id) = k
         /\ v = NameDict (first_name (split_name nm)) (last_name (split_name nm))
         /\ forall j id', (j < i)%nat -> ids !! j = Some id' ->
                          PyStr.strip (py_str id') <> k.
Proof.
  intros Hwf Ht Hi Hn Hk Ho.
  split; [exact (transform_clients_wf df out Hwf Ht)|].
  destruct (transform_clients_keys df out ids keys Ht Hi Hk) as (Hnd & Hset & _).
  split; [exact Hnd|]. split; [exact Hset|].
  intros k v. exact (transform_clients_first df out ids names keys out_names k v
                       Hwf Ht Hi Hn Hk Ho).
Qed.

Lemma transform_clients_first_rows_witness :
  exists out keys out_names,
    @transform_clients simple_parser sample_clients = Some out
    /\ column out "external_ref" = Some keys
    /\ column out "name" = Some out_names
    /\ wf_frame out /\ NoDup keys.
Proof.
  eexists. eexists. eexists.
  split; [reflexivity|]. split; [reflexivity|]. split; [reflexivity|].
  pose proof (@transform_clients_first_rows simple_parser sample_clients _ _ _ _ _
                sample_clients_wf eq_refl eq_refl eq_refl eq_refl eq_refl) as P.
  exact (conj (proj1 P) (proj1 (proj2 P))).
Defined.

(** ** Columns the transforms need *)

Definition has_columns (df : Frame cell) (cs : list string) : bool :=
  forallb (has_column df) cs.

Lemma has_column_true {A} (df : Frame A) c :
  has_column df c = true <-> is_Some (column df c).
Proof.
  unfold has_column. destruct (column df c); split; intros Hc;
    try reflexivity; try discriminate; eauto.
  destruct Hc; discriminate.
Qed.

Lemma assoc_row_at_none df i c :
  column df c = None -> assoc c (row_at df i) = None.
Proof. intros Hc. now rewrite assoc_row_at, Hc. Qed.

Section Required.
Context `{DateParser}.
Variable jurisdiction_map : gmap string string.

Lemma transform_clients_required df :
  is_Some (transform_clients df)
  <-> has_columns df ["client_id"; "client_name"; "country"; "created_on"] = true.
Proof.
  unfold transform_clients, has_columns, forallb, has_column.
  destruct (column df "client_id") as [ids|];
    [|split; [intros [? ?]|]; discriminate].
  destruct (column df "client_name") as [names|];
    [|split; [intros [? ?]|]; discriminate].
  destruct (column df "country") as [country|];
    [|split; [intros [? ?]|]; discriminate].
  destruct (column df "created_on") as [created|];
    [|split; [intros [? ?]|]; discriminate].
  split; [reflexivity|]. intros _. eexists. reflexivity.
Qed.

Lemma transform_patents_required df client_map :
  is_Some (transform_patents jurisdiction_map df client_map)
  <-> has_columns df ["patent_id"; "client_id"; "title"; "filing_date";
                      "grant_date"; "jurisdiction"] = true.
Proof.
  unfold transform_patents, has_columns, forallb, has_column.
  destruct (column df "patent_id") as [ids|];
    [|split; [intros [? ?]|]; discriminate].
  destruct (column df "client_id") as [clients|];
    [|split; [intros [? ?]|]; discriminate].
  destruct (column df "title") as [titles|];
    [|split; [intros [? ?]|]; discriminate].
  destruct (column df "filing_date") as [filing|];
    [|split; [intros [? ?]|]; discriminate].
  destruct (column df "grant_date") as [grant|];
    [|split; [intros [? ?]|]; discriminate].
  destruct (column df "jurisdiction") as [jur|];
    [|split; [intros [? ?]|]; discriminate].
  split; [reflexivity|]. intros _. eexists. reflexivity.
Qed.

Lemma transform_trademarks_required df client_map :
  is_Some (transform_trademarks df client_map)
  <-> has_columns df ["tm_id"; "client_id"; "mark_text"; "class";
                      "filing_date"] = true.
Proof.
  unfold transform_trademarks, has_columns, forallb, has_column.
  destruct (column df "tm_id") as [ids|];
    [|split; [intros [? ?]|]; discriminate].
  destruct (column df "client_id") as [clients|];
    [|split; [intros [? ?]|]; discriminate].
  destruct (column df "mark_text") as [marks|];
    [|split; [intros [? ?]|]; discriminate].
  destruct (column df "class") as [classes|];
    [|split; [intros [? ?]|]; discriminate].
  destruct (column df "filing_date") as [filing|];
    [|split; [intros [? ?]|]; discriminate].
  split; [reflexivity|]. intros _. eexists. reflexivity.
Qed.

Lemma resolve_id_needs_table patent_map tm_map df i :
  column df "related_table" = None ->
  resolve_id patent_map tm_map (row_at df i) = None.
Proof.
  intros Hc. unfold resolve_id.
  rewrite (assoc_row_at_none df i "related_table" Hc).
  destruct (assoc "related_id" (row_at df i)); reflexivity.
Qed.

Lemma transform_deadlines_needs_table df patent_map tm_map :
  has_column df "related_table" = false ->
  transform_deadlines df patent_map tm_map = None.
Proof.
  unfold has_column. destruct (column df "related_table") eqn:Hc; [discriminate|].
  intros _. unfold transform_deadlines.
  destruct (column df "dl_id") as [ids|]; [|reflexivity].
  destruct (column df "related_type") as [types0|]; [|reflexivity].
  simpl. destruct (str_accessor types0) as [types|]; [|reflexivity].
  simpl. destruct (nrows df) as [|n] eqn:Hn; [reflexivity|].
  unfold iterrows. rewrite Hn. cbn [Nat.eqb seq map mapM snd].
  now rewrite (resolve_id_needs_table patent_map tm_map df 0 Hc).
Qed.

End Required.

(** X15. The columns the client, patent and trademark transforms cannot do
    without: [df.get(c, "")] guards only the columns that are copied;
    where the result is mapped, a missing column raises. *)
Theorem transform_required_columns `{DateParser}
  (jurisdiction_map : gmap string string) (df : Frame cell)
  (client_map : gmap string Z) :
  (is_Some (transform_clients df)
   <-> has_columns df ["client_id"; "client_name"; "country"; "created_on"] = true)
  /\ (is_Some (transform_patents jurisdiction_map df client_map)
      <-> has_columns df ["patent_id"; "client_id"; "title"; "filing_date";
                          "grant_date"; "jurisdiction"] = true)
  /\ (is_Some (transform_trademarks df client_map)
      <-> has_columns df ["tm_id"; "client_id"; "mark_text"; "class";
                          "filing_date"] = true).
Proof.
  split; [apply transform_clients_required|].
  split; [apply transform_patents_required|apply transform_trademarks_required].
Qed.

Section NeedsTable.
Context `{DateParser}.
Variable jurisdiction_map : gmap string string.
Variable files : gmap string csv_file.

Lemma main_dry_run_needs_table dls :
  read_csv files "deadlines.csv" = Some dls ->
  has_column dls "related_table" = false ->
  main_dry_run jurisdiction_map files = None.
Proof.
  intros Hr Hc. unfold main_dry_run. rewrite Hr.
  destruct (read_csv files "clients.csv") as [clients|]; [|reflexivity].
  destruct (read_csv files "patents.csv") as [patents|]; [|reflexivity].
  destruct (read_csv files "trademarks.csv") as [tms|]; [|reflexivity].
  cbn [mbind option_bind].
  destruct (transform_clients clients) as [tf_clients|]; [|reflexivity].
  cbn [mbind option_bind].
  destruct (transform_patents _ _ _) as [tf_patents|]; [|reflexivity].
  cbn [mbind option_bind].
  destruct (transform_trademarks _ _) as [tf_tms|]; [|reflexivity].
  cbn [mbind option_bind].
  now rewrite transform_deadlines_needs_table.
Qed.

Lemma main_load_needs_table conn dls :
  read_csv files "deadlines.csv" = Some dls ->
  has_column dls "related_table" = false ->
  main_load jurisdiction_map files conn = None.
Proof.
  intros Hr Hc. unfold main_load. rewrite Hr.
  destruct (read_csv files "clients.csv") as [clients|]; [|reflexivity].
  destruct (read_csv files "patents.csv") as [patents|]; [|reflexivity].
  destruct (read_csv files "trademarks.csv") as [tms|]; [|reflexivity].
  cbn [mbind option_bind].
  destruct (transform_clients clients) as [tf_clients|]; [|reflexivity].
  cbn [mbind option_bind].
  destruct (upsert_dataframe _ tf_clients _ _ _) as [[conn1 iu1]|]; [|reflexivity].
  cbn [mbind option_bind].
  destruct (transform_patents _ _ _) as [tf_patents|]; [|reflexivity].
  cbn [mbind option_bind].
  destruct (transform_trademarks _ _) as [tf_tms|]; [|reflexivity].
  cbn [mbind option_bind].
  destruct (upsert_dataframe _ tf_patents _ _ _) as [[conn2 iu2]|]; [|reflexivity].
  cbn [mbind option_bind].
  destruct (upsert_dataframe _ tf_tms _ _ _) as [[conn3 iu3]|]; [|reflexivity].
  cbn [mbind option_bind].
  now rewrite transform_deadlines_needs_table.
Qed.

End NeedsTable.

(** X16. [resolve_id] is applied to the rows of the legacy frame, so it finds
    [related_table] only if the legacy file has such a column: without it
    [transform_deadlines] raises, and with it both modes of [main]. *)
Theorem deadlines_need_related_table `{DateParser}
  (jurisdiction_map : gmap string string) (files : gmap string csv_file)
  (conn : db) (dls : Frame cell) (patent_map tm_map : gmap string Z) :
  has_column dls "related_table" = false ->
  transform_deadlines dls patent_map tm_map = None
  /\ (read_csv files "deadlines.csv" = Some dls ->
      main_dry_run jurisdiction_map files = None
      /\ main_load jurisdiction_map files conn = None).
Proof.
  intros Hc. split; [now apply transform_deadlines_needs_table|].
  intros Hr. split.
  - exact (main_dry_run_needs_table jurisdiction_map files dls Hr Hc).
  - exact (main_load_needs_table jurisdiction_map files conn dls Hr Hc).
Qed.

(** Deadlines with the type and the reference of the matter, and no
    [related_table] column. *)
Definition legacy_deadlines : Frame cell :=
  mkFrame 1
    [ ("dl_id", [Str "DL-0001"]);
      ("related_type", [Str "patent"]);
      ("related_id", [Str "PT-0001"]);
      ("due_date", [Str "2026-11-12"]);
      ("description", [Str "Renewal for patent PT-0001"]) ].

Lemma deadlines_need_related_table_witness :
  @transform_deadlines simple_parser legacy_deadlines ∅ ∅ = None.
Proof.
  apply (@deadlines_need_related_table simple_parser ∅ ∅ empty_db
           legacy_deadlines ∅ ∅).
  reflexivity.
Defined.

Lemma transform_required_columns_witness :
  is_Some (@transform_clients simple_parser sample_clients).
Proof.
  apply (@transform_required_columns simple_parser sample_jurisdictions
           sample_clients sample_client_map).
  reflexivity.
Defined.

(** ** The surrogate ids of the store *)





Lemma update_sets_column (r old : record) (update_cols : list string) c :
  c ∈ update_cols ->
  foldr (fun c row => <[c := default PyNone (r !! c)]> row) old update_cols !! c
  = Some (default PyNone (r !! c)).
Proof.
  induction update_cols as [|c' l IH]; intros Hin; [inversion Hin|].
  simpl. destruct (decide (c' = c)) as [->|Hne].
  - apply lookup_insert_eq.
  - rewrite lookup_insert_ne by exact Hne. apply IH.
    inversion Hin; [congruence|assumption].
Qed.

Lemma update_keeps_column (r old : record) (update_cols : list string) c :
  c ∉ update_cols ->
  foldr (fun c row => <[c := default PyNone (r !! c)]> row) old update_cols !! c
  = old !! c.
Proof.
  induction update_cols as [|c' l IH]; intros Hid; [reflexivity|].
  simpl. rewrite lookup_insert_ne.
  - apply IH. intros Hin. apply Hid. now right.
  - intros ->. apply Hid. left.
Qed.





Lemma get_table_insert conn tbl t runs counts name :
  get_table (mkDb (<[tbl := t]> (tables conn)) runs counts) name
  = if decide (tbl = name) then t else get_table conn name.
Proof.
  unfold get_table. cbn [tables]. rewrite lookup_insert.
  destruct (decide (tbl = name)); reflexivity.
Qed.

Lemma upsert_dataframe_tables conn df tbl unique_col update_cols conn' iu :
  upsert_dataframe conn df tbl unique_col update_cols = Some (conn', iu) ->
  (exists rs, execute_upsert unique_col update_cols (get_table conn tbl) rs
              = Some (get_table conn' tbl)
              /\ (frame_empty df = false -> rs = to_records df))
  /\ forall name, name <> tbl -> get_table conn' name = get_table conn name.
Proof.
  unfold upsert_dataframe. destruct (frame_empty df).
  - intros [= <- _]. split; [|reflexivity]. exists []. split; [reflexivity|discriminate].
  - destruct (execute_upsert _ _ _ _) as [t'|] eqn:E; [|discriminate].
    simpl. intros [= <- _]. split.
    + exists (to_records df). rewrite get_table_insert, decide_True by reflexivity.
      split; [exact E|reflexivity].
    + intros name Hn. rewrite get_table_insert. now rewrite decide_False.
Qed.









(** *** The steps of a load *)


Section Steps.
Context `{DateParser}.
Variable jurisdiction_map : gmap string string.
Variable files : gmap string csv_file.
(** A relation between two states of the store that every upsert of the
    load respects. *)
Variable R : db -> db -> Prop.
Hypothesis R_tables : forall c c', tables c = tables c' -> R c c'.
Hypothesis R_trans : forall a b c, R a b -> R b c -> R a c.
Hypothesis R_upsert : forall c df tbl update_cols c' iu,
  "id" ∉ update_cols ->
  upsert_dataframe c df tbl "external_ref" update_cols = Some (c', iu) -> R c c'.


End Steps.






(** *** What an upsert stores *)

Definition stored (t : table) (k c : string) : option out_cell :=
  t_rows t !! k ≫= (fun row => row !! c).

Lemma upsert_record_other unique_col update_cols t r t' k :
  upsert_record unique_col update_cols t r = Some t' ->
  record_key unique_col r <> Some k ->
  t_rows t' !! k = t_rows t !! k.
Proof.
  unfold upsert_record, record_key.
  destruct (r !! unique_col) as [[[|k'|]| | |]|]; try discriminate.
  simpl. intros Hu Hk. assert (k' <> k) by congruence.
  destruct (t_rows t !! k'); injection Hu as <-; cbn [t_rows];
    now rewrite lookup_insert_ne.
Qed.

Lemma upsert_record_stores unique_col update_cols t r t' k c :
  upsert_record unique_col update_cols t r = Some t' ->
  record_key unique_col r = Some k ->
  c ∈ update_cols -> c <> "id" -> is_Some (r !! c) ->
  stored t' k c = r !! c.
Proof.
  unfold upsert_record, record_key, stored.
  destruct (r !! unique_col) as [[[|k'|]| | |]|]; try discriminate.
  simpl. intros Hu [= ->] Hc Hid [v Hv].
  destruct (t_rows t !! k); injection Hu as <-; cbn [t_rows];
    rewrite lookup_insert_eq; simpl.
  - rewrite update_sets_column by exact Hc. now rewrite Hv.
  - rewrite lookup_insert_ne by congruence. reflexivity.
Qed.

Lemma execute_upsert_other unique_col update_cols rs t t' k :
  execute_upsert unique_col update_cols t rs = Some t' ->
  Forall (fun r => record_key unique_col r <> Some k) rs ->
  t_rows t' !! k = t_rows t !! k.
Proof.
  revert t. induction rs as [|r rs IH]; intros t.
  { now intros [= <-]. }
  simpl. destruct (upsert_record unique_col update_cols t r) as [t1|] eqn:E1;
    [|discriminate].
  simpl. intros Hrest Hall. apply Forall_cons in Hall as [Hr Hall].
  rewrite (IH t1 Hrest Hall). exact (upsert_record_other _ _ _ _ _ _ E1 Hr).
Qed.

Lemma execute_upsert_app unique_col update_cols rs1 rs2 t :
  execute_upsert unique_col update_cols t (rs1 ++ rs2)%list
  = t1 ← execute_upsert unique_col update_cols t rs1;
    execute_upsert unique_col update_cols t1 rs2.
Proof.
  revert t. induction rs1 as [|r rs1 IH]; intros t; [reflexivity|].
  simpl. destruct (upsert_record unique_col update_cols t r) as [t1|]; [|reflexivity].
  simpl. apply IH.
Qed.

Lemma execute_upsert_last unique_col update_cols rs1 r rs2 t t' k c :
  execute_upsert unique_col update_cols t (rs1 ++ r :: rs2)%list = Some t' ->
  record_key unique_col r = Some k ->
  Forall (fun r' => record_key unique_col r' <> Some k) rs2 ->
  c ∈ update_cols -> c <> "id" -> is_Some (r !! c) ->
  stored t' k c = r !! c.
Proof.
  rewrite execute_upsert_app.
  destruct (execute_upsert unique_col update_cols t rs1) as [t1|]; [|discriminate].
  simpl. destruct (upsert_record unique_col update_cols t1 r) as [t2|] eqn:E2;
    [|discriminate].
  simpl. intros Hrest Hk Hall Hc Hid Hv.
  unfold stored. rewrite (execute_upsert_other _ _ _ _ _ _ Hrest Hall).
  exact (upsert_record_stores _ _ _ _ _ _ _ E2 Hk Hc Hid Hv).
Qed.

(** X19. Rows of a frame that share a key overwrite one another: after
    [upsert_dataframe] the row stored under a key carries, in every
    updated column, the value of the last frame row with this key. *)
Theorem upsert_last_row_wins (conn conn' : db) (df : Frame out_cell)
  (tbl unique_col : string) (update_cols : list string) (iu : Z * Z)
  (rs1 rs2 : list record) (r : record) (k c : string) :
  upsert_dataframe conn df tbl unique_col update_cols = Some (conn', iu) ->
  frame_empty df = false ->
  to_records df = (rs1 ++ r :: rs2)%list ->
  record_key unique_col r = Some k ->
  Forall (fun r' => record_key unique_col r' <> Some k) rs2 ->
  c ∈ update_cols -> c <> "id" -> is_Some (r !! c) ->
  stored (get_table conn' tbl) k c = r !! c.
Proof.
  intros Hu Hne Hrs Hk Hall Hc Hid Hv.
  destruct (upsert_dataframe_tables _ _ _ _ _ _ _ Hu) as ((rs & Hex & Hto) & _).
  rewrite (Hto Hne), Hrs in Hex.
  exact (execute_upsert_last _ _ _ _ _ _ _ _ _ Hex Hk Hall Hc Hid Hv).
Qed.

(** Two rows for one client. *)
Definition renamed_client : Frame out_cell :=
  mkFrame 2 [ ("external_ref", [text "CL-0001"; text "CL-0001"]);
              ("name", [text "Acme"; text "Acme Corp"]) ].

Definition renamed_store : db :=
  default empty_db
    (fst <$> upsert_dataframe empty_db renamed_client "clients" "external_ref"
               ["name"]).

Lemma renamed_store_ok :
  upsert_dataframe empty_db renamed_client "clients" "external_ref" ["name"]
  = Some (renamed_store, (2%Z, 0%Z)).
Proof. vm_compute. reflexivity. Qed.

Lemma upsert_last_row_wins_witness :
  stored (get_table renamed_store "clients") "CL-0001" "name"
  = Some (text "Acme Corp").
Proof.
  pose proof (upsert_last_row_wins empty_db renamed_store renamed_client
                "clients" "external_ref" ["name"] (2%Z, 0%Z)
                (take 1 (to_records renamed_client))
                []
                (default ∅ (to_records renamed_client !! 1%nat))
                "CL-0001" "name"
                renamed_store_ok eq_refl eq_refl) as P.
  rewrite P.
  - vm_compute. reflexivity.
  - vm_compute. reflexivity.
  - constructor.
  - left.
  - discriminate.
  - eexists. vm_compute. reflexivity.
Defined.

(** ** The dictionaries of the dry run *)

Lemma enumerate_map_snoc (l : list out_cell) (x : out_cell) :
  enumerate_map (l ++ [x])%list
  = match x with
    | Raw (Str ext) => <[ext := (Z.of_nat (length l) + 1)%Z]> (enumerate_map l)
    | _ => enumerate_map l
    end.
Proof.
  unfold enumerate_map. rewrite imap_app, fold_left_app. cbn [imap fold_left snd fst].
  rewrite Nat.add_0_r. reflexivity.
Qed.

Lemma enumerate_map_last (l : list out_cell) (ext : string) (z : Z) :
  enumerate_map l !! ext = Some z
  <-> exists i, l !! i = Some (text ext) /\ z = (Z.of_nat i + 1)%Z
                /\ forall j, (i < j)%nat -> l !! j <> Some (text ext).
Proof.
  revert z. induction l as [|x l IH] using rev_ind; intros z.
  { unfold enumerate_map. simpl. rewrite lookup_empty. split; [discriminate|].
    intros (i & Hi & _). rewrite lookup_nil in Hi. discriminate. }
  rewrite enumerate_map_snoc.
  assert (forall j, (length l < j)%nat -> (l ++ [x])%list !! j = None) as Hbeyond.
  { intros j Hj. apply lookup_ge_None. rewrite length_app. simpl. lia. }
  assert ((l ++ [x])%list !! length l = Some x) as Hlast.
  { rewrite lookup_app_r by lia. now rewrite Nat.sub_diag. }
  destruct (decide (x = text ext)) as [->|Hx].
  - unfold text. rewrite lookup_insert_eq. split.
    + intros [= <-]. exists (length l). repeat split; [exact Hlast|].
      intros j Hj. now rewrite Hbeyond.
    + intros (i & Hi & -> & Hlater).
      destruct (lt_eq_lt_dec i (length l)) as [[Hlt| ->]|Hgt].
      * exfalso. exact (Hlater _ Hlt Hlast).
      * reflexivity.
      * rewrite Hbeyond in Hi by exact Hgt. discriminate.
  - assert (match x with
            | Raw (Str e) => <[e := (Z.of_nat (length l) + 1)%Z]> (enumerate_map l)
            | _ => enumerate_map l
            end !! ext = enumerate_map l !! ext) as ->.
    { destruct x as [[|e|]| | |]; try reflexivity.
      apply lookup_insert_ne. intros ->. now apply Hx. }
    rewrite IH. split.
    + intros (i & Hi & -> & Hlater). exists i.
      assert (i < length l)%nat as Hlt by (apply lookup_lt_is_Some; eauto).
      rewrite lookup_app_l by exact Hlt. repeat split; [exact Hi|].
      intros j Hj. destruct (lt_eq_lt_dec j (length l)) as [[Hjl| ->]|Hjl].
      * rewrite lookup_app_l by exact Hjl. now apply Hlater.
      * rewrite Hlast. congruence.
      * now rewrite Hbeyond.
    + intros (i & Hi & -> & Hlater).
      destruct (lt_eq_lt_dec i (length l)) as [[Hlt| ->]|Hgt].
      * exists i. rewrite lookup_app_l in Hi by exact Hlt. repeat split; [exact Hi|].
        intros j Hj Hjl. apply (Hlater j Hj).
        assert (j < length l)%nat by (apply lookup_lt_is_Some; eauto).
        now rewrite lookup_app_l.
      * rewrite Hlast in Hi. congruence.
      * rewrite Hbeyond in Hi by exact Hgt. discriminate.
Qed.

(** X20. The dictionary [{ext: i+1 for i, ext in enumerate(refs)}] of the dry
    run sends a key to one more than its last position in the list; where
    the keys do not repeat, to one more than its position. *)
Theorem enumerate_map_positions (l : list out_cell) (ext : string) :
  (forall z, enumerate_map l !! ext = Some z
             <-> exists i, l !! i = Some (text ext) /\ z = (Z.of_nat i + 1)%Z
                           /\ forall j, (i < j)%nat -> l !! j <> Some (text ext))
  /\ (NoDup l -> forall i, l !! i = Some (text ext) ->
                           enumerate_map l !! ext = Some (Z.of_nat i + 1)%Z).
Proof.
  split; [exact (enumerate_map_last l ext)|].
  intros Hnd i Hi. apply enumerate_map_last. exists i. repeat split; [exact Hi|].
  intros j Hj Hjl. pose proof (NoDup_lookup _ _ _ _ Hnd Hi Hjl). lia.
Qed.

Lemma enumerate_map_positions_witness :
  enumerate_map [text "CL-0001"; text "CL-0002"] !! "CL-0002" = Some 2%Z.
Proof.
  apply (proj2 (enumerate_map_positions [text "CL-0001"; text "CL-0002"] "CL-0002"))
    with (i := 1%nat).
  - repeat constructor; set_solver.
  - reflexivity.
Defined.

(** ** [calculate_expiry_date] *)

(** The term of protection, in years. *)
Definition term_years (ip_type : string) : option Z :=
  if String.eqb ip_type "patent" then Some 20%Z
  else if String.eqb ip_type "trademark" then Some 10%Z
  else if String.eqb ip_type "copyright" then Some 95%Z
  else None.

Lemma calculate_expiry_date_term `{IsoParser} filing_date jurisdiction ip_type d :
  filing_date <> "" -> fromisoformat filing_date = Some d ->
  calculate_expiry_date filing_date jurisdiction ip_type
  = match term_years ip_type with
    | Some n => match replace_year d (year d + n) with
                | Some e => Some (Some (isoformat e))
                | None => None
                end
    | None => Some None
    end.
Proof.
  intros Hne Hd. unfold calculate_expiry_date, term_years.
  rewrite (proj2 (String.eqb_neq _ _) Hne), Hd.
  destruct (String.eqb ip_type "patent").
  { destruct (mem_str _ _); destruct (replace_year _ _); reflexivity. }
  destruct (String.eqb ip_type "trademark").
  { destruct (String.eqb jurisdiction "US"); [|destruct (mem_str _ _)];
      destruct (replace_year _ _); reflexivity. }
  destruct (String.eqb ip_type "copyright"); [|reflexivity].
  destruct (replace_year _ _); reflexivity.
Qed.

(** X21. The jurisdiction has no influence on the expiry date: every branch
    on it adds the same number of years. *)
Theorem expiry_ignores_jurisdiction `{IsoParser}
  (filing_date ip_type j1 j2 : string) :
  calculate_expiry_date filing_date j1 ip_type
  = calculate_expiry_date filing_date j2 ip_type.
Proof.
  destruct (String.eqb filing_date "") eqn:E.
  { unfold calculate_expiry_date. now rewrite E. }
  apply String.eqb_neq in E.
  destruct (fromisoformat filing_date) as [d|] eqn:Hd.
  - now rewrite !(calculate_expiry_date_term _ _ _ d E Hd).
  - unfold calculate_expiry_date. now rewrite Hd.
Qed.

Lemma leap_mod4 y : is_leap y = true -> (y mod 4 = 0)%Z.
Proof.
  unfold is_leap. intros Hl. apply andb_true_iff in Hl as [Hl _].
  now apply Z.eqb_eq in Hl.
Qed.

Lemma not_leap_shift y n : (y mod 4 = 0)%Z -> (n mod 4 <> 0)%Z -> is_leap (y + n) = false.
Proof.
  intros Hy Hn. unfold is_leap.
  replace ((y + n) mod 4 =? 0)%Z with false; [reflexivity|].
  symmetry. apply Z.eqb_neq. Z.to_euclidean_division_equations. lia.
Qed.

(** X22. A filing on 29 February makes [calculate_expiry_date] raise for
    trademarks and copyrights: the year 10 or 95 years later is never a
    leap year, and the [ValueError] of [replace] is not caught. *)
Theorem expiry_leap_day_raises `{IsoParser}
  (filing_date jurisdiction ip_type : string) (d : datetime) :
  filing_date <> "" -> fromisoformat filing_date = Some d ->
  month d = 2%Z -> day d = 29%Z ->
  ip_type = "trademark" \/ ip_type = "copyright" ->
  calculate_expiry_date filing_date jurisdiction ip_type = None.
Proof.
  intros Hne Hd Hm Hday Ht.
  rewrite (calculate_expiry_date_term _ _ _ d Hne Hd).
  pose proof (fromisoformat_real _ _ Hd) as Hreal.
  assert (is_leap (year d) = true) as Hleap.
  { unfold real_dateb, days_in_month in Hreal. rewrite Hm, Hday in Hreal.
    simpl in Hreal. destruct (is_leap (year d)); [reflexivity|].
    rewrite !andb_true_iff in Hreal. destruct Hreal as [_ Hreal]. discriminate. }
  apply leap_mod4 in Hleap.
  assert (forall n, (n mod 4 <> 0)%Z -> replace_year d (year d + n) = None) as Hr.
  { intros n Hn. unfold replace_year, real_dateb, days_in_month. cbn [year month day].
    rewrite Hm, Hday, (not_leap_shift _ _ Hleap Hn). simpl.
    now rewrite !andb_false_r. }
  destruct Ht as [-> | ->]; simpl; rewrite Hr; try reflexivity; discriminate.
Qed.

Lemma expiry_leap_day_raises_witness :
  calculate_expiry_date "2020-02-29" "US" "trademark" = None.
Proof.
  apply (expiry_leap_day_raises "2020-02-29" "US" "trademark" (mkDate 2020 2 29)).
  - discriminate.
  - reflexivity.
  - reflexivity.
  - reflexivity.
  - left. reflexivity.
Defined.

(** X23. For any other filing date the expiry date is the same day and month,
    20, 10 or 95 years later, as long as that year is at most 9999; an
    unknown kind of right gives [None]. *)
Theorem expiry_same_day `{IsoParser}
  (filing_date jurisdiction ip_type : string) (d : datetime) :
  filing_date <> "" -> fromisoformat filing_date = Some d ->
  ~ (month d = 2%Z /\ day d = 29%Z) ->
  calculate_expiry_date filing_date jurisdiction ip_type
  = match term_years ip_type with
    | Some n =>
        if (year d + n <=? 9999)%Z
        then Some (Some (isoformat (mkDate (year d + n) (month d) (day d))))
        else None
    | None => Some None
    end.
Proof.
  intros Hne Hd Hleap.
  rewrite (calculate_expiry_date_term _ _ _ d Hne Hd).
  pose proof (fromisoformat_real _ _ Hd) as Hreal.
  destruct (term_years ip_type) as [n|] eqn:Hn; [|reflexivity].
  assert (0 < n)%Z as Hpos.
  { unfold term_years in Hn.
    repeat (destruct (String.eqb ip_type _); [injection Hn as <-; lia|]).
    discriminate. }
  unfold real_dateb in Hreal. rewrite !andb_true_iff in Hreal.
  destruct Hreal as (((((Hy1 & Hy2) & Hm1) & Hm2) & Hd1) & Hd2).
  apply Z.leb_le in Hy1, Hy2, Hm1, Hm2, Hd1, Hd2.
  unfold replace_year, real_dateb. cbn [year month day].
  assert (day d <= days_in_month (year d + n) (month d))%Z as Hdays.
  { unfold days_in_month in *. destruct (month d =? 2)%Z eqn:Em; [|exact Hd2].
    apply Z.eqb_eq in Em.
    destruct (is_leap (year d)), (is_leap (year d + n)); lia. }
  destruct (year d + n <=? 9999)%Z eqn:Ey.
  - replace (1 <=? year d + n)%Z with true by (symmetry; apply Z.leb_le; lia).
    rewrite (proj2 (Z.leb_le _ _) Hm1), (proj2 (Z.leb_le _ _) Hm2),
      (proj2 (Z.leb_le _ _) Hd1), (proj2 (Z.leb_le _ _) Hdays).
    reflexivity.
  - rewrite andb_false_r. reflexivity.
Qed.

Lemma expiry_same_day_witness :
  calculate_expiry_date "2021-03-04" "US" "patent" = Some (Some "2041-03-04").
Proof.
  rewrite (expiry_same_day "2021-03-04" "US" "patent" (mkDate 2021 3 4)).
  - reflexivity.
  - discriminate.
  - reflexivity.
  - intros [Hm _]. discriminate.
Defined.

(** ** [parse_inventors] *)

Lemma split_any_whole is_sep s :
  PyStr.all_chars (fun c => negb (is_sep c)) s = true -> split_any is_sep s = [s].
Proof.
  induction s as [|c s IH]; [reflexivity|].
  simpl. destruct (is_sep c); [discriminate|]. simpl. intros Hs.
  now rewrite (IH Hs).
Qed.

Lemma split_name_of_clean v :
  falsy v = false -> clean_string v <> "" ->
  split_name (Str (clean_string v)) = split_name v.
Proof.
  intros Hf Hne. unfold split_name. rewrite Hf. cbn [falsy].
  rewrite (clean_string_fixed _ (clean_string_tidy v) (clean_string_not_blank v)).
  rewrite (proj2 (String.eqb_neq _ _) Hne). reflexivity.
Qed.

Lemma split_name_nothing v :
  falsy v = true \/ clean_string v = "" -> split_name v = ("", "").
Proof.
  unfold split_name. intros [Hf|Hc].
  - now rewrite Hf.
  - destruct (falsy v); [reflexivity|]. now rewrite Hc.
Qed.

(** X24. A text without [;] and [|] names at most one inventor, and it is
    read as [split_name] reads a name. *)
Theorem parse_inventors_single (v : cell) :
  PyStr.all_chars (fun c => negb (inventor_sep c)) (clean_string v) = true ->
  parse_inventors v
  = if String.eqb (first_name (split_name v)) ""
       && String.eqb (last_name (split_name v)) ""
    then [] else [split_name v].
Proof.
  intros Hsep. unfold parse_inventors.
  destruct (falsy v) eqn:Hf.
  { now rewrite split_name_nothing by now left. }
  destruct (String.eqb (clean_string v) "") eqn:He.
  { apply String.eqb_eq in He. now rewrite split_name_nothing by now right. }
  apply String.eqb_neq in He.
  rewrite (split_any_whole _ _ Hsep). cbn [flat_map].
  rewrite (proj1 (tidy_fixed _ (clean_string_tidy v))).
  rewrite (proj2 (String.eqb_neq _ _) He), (split_name_of_clean v Hf He).
  rewrite app_nil_r.
  destruct (String.eqb (first_name (split_name v)) "");
    destruct (String.eqb (last_name (split_name v)) ""); reflexivity.
Qed.

Lemma parse_inventors_single_witness :
  parse_inventors (Str "  smith,   mia ") = [("Mia", "Smith")].
Proof.
  rewrite (parse_inventors_single (Str "  smith,   mia ")).
  - vm_compute. reflexivity.
  - vm_compute. reflexivity.
Defined.

(** ** Files the validator cannot use *)

Definition unusable_clients (files : gmap string csv_file) : Prop :=
  files !! "clients.csv" = Some Unreadable
  \/ exists c, files !! "clients.csv" = Some (Csv c) /\ has_column c "client_id" = false.

Section Broken.
Context `{DateParser}.
Variable today : string.
Variable files : gmap string csv_file.

Lemma referential_needs_clients df entity_type :
  unusable_clients files ->
  _validate_referential_integrity files df entity_type = None.
Proof.
  unfold _validate_referential_integrity.
  intros [Hu|(c & Hc & Hid)]; [now rewrite Hu|].
  unfold has_column in Hid. rewrite Hc. simpl. destruct (column c "client_id"); [discriminate|reflexivity].
Qed.

Lemma validate_file_error file_path entity_type :
  (forall df, files !! file_path = Some (Csv df) ->
              _validate_business_rules today df entity_type = None
              \/ _validate_referential_integrity files df entity_type = None) ->
  status (validate_file today files file_path entity_type) = "error".
Proof.
  intros Hraise. unfold validate_file.
  destruct (files !! file_path) as [[|df]|]; simpl; try reflexivity.
  destruct (Hraise df eq_refl) as [Hb|Hr].
  - now rewrite Hb.
  - rewrite Hr. now destruct (_validate_business_rules today df entity_type).
Qed.

Lemma error_has_no_score r : status r = "error" -> get_overall_score r = None.
Proof. destruct r; [reflexivity|discriminate]. Qed.

Lemma all_errors_score_zero :
  (forall fe, In fe files_to_validate ->
              status (validate_file today files fe.1 fe.2) = "error") ->
  (system_quality_score (validate_all today files) == 0)%Q.
Proof.
  intros Herr. rewrite validate_all_system_score, validate_all_results.
  unfold computed_scores. rewrite omap_map.
  assert (omap (fun fe : string * string =>
                  get_overall_score (fe.2, validate_file today files fe.1 fe.2).2)
               files_to_validate = []) as ->.
  { induction files_to_validate as [|fe l IH]; [reflexivity|].
    cbn [omap list_omap snd]. rewrite error_has_no_score by (apply Herr; now left).
    apply IH. intros fe' Hin. apply Herr. now right. }
  reflexivity.
Qed.

End Broken.

(** X26. The referential check reads [clients.csv] for every entity, inside
    the [try] of [validate_file]: if that file cannot be parsed, or has no
    [client_id] column, every file is reported as an error and the system
    score is 0. *)
Theorem unusable_clients_fail_every_file `{DateParser} (today : string)
  (files : gmap string csv_file) :
  unusable_clients files ->
  (forall file_path entity_type,
      status (validate_file today files file_path entity_type) = "error")
  /\ (system_quality_score (validate_all today files) == 0)%Q.
Proof.
  intros Hu.
  assert (forall file_path entity_type,
             status (validate_file today files file_path entity_type) = "error") as He.
  { intros file_path entity_type. apply validate_file_error. intros df _. right.
    now apply referential_needs_clients. }
  split; [exact He|]. apply all_errors_score_zero. intros fe _. apply He.
Qed.

(** Clients without a [client_id] column. *)
Definition anonymous_clients : Frame cell :=
  mkFrame 1 [ ("client_name", [Str "Acme"]); ("email", [Str "legal@acme.com"]) ].

Lemma unusable_clients_fail_every_file_witness :
  status (@validate_file simple_parser "2026-01-01"
            (<["clients.csv" := Csv anonymous_clients]> two_files)
            "patents.csv" "patents") = "error".
Proof.
  apply (@unusable_clients_fail_every_file simple_parser).
  right. exists anonymous_clients. split; reflexivity.
Defined.

(** X27. The rule on pending deadlines reads [df['status']] without a guard:
    a deadlines file without that column, or with a [status] column that
    holds no text, is reported as an error and has no overall score. *)
Theorem deadlines_need_status `{DateParser} (today : string)
  (files : gmap string csv_file) (file_path : string) (df : Frame cell) :
  files !! file_path = Some (Csv df) ->
  (column df "status" ≫= str_accessor) = None ->
  status (validate_file today files file_path "deadlines") = "error"
  /\ get_overall_score (validate_file today files file_path "deadlines") = None.
Proof.
  intros Hf Hst.
  assert (status (validate_file today files file_path "deadlines") = "error") as He.
  { apply validate_file_error. intros df' Hf'. left.
    rewrite Hf in Hf'. injection Hf' as <-.
    unfold _validate_business_rules. cbn [String.eqb Ascii.eqb Bool.eqb].
    unfold _validate_deadline_business_rules.
    destruct (column df "status") as [st|]; [|reflexivity].
    simpl in Hst |- *. now rewrite Hst. }
  split; [exact He|now apply error_has_no_score].
Qed.

Lemma deadlines_need_status_witness :
  status (@validate_file simple_parser "2026-01-01"
            (<["deadlines.csv" := Csv legacy_deadlines]> ∅)
            "deadlines.csv" "deadlines") = "error".
Proof.
  apply (@deadlines_need_status simple_parser "2026-01-01" _ "deadlines.csv"
           legacy_deadlines).
  - reflexivity.
  - reflexivity.
Defined.

(** ** [split_name_legacy] *)

Definition word (w : string) : Prop :=
  w <> "" /\ PyStr.all_chars (fun c => negb (PyStr.is_space c)) w = true.

Lemma fields_join cur s :
  (cur = "" \/ word cur) ->
  tidy_from (String.eqb cur "") s = true ->
  PyStr.join " " (PyStr.fields_aux PyStr.is_space cur s) = cur ++ s
  /\ Forall word (PyStr.fields_aux PyStr.is_space cur s).
Proof.
  revert cur. induction s as [|c s IH]; intros cur Hcur Ht.
  - simpl in *. destruct (String.eqb cur "") eqn:E; [discriminate|].
    apply String.eqb_neq in E. destruct Hcur as [->|Hw]; [congruence|].
    split; [simpl; now rewrite str_app_empty|]. now constructor.
  - simpl in Ht |- *. destruct (PyStr.is_space c) eqn:Ec.
    + rewrite !andb_true_iff in Ht. destruct Ht as [[Hc Hb] Ht].
      apply Ascii.eqb_eq in Hc. subst c.
      destruct (String.eqb cur "") eqn:E; [discriminate|].
      apply String.eqb_neq in E. destruct Hcur as [->|Hw]; [congruence|].
      destruct (IH "" (or_introl eq_refl) Ht) as [Hj Hall].
      assert (PyStr.fields_aux PyStr.is_space "" s <> []) as Hne.
      { destruct s as [|d s]; [discriminate|]. simpl in Ht |- *.
        destruct (PyStr.is_space d) eqn:Ed.
        - now rewrite andb_false_r in Ht.
        - now apply fields_aux_cur. }
      split; [|constructor; assumption].
      cbn [app]. destruct (PyStr.fields_aux PyStr.is_space "" s) as [|w l] eqn:Ef;
        [congruence|].
      change (PyStr.join " " (cur :: w :: l))
        with (cur ++ " " ++ PyStr.join " " (w :: l)).
      rewrite Hj. reflexivity.
    + assert (cur ++ String c "" <> "") as Hne by (destruct cur; discriminate).
      assert (word (cur ++ String c "")) as Hw.
      { split; [exact Hne|]. rewrite all_chars_app. simpl. rewrite Ec. simpl.
        destruct Hcur as [->|[_ Hw]]; [reflexivity|]. now rewrite Hw. }
      assert (String.eqb (cur ++ String c "") "" = false) as E
          by now apply String.eqb_neq.
      rewrite <- E in Ht. destruct (IH _ (or_intror Hw) Ht) as [Hj Hall].
      split; [|exact Hall]. rewrite Hj, str_app_assoc. reflexivity.
Qed.

Lemma split_ws_join s :
  tidy s = true -> s <> "" ->
  PyStr.join " " (PyStr.split_ws s) = s /\ Forall word (PyStr.split_ws s).
Proof.
  intros Ht Hne. destruct s as [|c s]; [congruence|].
  unfold tidy in Ht. unfold PyStr.split_ws, PyStr.fields.
  apply (fields_join "" (String c s)); [now left|exact Ht].
Qed.

Lemma title_aux_space b w r :
  PyStr.title_aux b (w ++ String " " r)
  = PyStr.title_aux b w ++ String " " (PyStr.title_aux false r).
Proof.
  revert b. induction w as [|c w IH]; intros b; [reflexivity|].
  change (String c w ++ String " " r) with (String c (w ++ String " " r)).
  cbn [PyStr.title_aux].
  destruct (PyStr.is_lower c); [|destruct (PyStr.is_upper c)];
    rewrite IH; reflexivity.
Qed.

Lemma title_not_empty s : s <> "" -> String.eqb (PyStr.title s) "" = false.
Proof.
  destruct s as [|c s]; [congruence|]. intros _. unfold PyStr.title. simpl.
  destruct (PyStr.is_lower c); [|destruct (PyStr.is_upper c)]; reflexivity.
Qed.

Lemma join_not_empty w l : w <> "" -> PyStr.join " " (w :: l) <> "".
Proof. destruct w; [congruence|]. destruct l; discriminate. Qed.

(** X25. For a name without a comma the legacy function returns the cleaned
    name in title case. *)
Theorem split_name_legacy_plain (s : string) :
  PyStr.has_char "," (clean_string (Str s)) = false ->
  split_name_legacy (Str s) = PyStr.title (clean_string (Str s)).
Proof.
  intros Hc. unfold split_name_legacy.
  destruct (String.eqb (clean_string (Str s)) "") eqn:He.
  { apply String.eqb_eq in He. rewrite (split_name_blank s He), He. reflexivity. }
  apply String.eqb_neq in He. rewrite (split_name_tokens s He Hc).
  destruct (split_ws_join _ (clean_string_tidy (Str s)) He) as [Hj Hw].
  destruct (PyStr.split_ws (clean_string (Str s))) as [|p0 [|p1 [|p2 rest]]].
  - simpl in Hj. congruence.
  - simpl in Hj. subst p0. cbn [first_name last_name fst snd].
    rewrite (title_not_empty _ He). reflexivity.
  - apply Forall_cons in Hw as [[H0 _] Hw]. apply Forall_cons in Hw as [[H1 _] _].
    cbn [first_name last_name fst snd].
    rewrite (title_not_empty _ H0), (title_not_empty _ H1). cbn [negb andb].
    rewrite <- Hj. unfold PyStr.title.
    change (PyStr.join " " [p0; p1]) with (p0 ++ String " " p1).
    now rewrite title_aux_space.
  - apply Forall_cons in Hw as [[H0 _] Hw]. apply Forall_cons in Hw as [[H1 _] _].
    cbn [first_name last_name fst snd].
    rewrite (title_not_empty _ H0),
      (title_not_empty _ (join_not_empty p1 (p2 :: rest) H1)). cbn [negb andb].
    rewrite <- Hj. unfold PyStr.title.
    change (PyStr.join " " (p0 :: p1 :: p2 :: rest))
      with (p0 ++ String " " (PyStr.join " " (p1 :: p2 :: rest))).
    now rewrite title_aux_space.
Qed.

Lemma split_name_legacy_plain_witness :
  split_name_legacy (Str "  aarav   kumar singh ") = "Aarav Kumar Singh".
Proof.
  rewrite (split_name_legacy_plain "  aarav   kumar singh ").
  - vm_compute. reflexivity.
  - vm_compute. reflexivity.
Defined.

(** ** Dates compared as strings *)



















Section DateRules.
Context `{DateParser}.









End DateRules.



(** ** The first load and the dry run *)









(** ** The dry run as a rehearsal of the load *)







Section Rehearsal.
Context `{DateParser}.
Variable jurisdiction_map : gmap string string.
Variable files : gmap string csv_file.











End Rehearsal.


